(** * RMG-Py [rmg/structure.py]: adjacency-list codec, atom-type inference
      and resonance enumeration of [Structure].

    The development embeds the methods of [class Structure] (Python 2) as
    Rocq functions.  A [Structure] owns mutable, shared [Atom] and [Bond]
    objects: they are kept in an arena (object = position in a list) so that
    in-place mutation and aliasing are visible.  Python exceptions are the
    [Raise] outcomes of a small error monad.

    The modules [chem] and [graph] imported by [structure.py] are not part
    of the sources at hand.  Their data types are modelled from the
    specification (each such definition says so); the registries of [chem]
    and its order-changing methods are the parameters gathered in the class
    [chem.Registry]. *)

From Stdlib Require Import ZArith QArith List String Ascii Bool Lia.
From stdpp Require Import base option list gmap strings numbers.

Open Scope string_scope.
Open Scope list_scope.
Open Scope Z_scope.

(** ** Exceptions and the error monad *)

(** The exceptions that the modelled code can raise.  The first is
    [class InvalidAdjacencyListException], which stores the label of the
    adjacency list; the next five are Python built-ins; [DomainError] and
    [UnresolvedError] are the error kinds of the [chem] and [graph] modules
    named by the specification (bond-order or graph domain error, use of an
    ambiguity set where one value is needed); [DanglingHandle] is the abort on
    a handle that names no object of the arena (no Python state corresponds
    to it). *)
Inductive exn : Type :=
| InvalidAdjacencyListException (label : string)
| IndexError
| ValueError
| KeyError
| AttributeError
| UnboundLocalError
| DomainError
| UnresolvedError
| DanglingHandle.

Inductive result (A : Type) : Type :=
| Ok (a : A)
| Raise (e : exn).
Arguments Ok {A} a.
Arguments Raise {A} e.

#[global] Instance result_ret : MRet result := fun A a => Ok a.
#[global] Instance result_bind : MBind result := fun A B f m =>
  match m with
  | Ok a => f a
  | Raise e => Raise e
  end.

#[global] Instance result_fmap : FMap result := fun A B f m =>
  match m with
  | Ok a => Ok (f a)
  | Raise e => Raise e
  end.

(** [InvalidAdjacencyListException.__str__]. *)
Definition exn_str (e : exn) : option string :=
  match e with
  | InvalidAdjacencyListException label => Some ("Invalid adjacency list: " +:+ label)
  | _ => None
  end.

(** [o] if present, else the exception [e]. *)
Definition or_raise {A} (e : exn) (o : option A) : result A :=
  match o with
  | Some a => Ok a
  | None => Raise e
  end.

(** A [for] loop whose body may raise: the first exception ends the loop. *)
Fixpoint mapM {A B} (f : A -> result B) (l : list A) : result (list B) :=
  match l with
  | [] => Ok []
  | x :: l' => y ← f x; ys ← mapM f l'; Ok (y :: ys)
  end.

Fixpoint foldM {A S} (f : S -> A -> result S) (s : S) (l : list A) : result S :=
  match l with
  | [] => Ok s
  | x :: l' => s' ← f s x; foldM f s' l'
  end.

(** ** Python 2 byte-string methods used by the codec *)

Module pystr.

Definition chr (n : nat) : ascii := ascii_of_nat n.

(** [str.isspace] of one character, C locale: space, \t, \n, \v, \f, \r. *)
Definition isspace (c : ascii) : bool :=
  let n := nat_of_ascii c in
  (n =? 32)%nat || ((9 <=? n)%nat && (n <=? 13)%nat).

(** [s.splitlines()]: lines end at \n, \r or \r\n; the ends are dropped and a
    final line break opens no further line. *)
Fixpoint splitlines_from (cur : string) (s : string) : list string :=
  match s with
  | EmptyString => if String.eqb cur "" then [] else [cur]
  | String c rest =>
      if Ascii.eqb c (chr 10) then cur :: splitlines_from "" rest
      else if Ascii.eqb c (chr 13) then
        match rest with
        | String c' rest' =>
            if Ascii.eqb c' (chr 10) then cur :: splitlines_from "" rest'
            else cur :: splitlines_from "" rest
        | EmptyString => [cur]
        end
      else splitlines_from (cur +:+ String c "") rest
  end.
Definition splitlines (s : string) : list string := splitlines_from "" s.

(** [s.split()]: the maximal runs of non-blank characters. *)
Fixpoint split_from (cur : string) (s : string) : list string :=
  match s with
  | EmptyString => if String.eqb cur "" then [] else [cur]
  | String c rest =>
      if isspace c
      then (if String.eqb cur "" then [] else [cur]) ++ split_from "" rest
      else split_from (cur +:+ String c "") rest
  end.
Definition split (s : string) : list string := split_from "" s.

(** [s.split(sep)] for a one-character separator: never an empty list. *)
Fixpoint split_sep_from (sep : ascii) (cur : string) (s : string) : list string :=
  match s with
  | EmptyString => [cur]
  | String c rest =>
      if Ascii.eqb c sep then cur :: split_sep_from sep "" rest
      else split_sep_from sep (cur +:+ String c "") rest
  end.
Definition split_sep (sep : ascii) (s : string) : list string :=
  split_sep_from sep "" s.

(** [s.partition(sep)] for a one-character separator. *)
Fixpoint partition_from (sep : ascii) (cur : string) (s : string)
  : string * string * string :=
  match s with
  | EmptyString => (cur, "", "")
  | String c rest =>
      if Ascii.eqb c sep then (cur, String sep "", rest)
      else partition_from sep (cur +:+ String c "") rest
  end.
Definition partition (sep : ascii) (s : string) : string * string * string :=
  partition_from sep "" s.

(** [s.lstrip(c)], [s.rstrip(c)] and [s.strip(c)] for one character [c]. *)
Fixpoint lstrip (c : ascii) (s : string) : string :=
  match s with
  | String c' rest => if Ascii.eqb c' c then lstrip c rest else s
  | EmptyString => ""
  end.
Fixpoint rstrip (c : ascii) (s : string) : string :=
  match s with
  | String c' rest =>
      let r := rstrip c rest in
      if Ascii.eqb c' c && String.eqb r "" then "" else String c' r
  | EmptyString => ""
  end.
Definition strip (c : ascii) (s : string) : string := rstrip c (lstrip c s).

(** [s[0]]: [IndexError] on the empty string. *)
Definition head (s : string) : result ascii :=
  match s with
  | String c _ => Ok c
  | EmptyString => Raise IndexError
  end.

(** [s[1:-1]]: without its first and its last character; empty when [s] has
    at most two characters. *)
Fixpoint init (s : string) : string :=
  match s with
  | String c (String _ _ as rest) => String c (init rest)
  | _ => ""
  end.
Definition slice_1_m1 (s : string) : string :=
  match s with
  | String _ rest => init rest
  | EmptyString => ""
  end.

(** [s.upper()], C locale. *)
Definition upper_char (c : ascii) : ascii :=
  let n := nat_of_ascii c in
  if (97 <=? n)%nat && (n <=? 122)%nat then ascii_of_nat (n - 32) else c.
Fixpoint upper (s : string) : string :=
  match s with
  | String c rest => String (upper_char c) (upper rest)
  | EmptyString => ""
  end.

(** [int(s)], base 10: blanks around it are ignored, then an optional sign
    and at least one decimal digit; anything else is a [ValueError].  (Not
    modelled: the suffix 'L' that Python 2 lets pass after digits that do not
    fit a machine integer.) *)
Definition digit (c : ascii) : option Z :=
  let n := nat_of_ascii c in
  if (48 <=? n)%nat && (n <=? 57)%nat then Some (Z.of_nat (n - 48)) else None.
Fixpoint digits (acc : Z) (s : string) : option Z :=
  match s with
  | EmptyString => Some acc
  | String c rest =>
      match digit c with
      | Some d => digits (10 * acc + d) rest
      | None => None
      end
  end.
Fixpoint lstrip_ws (s : string) : string :=
  match s with
  | String c rest => if isspace c then lstrip_ws rest else s
  | EmptyString => ""
  end.
Fixpoint rstrip_ws (s : string) : string :=
  match s with
  | String c rest =>
      let r := rstrip_ws rest in
      if isspace c && String.eqb r "" then "" else String c r
  | EmptyString => ""
  end.
Definition unsigned (s : string) : option Z :=
  match s with
  | EmptyString => None
  | _ => digits 0 s
  end.
Definition int (s : string) : result Z :=
  or_raise ValueError
    match rstrip_ws (lstrip_ws s) with
    | String c rest =>
        if Ascii.eqb c "-" then Z.opp <$> unsigned rest
        else if Ascii.eqb c "+" then unsigned rest
        else unsigned (String c rest)
    | EmptyString => None
    end.

(** [str(n)] of a non-negative integer. *)
Definition digit_char (n : nat) : ascii := ascii_of_nat (48 + n).
Fixpoint str_fuel (fuel : nat) (n : nat) (acc : string) : string :=
  match fuel with
  | O => acc
  | S fuel' =>
      let acc' := String (digit_char (n mod 10)) acc in
      if (n <? 10)%nat then acc' else str_fuel fuel' (n / 10) acc'
  end.
Definition str (n : nat) : string := str_fuel (S n) n "".

End pystr.

(** ** The [chem] module: elements, types, atoms and bonds *)

(** An attribute that holds either one value or a Python list of candidate
    values ([x.__class__ == list] tells them apart). *)
Inductive attr (A : Type) : Type :=
| Resolved (x : A)
| Ambiguous (l : list A).
Arguments Resolved {A} x.
Arguments Ambiguous {A} l.

Module chem.

(** Modelled from the spec: class [Element] of the absent [chem] module,
    "symbol, atomic number"; [structure.py] reads [element.symbol] and
    [element.number]. *)
Module Element.
Record t : Type := { symbol : string; number : Z }.
End Element.

(** Modelled from the spec: class [AtomType] of the absent [chem] module, a
    label such as 'C', 'Cd', 'Os', 'R' and the element it belongs to;
    [structure.py] reads [atomType.label] and [atomType.element]. *)
Module AtomType.
Record t : Type := { label : string; element : Element.t }.
End AtomType.

(** Modelled from the spec: class [ElectronState] of the absent [chem]
    module, "a discrete free-electron configuration", "identified by a short
    code", with its radical [order]; [structure.py] reads [label] and
    [order] only. *)
Module ElectronState.
Record t : Type := { label : string; order : Z }.
End ElectronState.

(** Modelled from the spec: class [BondType] of the absent [chem] module, "a
    discrete bond order/class (single, double, triple, aromatic/benzene),
    identified by a short code and a numeric order (1, 2, 3, 1.5)"; the codes
    'S', 'D', 'T', 'B' are those [Structure.fromOBMol] uses. *)
Module BondType.
Inductive t : Type := Single | Double | Triple | Benzene.
Definition label (b : t) : string :=
  match b with
  | Single => "S"
  | Double => "D"
  | Triple => "T"
  | Benzene => "B"
  end.
Definition order (b : t) : Q :=
  match b with
  | Single => 1
  | Double => 2
  | Triple => 3
  | Benzene => 3 # 2
  end.
End BondType.

(** Modelled from the spec: the registries and the order-changing methods of
    the absent [chem] module, taken as parameters.  [atomTypes],
    [electronStates] and [bondTypes] are the lookup tables
    [chem.atomTypes[label]], ... ([None]: no such key).  The four methods are
    those behind [Atom.increaseFreeElectron], [Atom.decreaseFreeElectron],
    [Bond.increaseOrder] and [Bond.decreaseOrder], on the value the object
    holds. *)
Class Registry : Type := {
  atomTypes : string -> option AtomType.t;
  electronStates : string -> option ElectronState.t;
  bondTypes : string -> option BondType.t;
  increaseFreeElectron : ElectronState.t -> result ElectronState.t;
  decreaseFreeElectron : ElectronState.t -> result ElectronState.t;
  increaseOrder : BondType.t -> result BondType.t;
  decreaseOrder : BondType.t -> result BondType.t
}.

(** Modelled from the spec: "when the candidate set has exactly one element,
    the atom is resolved". *)
Definition mk_attr {A} (l : list A) : attr A :=
  match l with
  | [x] => Resolved x
  | _ => Ambiguous l
  end.

(** Modelled from the spec: class [Atom] of the absent [chem] module.  The
    fields are the attributes [structure.py] reads and writes: [atomType] and
    [electronState] (one value or a list of candidates), [charge], and the
    center [label]. *)
Module Atom.
Record t : Type := {
  atomType : attr AtomType.t;
  electronState : attr ElectronState.t;
  charge : Z;
  label : string
}.

(** Modelled from the spec: [chem.Atom(atomType, electronState, charge,
    label)] on lists of labels: each label is looked up in its registry. *)
Definition new `{Registry} (types states : list string) (charge : Z) (label : string)
  : result t :=
  ts ← mapM (fun l => or_raise KeyError (atomTypes l)) types;
  es ← mapM (fun l => or_raise KeyError (electronStates l)) states;
  Ok {| atomType := mk_attr ts; electronState := mk_attr es;
        charge := charge; label := label |}.

(** [atom.atomType = t]. *)
Definition set_atomType (a : t) (ty : AtomType.t) : t :=
  {| atomType := Resolved ty; electronState := electronState a;
     charge := charge a; label := label a |}.

Definition set_electronState (a : t) (e : ElectronState.t) : t :=
  {| atomType := atomType a; electronState := Resolved e;
     charge := charge a; label := label a |}.

(** Modelled from the spec: [atom.isCarbon()] and [atom.isOxygen()] test the
    element of a resolved atom; on an ambiguity set they are the
    "unresolved-model error". *)
Definition isElement (sym : string) (a : t) : result bool :=
  match atomType a with
  | Resolved ty => Ok (String.eqb (Element.symbol (AtomType.element ty)) sym)
  | Ambiguous _ => Raise UnresolvedError
  end.
Definition isCarbon : t -> result bool := isElement "C".
Definition isOxygen : t -> result bool := isElement "O".

(** Modelled from the spec: [atom.increaseFreeElectron()] and
    [atom.decreaseFreeElectron()] replace the electron state of a resolved
    atom by the registry's next or previous one. *)
Definition changeFreeElectron (f : ElectronState.t -> result ElectronState.t) (a : t)
  : result t :=
  match electronState a with
  | Resolved e => e' ← f e; Ok (set_electronState a e')
  | Ambiguous _ => Raise UnresolvedError
  end.

(** [atom.electronState.order]: a list has no attribute [order]. *)
Definition order (a : t) : result Z :=
  match electronState a with
  | Resolved e => Ok (ElectronState.order e)
  | Ambiguous _ => Raise AttributeError
  end.

(** [atom.copy()]: a new object with the same attributes. *)
Definition copy (a : t) : t := a.
End Atom.

(** Modelled from the spec: class [Bond] of the absent [chem] module:
    "exactly two Atom references" ([atoms], here the handles of the two atom
    objects) "and one or more candidate BondTypes". *)
Module Bond.
Record t : Type := {
  atoms : nat * nat;
  bondType : attr BondType.t
}.

(** Modelled from the spec: [chem.Bond([atom1, atom2], bondType)] on a list
    of labels. *)
Definition new `{Registry} (atoms : nat * nat) (types : list string) : result t :=
  ts ← mapM (fun l => or_raise KeyError (bondTypes l)) types;
  Ok {| atoms := atoms; bondType := mk_attr ts |}.

Definition set_atoms (b : t) (atoms : nat * nat) : t :=
  {| atoms := atoms; bondType := bondType b |}.

Definition set_bondType (b : t) (ty : BondType.t) : t :=
  {| atoms := atoms b; bondType := Resolved ty |}.

(** Modelled from the spec: the class tests [isSingle], [isDouble],
    [isTriple], [isBenzene] of a resolved bond. *)
Definition hasType (ty : BondType.t) (b : t) : result bool :=
  match bondType b with
  | Resolved ty' => Ok (Qeq_bool (BondType.order ty') (BondType.order ty))
  | Ambiguous _ => Raise UnresolvedError
  end.
Definition isSingle : t -> result bool := hasType BondType.Single.
Definition isDouble : t -> result bool := hasType BondType.Double.
Definition isTriple : t -> result bool := hasType BondType.Triple.
Definition isBenzene : t -> result bool := hasType BondType.Benzene.

(** Modelled from the spec: "[canIncreaseOrder()] is false ... once
    order = 3; [canDecreaseOrder()] is false ... once order = 1". *)
Definition canIncreaseOrder (b : t) : result bool :=
  match bondType b with
  | Resolved ty => Ok (negb (Qeq_bool (BondType.order ty) 3))
  | Ambiguous _ => Raise UnresolvedError
  end.
Definition canDecreaseOrder (b : t) : result bool :=
  match bondType b with
  | Resolved ty => Ok (negb (Qeq_bool (BondType.order ty) 1))
  | Ambiguous _ => Raise UnresolvedError
  end.

(** Modelled from the spec: [bond.increaseOrder()] and
    [bond.decreaseOrder()] replace the type of a resolved bond. *)
Definition changeOrder (f : BondType.t -> result BondType.t) (b : t) : result t :=
  match bondType b with
  | Resolved ty => ty' ← f ty; Ok (set_bondType b ty')
  | Ambiguous _ => Raise UnresolvedError
  end.

(** [bond.copy()]. *)
Definition copy (b : t) : t := b.
End Bond.

End chem.

(** ** The [graph] module: the vertex and edge container *)

(** A Python [dict] whose keys are object handles, in iteration order. *)
Module dict.
Fixpoint get {V} (k : nat) (d : list (nat * V)) : option V :=
  match d with
  | [] => None
  | (k', v) :: d' => if Nat.eqb k' k then Some v else get k d'
  end.
Fixpoint set {V} (k : nat) (v : V) (d : list (nat * V)) : list (nat * V) :=
  match d with
  | [] => [(k, v)]
  | (k', v') :: d' => if Nat.eqb k' k then (k, v) :: d' else (k', v') :: set k v d'
  end.
Definition has {V} (k : nat) (d : list (nat * V)) : bool :=
  match get k d with
  | Some _ => true
  | None => false
  end.
End dict.

(** Modelled from the spec: class [Graph] of the absent [graph] module: a
    mapping from each vertex to the mapping "atom2 -> bond" of its incident
    edges.  [addVertex] "fails if atom already present"; [addEdge] "fails
    with a domain error if either endpoint is not already a vertex". *)
Module graph.
Definition Graph : Type := list (nat * list (nat * nat)).

Definition vertices (g : Graph) : list nat := map fst g.

Definition getEdges (g : Graph) (v : nat) : result (list (nat * nat)) :=
  or_raise KeyError (dict.get v g).

Definition addVertex (g : Graph) (v : nat) : result Graph :=
  if dict.has v g then Raise DomainError else Ok (g ++ [(v, [])]).

Definition addEdge (g : Graph) (v1 v2 : nat) (e : nat) : result Graph :=
  match dict.get v1 g, dict.get v2 g with
  | Some _, Some _ =>
      let g1 := dict.set v1 (dict.set v2 e (default [] (dict.get v1 g))) g in
      Ok (dict.set v2 (dict.set v1 e (default [] (dict.get v2 g1))) g1)
  | _, _ => Raise DomainError
  end.

(** Each edge once, in the order of first appearance. *)
Definition edges (g : Graph) : list nat :=
  fold_left (fun acc e => if existsb (Nat.eqb e) acc then acc else acc ++ [e])
            (flat_map (fun va => map snd (snd va)) g) [].
End graph.

(** ** [class Structure] *)

Import chem.

(** A [Structure] with the objects it refers to: the atom and bond objects
    (an object's handle is its position) and [self.graph], which maps each
    vertex (an atom handle) to its mapping from neighbour to bond handle. *)
Record Structure : Type := {
  atomObjs : list Atom.t;
  bondObjs : list Bond.t;
  graph : graph.Graph
}.

Definition set_graph (s : Structure) (g : graph.Graph) : Structure :=
  {| atomObjs := atomObjs s; bondObjs := bondObjs s; graph := g |}.
Definition set_atom (s : Structure) (i : nat) (a : Atom.t) : Structure :=
  {| atomObjs := <[i := a]> (atomObjs s); bondObjs := bondObjs s; graph := graph s |}.
Definition set_bond (s : Structure) (j : nat) (b : Bond.t) : Structure :=
  {| atomObjs := atomObjs s; bondObjs := <[j := b]> (bondObjs s); graph := graph s |}.

(** The object behind a handle. *)
Definition atomObj (s : Structure) (i : nat) : result Atom.t :=
  or_raise DanglingHandle (atomObjs s !! i).
Definition bondObj (s : Structure) (j : nat) : result Bond.t :=
  or_raise DanglingHandle (bondObjs s !! j).

(** A method that may mutate [self] and may raise: the outcome and the state
    of [self] when it ends. *)
Definition method (A : Type) : Type := Structure -> result A * Structure.

(** A [for] loop of a method: the first exception ends it, the mutations made
    so far stay. *)
Fixpoint forS {A S} (body : A -> S -> result unit * S) (l : list A) (s : S)
  : result unit * S :=
  match l with
  | [] => (Ok (), s)
  | x :: l' =>
      match body x s with
      | (Ok _, s') => forS body l' s'
      | (Raise e, s') => (Raise e, s')
      end
  end.

(** [Structure.atoms]: [self.graph.vertices()]. *)
Definition atoms (s : Structure) : list nat := graph.vertices (graph s).

(** [Structure.bonds]: [self.graph.edges()]. *)
Definition bonds (s : Structure) : list nat := graph.edges (graph s).

(** [Structure.addAtom]. *)
Definition addAtom (atom : nat) : method unit := fun s =>
  match graph.addVertex (graph s) atom with
  | Ok g => (Ok (), set_graph s g)
  | Raise e => (Raise e, s)
  end.

(** [Structure.addBond]: [atom1, atom2 = bond.atoms], then
    [self.graph.addEdge((atom1, atom2), bond)]. *)
Definition addBond (bond : nat) : method unit := fun s =>
  match b ← bondObj s bond;
        graph.addEdge (graph s) (Bond.atoms b).1 (Bond.atoms b).2 bond with
  | Ok g => (Ok (), set_graph s g)
  | Raise e => (Raise e, s)
  end.

(** [Structure.getBonds]. *)
Definition getBonds (s : Structure) (atom : nat) : result (list (nat * nat)) :=
  graph.getEdges (graph s) atom.

(** [Structure.initialize] on the lists of new objects [atoms] and [bonds]:
    [self.graph] is a new [Graph], to which every atom and then every bond is
    added.  (The callers modelled here always pass lists, never [None].) *)
Definition initialize (atoms : list Atom.t) (bonds : list Bond.t)
  : result unit * Structure :=
  let s0 := {| atomObjs := atoms; bondObjs := bonds; graph := [] |} in
  match forS addAtom (seq 0 (length atoms)) s0 with
  | (Ok _, s1) => forS addBond (seq 0 (length bonds)) s1
  | (Raise e, s1) => (Raise e, s1)
  end.

(** [list.index]: the first position of [x], or [ValueError]. *)
Fixpoint index (x : nat) (l : list nat) : result nat :=
  match l with
  | [] => Raise ValueError
  | y :: l' => if Nat.eqb y x then Ok O else S <$> index x l'
  end.

(** ** The adjacency-list codec *)

Module adjlist.

(** The local collections of [fromAdjacencyList]: the new atom and bond
    objects, [atomdict] from atom id to atom (its handle, the position in
    [atoms]) and [bonddict] from atom id to the mapping from the other id to
    the list of bond-type labels. *)
Record locals : Type := {
  atoms : list Atom.t;
  bonds : list Bond.t;
  atomdict : gmap Z nat;
  bonddict : gmap Z (gmap Z (list string))
}.

Definition start : locals :=
  {| atoms := []; bonds := []; atomdict := ∅; bonddict := ∅ |}.

(** [data[i]]. *)
Definition item (data : list string) (i : nat) : result string :=
  or_raise IndexError (data !! i).

(** [if x[0] == '{': x = x[1:-1].split(',') else: x = [x]]. *)
Definition candidates (x : string) : result (list string) :=
  c ← pystr.head x;
  Ok (if Ascii.eqb c "{" then pystr.split_sep "," (pystr.slice_1_m1 x) else [x]).

(** The body of [for datum in data[index+2:]], for the atom with id [aid]. *)
Definition bond_entry `{Registry} (aid : Z) (st : locals) (datum : string)
  : result locals :=
  let datum := pystr.strip "," datum in
  let '(aid2, _, btype) := pystr.partition "," (pystr.slice_1_m1 datum) in
  aid2 ← pystr.int aid2;
  btype ← candidates btype;
  st1 ← match atomdict st !! aid2 with
        | Some atom2 =>
            atom1 ← or_raise KeyError (atomdict st !! aid);
            bond ← Bond.new (atom1, atom2) btype;
            Ok {| atoms := atoms st; bonds := bonds st ++ [bond];
                  atomdict := atomdict st; bonddict := bonddict st |}
        | None => Ok st
        end;
  row ← or_raise KeyError (bonddict st1 !! aid);
  Ok {| atoms := atoms st1; bonds := bonds st1; atomdict := atomdict st1;
        bonddict := <[aid := <[aid2 := btype]> row]> (bonddict st1) |}.

(** The body of [for line in lines[1:]]. *)
Definition atom_line `{Registry} (st : locals) (line : string) : result locals :=
  let data := pystr.split line in
  if Nat.eqb (length data) 0 then Ok st else
  d0 ← item data 0;
  aid ← pystr.int (pystr.strip "." d0);
  d1 ← item data 1;
  c ← pystr.head d1;
  let '(center, index) := if Ascii.eqb c "*" then (d1, 2%nat) else ("", 1%nat) in
  elements ← item data index;
  elements ← candidates elements;
  elecState ← item data (index + 1);
  elecState ← candidates (pystr.upper elecState);
  atom ← Atom.new elements elecState 0 center;
  let st1 := {| atoms := atoms st ++ [atom]; bonds := bonds st;
                atomdict := <[aid := length (atoms st)]> (atomdict st);
                bonddict := <[aid := ∅]> (bonddict st) |} in
  foldM (bond_entry aid) st1 (drop (index + 2) data).

(** The [try] block: the local [label] as bound when the block ends (if it
    is), and how the block ends. *)
Definition try_block `{Registry} (adjlist : string) : option string * result locals :=
  match pystr.splitlines adjlist with
  | [] => (None, Raise IndexError)
  | label :: lines => (Some label, foldM atom_line start lines)
  end.

(** [raise InvalidAdjacencyListException(label)]: reading a local that was
    never bound is an [UnboundLocalError]. *)
Definition invalid (label : option string) : exn :=
  match label with
  | Some l => InvalidAdjacencyListException l
  | None => UnboundLocalError
  end.

(** "Check consistency using bonddict". *)
Definition check_entry (label : option string) (bonddict : gmap Z (gmap Z (list string)))
    (atom1 : Z) (_ : unit) (e : Z * list string) : result unit :=
  let '(atom2, btype) := e in
  match bonddict !! atom2 with
  | None => Raise (invalid label)
  | Some row2 =>
      match row2 !! atom1 with
      | None => Raise (invalid label)
      | Some btype' =>
          if bool_decide (btype = btype') then Ok () else Raise (invalid label)
      end
  end.
Definition check (label : option string) (bonddict : gmap Z (gmap Z (list string)))
  : result unit :=
  foldM (fun _ r => foldM (check_entry label bonddict r.1) () (map_to_list r.2))
        () (map_to_list bonddict).

End adjlist.

(** [Structure.fromAdjacencyList]. *)
Definition fromAdjacencyList `{Registry} (adjlist : string) : method unit := fun self =>
  match adjlist.try_block adjlist with
  | (label, Raise _) => (Raise (adjlist.invalid label), self)
  | (label, Ok st) =>
      match adjlist.check label (adjlist.bonddict st) with
      | Raise e => (Raise e, self)
      | Ok _ => initialize (adjlist.atoms st) (adjlist.bonds st)
      end
  end.

(** [Structure.toAdjacencyList]. *)
Definition braced (labels : list string) : result string :=
  match labels with
  | [] => Raise IndexError
  | l :: ls => Ok ("{" +:+ l +:+ fold_right (fun l' acc => "," +:+ l' +:+ acc) "" ls +:+ "}")
  end.

Definition nl : string := String (pystr.chr 10) "".

Definition bond_text (s : Structure) (atoms : list nat) (e : nat * nat) : result string :=
  let '(atom2, bond) := e in
  i ← index atom2 atoms;
  b ← bondObj s bond;
  ty ← match Bond.bondType b with
       | Ambiguous l => braced (map BondType.label l)
       | Resolved t => Ok (BondType.label t)
       end;
  Ok ("{" +:+ pystr.str (i + 1) +:+ "," +:+ ty +:+ "} ").

Definition atom_text (s : Structure) (atoms : list nat) (ia : nat * nat) : result string :=
  let '(i, atom) := ia in
  a ← atomObj s atom;
  let number := pystr.str (i + 1) +:+ " " in
  let center := if String.eqb (Atom.label a) "" then "" else Atom.label a +:+ " " in
  ty ← match Atom.atomType a with
       | Ambiguous l => t ← braced (map AtomType.label l); Ok (t +:+ " ")
       | Resolved t => Ok (AtomType.label t +:+ " ")
       end;
  es ← match Atom.electronState a with
       | Ambiguous l => braced (map ElectronState.label l)
       | Resolved e => Ok (ElectronState.label e +:+ " ")
       end;
  adj ← getBonds s atom;
  bs ← mapM (bond_text s atoms) adj;
  Ok (number +:+ center +:+ ty +:+ es +:+ fold_right String.append "" bs +:+ nl).

Definition toAdjacencyList (s : Structure) (label : string) : result string :=
  let head := if String.eqb label "" then "" else label +:+ nl in
  let atoms := atoms s in
  ls ← mapM (atom_text s atoms) (imap (fun i a => (i, a)) atoms);
  Ok (head +:+ fold_right String.append "" ls).

(** ** A registry for running the code on examples *)

(** Modelled from the spec: one instance of the registries of the absent
    [chem] module, with the labels that [structure.py] itself names: the atom
    types of [updateAtomTypes], the electron states '0', '1', '2S', '2T' and
    the bond types 'S', 'D', 'T', 'B' of [fromOBMol].  A free electron more or
    less moves to the state of the next or previous radical order; a bond
    order more or less moves between single, double and triple; whatever
    would leave these domains is a domain error. *)
Module registry.
Import Element AtomType.

Definition carbon : Element.t := {| symbol := "C"; number := 6 |}.
Definition oxygen : Element.t := {| symbol := "O"; number := 8 |}.
Definition hydrogen : Element.t := {| symbol := "H"; number := 1 |}.
Definition generic : Element.t := {| symbol := "R"; number := 0 |}.

Definition member (l : string) (ls : list string) : bool := existsb (String.eqb l) ls.

Definition atomTypes (l : string) : option AtomType.t :=
  if member l ["C"; "Ct"; "Cs"; "Cd"; "Cdd"; "Cds"; "CO"; "Cb"; "Cbf"]
  then Some {| label := l; element := carbon |}
  else if member l ["O"; "Os"; "Od"] then Some {| label := l; element := oxygen |}
  else if member l ["H"] then Some {| label := l; element := hydrogen |}
  else if member l ["R"; "R!H"] then Some {| label := l; element := generic |}
  else None.

Definition state (l : string) (n : Z) : ElectronState.t :=
  {| ElectronState.label := l; ElectronState.order := n |}.

Definition electronStates (l : string) : option ElectronState.t :=
  if String.eqb l "0" then Some (state "0" 0)
  else if String.eqb l "1" then Some (state "1" 1)
  else if String.eqb l "2S" then Some (state "2S" 2)
  else if String.eqb l "2T" then Some (state "2T" 2)
  else None.

Definition bondTypes (l : string) : option BondType.t :=
  find (fun b => String.eqb (BondType.label b) l)
       [BondType.Single; BondType.Double; BondType.Triple; BondType.Benzene].

Definition increaseFreeElectron (e : ElectronState.t) : result ElectronState.t :=
  let n := ElectronState.order e in
  if (n =? 0)%Z then Ok (state "1" 1)
  else if (n =? 1)%Z then Ok (state "2T" 2)
  else Raise DomainError.

Definition decreaseFreeElectron (e : ElectronState.t) : result ElectronState.t :=
  let n := ElectronState.order e in
  if (n =? 1)%Z then Ok (state "0" 0)
  else if (n =? 2)%Z then Ok (state "1" 1)
  else Raise DomainError.

Definition increaseOrder (b : BondType.t) : result BondType.t :=
  match b with
  | BondType.Single => Ok BondType.Double
  | BondType.Double => Ok BondType.Triple
  | _ => Raise DomainError
  end.

Definition decreaseOrder (b : BondType.t) : result BondType.t :=
  match b with
  | BondType.Triple => Ok BondType.Double
  | BondType.Double => Ok BondType.Single
  | _ => Raise DomainError
  end.

Definition default : Registry :=
  {| chem.atomTypes := atomTypes;
     chem.electronStates := electronStates;
     chem.bondTypes := bondTypes;
     chem.increaseFreeElectron := increaseFreeElectron;
     chem.decreaseFreeElectron := decreaseFreeElectron;
     chem.increaseOrder := increaseOrder;
     chem.decreaseOrder := decreaseOrder |}.

End registry.

(** ** Copy, atom-type inference, resonance, labels *)

(** [Structure.copy]: the copies of the atoms in [self.atoms()] order, the
    copies of the bonds with their endpoints re-pointed by position, and a new
    [Structure] initialized from them. *)
Definition copy_bond (s : Structure) (bond : nat) : result Bond.t :=
  b ← bondObj s bond;
  index1 ← index (Bond.atoms b).1 (atoms s);
  index2 ← index (Bond.atoms b).2 (atoms s);
  Ok (Bond.set_atoms (Bond.copy b) (index1, index2)).

Definition copy (s : Structure) : result Structure :=
  atoms' ← mapM (fun atom => Atom.copy <$> atomObj s atom) (atoms s);
  bonds' ← mapM (copy_bond s) (bonds s);
  match initialize atoms' bonds' with
  | (Ok _, s') => Ok s'
  | (Raise e, _) => Raise e
  end.

(** [Structure.getRadicalCount]. *)
Definition getRadicalCount (s : Structure) : result Z :=
  foldM (fun radical atom => a ← atomObj s atom; n ← Atom.order a; Ok (radical + n))
        0 (atoms s).

(** A delocalization path [[atom1, atom2, atom3, bond12, bond23]]. *)
Definition path : Type := nat * nat * nat * nat * nat.

(** [Structure.findAllDelocalizationPaths]. *)
Definition allyl_step (s : Structure) (atom1 atom2 bond12 : nat) (paths : list path)
    (e : nat * nat) : result (list path) :=
  let '(atom3, bond23) := e in
  if Nat.eqb atom1 atom3 then Ok paths else
  b23 ← bondObj s bond23;
  can ← Bond.canDecreaseOrder b23;
  Ok (if can : bool then paths ++ [(atom1, atom2, atom3, bond12, bond23)] else paths).

Definition vinyl_step (s : Structure) (atom1 : nat) (paths : list path) (e : nat * nat)
  : result (list path) :=
  let '(atom2, bond12) := e in
  b12 ← bondObj s bond12;
  can ← Bond.canIncreaseOrder b12;
  if can : bool then
    adj2 ← getBonds s atom2;
    foldM (allyl_step s atom1 atom2 bond12) paths adj2
  else Ok paths.

Definition findAllDelocalizationPaths (s : Structure) (atom1 : nat) : result (list path) :=
  a1 ← atomObj s atom1;
  n ← Atom.order a1;
  if n <=? 0 then Ok [] else
  adj1 ← getBonds s atom1;
  foldM (vinyl_step s atom1) [] adj1.

(** A call [atom.m()] or [bond.m()] that mutates the object in place. *)
Definition onAtom (f : Atom.t -> result Atom.t) (atom : nat) : method unit := fun s =>
  match a ← atomObj s atom; f a with
  | Ok a' => (Ok (), set_atom s atom a')
  | Raise e => (Raise e, s)
  end.
Definition onBond (f : Bond.t -> result Bond.t) (bond : nat) : method unit := fun s =>
  match b ← bondObj s bond; f b with
  | Ok b' => (Ok (), set_bond s bond b')
  | Raise e => (Raise e, s)
  end.

(** Statements in sequence. *)
Definition steps (ms : list (method unit)) : method unit := forS (fun m s => m s) ms.

Section Resonance.
Context `{R : Registry}.

Definition incE : nat -> method unit := onAtom (Atom.changeFreeElectron increaseFreeElectron).
Definition decE : nat -> method unit := onAtom (Atom.changeFreeElectron decreaseFreeElectron).
Definition incO : nat -> method unit := onBond (Bond.changeOrder increaseOrder).
Definition decO : nat -> method unit := onBond (Bond.changeOrder decreaseOrder).

(** The body of [for path in paths]: shift, copy, restore, append. *)
Definition isomer_step (p : path) (st : Structure * list Structure)
  : result unit * (Structure * list Structure) :=
  let '(atom1, atom2, atom3, bond12, bond23) := p in
  let '(s, isomers) := st in
  match steps [decE atom1; incE atom3; incO bond12; decO bond23] s with
  | (Raise e, s1) => (Raise e, (s1, isomers))
  | (Ok _, s1) =>
      match copy s1 with
      | Raise e => (Raise e, (s1, isomers))
      | Ok isomer =>
          match steps [incE atom1; decE atom3; decO bond12; incO bond23] s1 with
          | (Raise e, s2) => (Raise e, (s2, isomers))
          | (Ok _, s2) => (Ok (), (s2, isomers ++ [isomer]))
          end
      end
  end.

(** The body of [for atom in self.atoms()]. *)
Definition radical_step (atom : nat) (st : Structure * list Structure)
  : result unit * (Structure * list Structure) :=
  match findAllDelocalizationPaths st.1 atom with
  | Raise e => (Raise e, st)
  | Ok paths => forS isomer_step paths st
  end.

(** [Structure.getAdjacentResonanceIsomers]. *)
Definition getAdjacentResonanceIsomers : method (list Structure) := fun self =>
  match getRadicalCount self with
  | Raise e => (Raise e, self)
  | Ok radical =>
      if 0 <? radical then
        match forS radical_step (atoms self) (self, []) with
        | (Ok _, (s, isomers)) => (Ok isomers, s)
        | (Raise e, (s, _)) => (Raise e, s)
        end
      else (Ok [], self)
  end.

End Resonance.

(** [Structure.getLabeledAtom]: the atom found, or [None]. *)
Fixpoint firstLabeled (s : Structure) (label : string) (l : list nat)
  : result (option nat) :=
  match l with
  | [] => Ok None
  | atom :: l' =>
      a ← atomObj s atom;
      if String.eqb (Atom.label a) label then Ok (Some atom)
      else firstLabeled s label l'
  end.
Definition getLabeledAtom (s : Structure) (label : string) : result (option nat) :=
  firstLabeled s label (atoms s).

(** [Structure.updateAtomTypes]. *)

(** The counters [single], [double], [triple], [benzene] and the flag
    [carbonyl]. *)
Record counts : Type := {
  single : nat; double : nat; triple : nat; benzene : nat; carbonyl : bool
}.

(** The body of [for atom2, bond12 in self.getBonds(atom1).iteritems()]. *)
Definition count_step (s : Structure) (a1 : Atom.t) (c : counts) (e : nat * nat)
  : result counts :=
  let '(atom2, bond12) := e in
  b12 ← bondObj s bond12;
  isS ← Bond.isSingle b12;
  c1 ← (if isS : bool then
          Ok {| single := S (single c); double := double c; triple := triple c;
                benzene := benzene c; carbonyl := carbonyl c |}
        else
          isD ← Bond.isDouble b12;
          if isD : bool then
            Ok {| single := single c; double := S (double c); triple := triple c;
                  benzene := benzene c; carbonyl := carbonyl c |}
          else
            isT ← Bond.isTriple b12;
            if isT : bool then
              Ok {| single := single c; double := double c; triple := S (triple c);
                    benzene := benzene c; carbonyl := carbonyl c |}
            else
              isB ← Bond.isBenzene b12;
              Ok (if isB : bool then
                    {| single := single c; double := double c; triple := triple c;
                       benzene := S (benzene c); carbonyl := carbonyl c |}
                  else c));
  isC ← Atom.isCarbon a1;
  if isC : bool then
    a2 ← atomObj s atom2;
    isO ← Atom.isOxygen a2;
    if isO : bool then
      isD ← Bond.isDouble b12;
      Ok (if isD : bool then
            {| single := single c1; double := double c1; triple := triple c1;
               benzene := benzene c1; carbonyl := true |}
          else c1)
    else Ok c1
  else Ok c1.

(** "Use counts to determine proper atom type". *)
Definition suggest (symbol : string) (c : counts) : string :=
  if String.eqb symbol "C" then
    if Nat.eqb (triple c) 1 then "Ct"
    else if Nat.eqb (single c) 3 || Nat.eqb (single c) 4 then "Cs"
    else if Nat.eqb (double c) 2 then "Cdd"
    else if carbonyl c then "CO"
    else if Nat.eqb (double c) 1 && (Nat.eqb (single c) 1 || Nat.eqb (single c) 2) then "Cds"
    else if Nat.eqb (double c) 1 then "Cd"
    else if Nat.eqb (benzene c) 1 || Nat.eqb (benzene c) 2 then "Cb"
    else if Nat.eqb (benzene c) 3 then "Cbf"
    else symbol
  else if String.eqb symbol "O" then
    if Nat.eqb (single c) 1 || Nat.eqb (single c) 2 then "Os"
    else if Nat.eqb (double c) 1 then "Od"
    else symbol
  else symbol.

(** The chain of [if]/[elif] that compares the specified type [label] (of
    element [symbol]) with the suggested [atomType]. *)
Inductive action : Type := Keep | Change | Warn.

Definition reconcile (label symbol atomType : string) : action :=
  if String.eqb label atomType then Keep
  else if String.eqb atomType symbol || String.eqb atomType "Cd" then Keep
  else if (String.eqb label "Cds" || String.eqb label "Cdd") && String.eqb atomType "Cd"
  then Keep
  else if String.eqb label "Cbf" && String.eqb atomType "Cb" then Keep
  else if String.eqb label "Cdd" && String.eqb atomType "CO" then Keep
  else if String.eqb label symbol then Change
  else if String.eqb label "Cd"
          && (String.eqb atomType "Cds" || String.eqb atomType "Cdd"
              || String.eqb atomType "CO")
  then Change
  else Warn.

Definition dq : string := String (pystr.chr 34) "".
Definition warning (atomType label : string) : string :=
  "Suggested atom type " +:+ dq +:+ atomType +:+ dq
  +:+ " does not match specified atom type " +:+ dq +:+ label +:+ dq +:+ ".".

Definition no_counts : counts :=
  {| single := 0; double := 0; triple := 0; benzene := 0; carbonyl := false |}.

Section AtomTypes.
Context `{R : Registry}.

(** The body of [for atom1 in self.atoms()]; the state is [self] and the
    warnings logged so far. *)
Definition type_step (atom1 : nat) (st : Structure * list string)
  : result unit * (Structure * list string) :=
  let '(s, log) := st in
  match atomObj s atom1 with
  | Raise e => (Raise e, st)
  | Ok a1 =>
      match Atom.atomType a1 with
      | Ambiguous _ => (Ok (), st)
      | Resolved ty =>
          if String.eqb (AtomType.label ty) "R" || String.eqb (AtomType.label ty) "R!H"
          then (Ok (), st)
          else
            match adj ← getBonds s atom1; foldM (count_step s a1) no_counts adj with
            | Raise e => (Raise e, st)
            | Ok c =>
                let symbol := Element.symbol (AtomType.element ty) in
                let atomType := suggest symbol c in
                match reconcile (AtomType.label ty) symbol atomType with
                | Keep => (Ok (), st)
                | Change =>
                    match atomTypes atomType with
                    | None => (Raise KeyError, st)
                    | Some ty' => (Ok (), (set_atom s atom1 (Atom.set_atomType a1 ty'), log))
                    end
                | Warn => (Ok (), (s, log ++ [warning atomType (AtomType.label ty)]))
                end
            end
      end
  end.

Definition updateAtomTypes (self : Structure) : result unit * (Structure * list string) :=
  forS type_step (atoms self) (self, []).

End AtomTypes.

(** ** Labels, bare types, and the temperature ranges of [thermo.py] *)

(** [atom.label = label]. *)
Definition set_label (a : Atom.t) (label : string) : Atom.t :=
  {| Atom.atomType := Atom.atomType a; Atom.electronState := Atom.electronState a;
     Atom.charge := Atom.charge a; Atom.label := label |}.

(** [Structure.clearLabeledAtoms]. *)
Definition clearLabeledAtoms : method unit := fun self =>
  forS (onAtom (fun a => Ok (set_label a ""))) (atoms self) self.

(** [Structure.containsLabeledAtom]. *)
Fixpoint anyLabeled (s : Structure) (label : string) (l : list nat) : result bool :=
  match l with
  | [] => Ok false
  | atom :: l' =>
      a ← atomObj s atom;
      if String.eqb (Atom.label a) label then Ok true else anyLabeled s label l'
  end.
Definition containsLabeledAtom (s : Structure) (label : string) : result bool :=
  anyLabeled s label (atoms s).

(** [Structure.getLabeledAtoms]: the dictionary from label to atom.  The
    test [atom.isCenter()] belongs to the absent [chem] module and is the
    parameter [isCenter]. *)
Definition getLabeledAtoms (isCenter : Atom.t -> bool) (s : Structure)
  : result (gmap string nat) :=
  foldM (fun found atom =>
           a ← atomObj s atom;
           Ok (if isCenter a then <[Atom.label a := atom]> found else found))
        ∅ (atoms s).

(** [Structure.simplifyAtomTypes]. *)
Definition simplify_step `{R : Registry} (atom1 : nat) : method unit := fun s =>
  match atomObj s atom1 with
  | Raise e => (Raise e, s)
  | Ok a1 =>
      match Atom.atomType a1 with
      | Ambiguous _ => (Ok (), s)
      | Resolved ty =>
          if String.eqb (AtomType.label ty) "R" || String.eqb (AtomType.label ty) "R!H"
          then (Ok (), s)
          else
            match atomTypes (Element.symbol (AtomType.element ty)) with
            | None => (Raise KeyError, s)
            | Some ty' => (Ok (), set_atom s atom1 (Atom.set_atomType a1 ty'))
            end
      end
  end.
Definition simplifyAtomTypes `{R : Registry} : method unit := fun self =>
  forS simplify_step (atoms self) self.

(** [Structure.toDOT]. *)

(** Modelled from the spec: the private list [_atomType] or [_bondType] of
    an atom or bond, its "one or more candidate" types. *)
Definition candidates_of {A} (x : attr A) : list A :=
  match x with
  | Resolved a => [a]
  | Ambiguous l => l
  end.

Definition tab : string := String (pystr.chr 9) "".

(** The dictionary [colors]. *)
Definition colors (label : string) : result string :=
  if String.eqb label "*" then Ok "red"
  else if String.eqb label "*1" then Ok "red"
  else if String.eqb label "*2" then Ok "green"
  else if String.eqb label "*3" then Ok "blue"
  else if String.eqb label "*4" then Ok "yellow"
  else if String.eqb label "*5" then Ok "purple"
  else if String.eqb label "*6" then Ok "orange"
  else Raise KeyError.

(** The body of [for i, atom in enumerate(self.atoms())]. *)
Definition vertex_text (s : Structure) (ia : nat * nat) : result string :=
  let '(i, atom) := ia in
  a ← atomObj s atom;
  atomType ← match candidates_of (Atom.atomType a) with
             | [] => Raise IndexError
             | t :: ts =>
                 Ok (fold_left (fun acc ty => acc +:+ "," +:+ AtomType.label ty) ts
                               (AtomType.label t))
             end;
  let dot := tab +:+ pystr.str (i + 1) +:+ " [label=" +:+ dq +:+ atomType +:+ dq in
  color ← (if String.eqb (Atom.label a) "" then Ok ""
           else c ← colors (Atom.label a); Ok (",color=" +:+ c +:+ ",fontcolor=" +:+ c));
  Ok (dot +:+ color +:+ "]" +:+ nl).

(** The flags [single], [double], [triple], [benzene]. *)
Definition has_order (o : Q) (types : list BondType.t) : bool :=
  existsb (fun type => Qeq_bool (BondType.order type) o) types.

(** The styles of the lines that draw one bond, in the order in which they
    are written. *)
Definition edge_styles (types : list BondType.t) : list string :=
  let single := has_order 1 types in
  let double := has_order 2 types in
  let triple := has_order 3 types in
  let benzene := has_order (3 # 2) types in
  if single || double || triple || benzene then
    ["solid"]
    ++ (if single && double && triple then ["dashed"; "dashed"]
        else if single && double then ["dashed"]
        else if double && triple then ["solid"; "dashed"]
        else if single && triple then ["dashed"; "dashed"]
        else if double then ["solid"]
        else if triple then ["solid"; "solid"]
        else [])
    ++ (if benzene then ["dotted"] else [])
  else [].

(** The body of [for i, bond in enumerate(self.bonds())]. *)
Definition edge_text (s : Structure) (bond : nat) : result string :=
  b ← bondObj s bond;
  index1 ← index (Bond.atoms b).1 (atoms s);
  index2 ← index (Bond.atoms b).2 (atoms s);
  Ok (fold_right String.append ""
        (map (fun style => tab +:+ pystr.str (index1 + 1) +:+ " -- "
                           +:+ pystr.str (index2 + 1)
                           +:+ " [len=2,style=" +:+ style +:+ "]" +:+ nl)
             (edge_styles (candidates_of (Bond.bondType b))))).

Definition toDOT (s : Structure) (label : string) : result string :=
  vs ← mapM (vertex_text s) (imap (fun i a => (i, a)) (atoms s));
  es ← mapM (edge_text s) (bonds s);
  Ok ("graph " +:+ label +:+ " {" +:+ nl
      +:+ tab +:+ "// List of atoms" +:+ nl +:+ fold_right String.append "" vs
      +:+ tab +:+ "// List of bonds" +:+ nl +:+ fold_right String.append "" es
      +:+ "}" +:+ nl).

(** [chempy/thermo.py]: the temperature range of a model and the choice of
    a polynomial.  Temperatures and coefficients are floats ([temp]); [le] is
    their comparison [<=], all that the code modelled here does with them. *)
Module thermo.
Section Ranges.
Context {temp : Type} (le : temp -> temp -> bool).

(** [class ThermoModel]. *)
Record ThermoModel : Type := { Tmin : temp; Tmax : temp; comment : string }.

(** [ThermoModel.isTemperatureValid]. *)
Definition isTemperatureValid (m : ThermoModel) (T : temp) : bool :=
  le (Tmin m) T && le T (Tmax m).

(** [class NASAPolynomial]: a [ThermoModel] with the seven coefficients
    [c0], ..., [c6]. *)
Record NASAPolynomial : Type := {
  range : ThermoModel;
  c0 : temp; c1 : temp; c2 : temp; c3 : temp; c4 : temp; c5 : temp; c6 : temp
}.

(** [class NASAModel]: a [ThermoModel] with a list of polynomials. *)
Record NASAModel : Type := { model : ThermoModel; polynomials : list NASAPolynomial }.

(** [NASAModel.__selectPolynomialForTemperature]: the polynomial, or
    [InvalidThermoModelError] ([None]). *)
Fixpoint firstValid (polys : list NASAPolynomial) (T : temp) : option NASAPolynomial :=
  match polys with
  | [] => None
  | poly :: polys' =>
      if isTemperatureValid (range poly) T then Some poly else firstValid polys' T
  end.
Definition selectPolynomialForTemperature (m : NASAModel) (T : temp)
  : option NASAPolynomial :=
  firstValid (polynomials m) T.

End Ranges.
End thermo.

(** ** Example inputs *)

Definition empty_Structure : Structure := {| atomObjs := []; bondObjs := []; graph := [] |}.

(** The lines, each ended by a newline. *)
Definition lines (ls : list string) : string :=
  fold_right (fun l acc => l +:+ nl +:+ acc) "" ls.

(** The Structure that [fromAdjacencyList] builds from [text], with the
    example registry. *)
Definition parsed (text : string) : Structure :=
  (@fromAdjacencyList registry.default text empty_Structure).2.

Definition ethane_text := lines ["C1"; "1 C 0 {2,S}"; "2 C 0 {1,S}"].
Definition allyl_text := lines ["allyl"; "1 C 0 {2,D}"; "2 C 0 {1,D} {3,S}"; "3 C 1 {2,S}"].
Definition propyl_text := lines ["propyl"; "1 C 0 {2,S}"; "2 C 1 {1,S} {3,S}"; "3 C 0 {2,S}"].
Definition ethene_text := lines ["ethene"; "1 C 0 {2,D}"; "2 C 0 {1,D}"].
Definition amb_text := lines ["X"; "1 C {0,1} {2,S}"; "2 C 0 {1,S}"].
Definition labeled_text :=
  lines ["L"; "1 *1 C 0 {2,S}"; "2 *2 O 0 {1,S} {3,S}"; "3 *2 C 0 {2,S}"].
Definition singlet_text :=
  lines ["singlet"; "1 C 0 {2,D}"; "2 C 0 {1,D} {3,S}"; "3 C 2S {2,S}"].
Definition broken_text := lines ["L"; "1 C 0 {2,S}"; "2 C 0"].
Definition mismatched_text := lines ["L"; "1 C 0 {2,S}"; "2 C 0 {1,D}"].
Definition benzyl_text :=
  lines ["benzyl"; "1 C 1 {2,B}"; "2 C 0 {1,B} {3,D}"; "3 C 0 {2,D}"].
Definition reused_id_text := lines ["L"; "1 C 0 {2,S}"; "1 C 0"; "2 C 0"].
Definition overwritten_text := lines ["L"; "1 C 0 {2,S}"; "2 C 0 {1,D} {1,S}"].

(** ** The vocabulary of the statements *)

(** *** Labels *)

(** The atom behind [atom] is there and its label is not [label]. *)
Definition other_label (s : Structure) (label : string) (atom : nat) : Prop :=
  exists a, atomObjs s !! atom = Some a /\ Atom.label a <> label.

Definition other_labelb (s : Structure) (label : string) (atom : nat) : bool :=
  match atomObjs s !! atom with
  | Some a => negb (String.eqb (Atom.label a) label)
  | None => false
  end.

(** The label of the type of a resolved atom. *)
Definition typeLabel (s : Structure) (atom : nat) : option string :=
  a ← atomObjs s !! atom;
  match Atom.atomType a with
  | Resolved ty => Some (AtomType.label ty)
  | Ambiguous _ => None
  end.

(** *** Radicals *)

(** The atom behind [atom] holds one electron state, of radical order [n]. *)
Definition radical_order (s : Structure) (atom : nat) (n : Z) : Prop :=
  exists a, atomObjs s !! atom = Some a /\ Atom.order a = Ok n.

(** *** The parser *)

(** Both endpoints of the bond are among the first [n] atom objects. *)
Definition bounded (n : nat) (b : Bond.t) : Prop :=
  ((Bond.atoms b).1 < n)%nat /\ ((Bond.atoms b).2 < n)%nat.

(** Every atom of [atomdict] is one of [atoms], and every bond joins two of
    them. *)
Definition closed (st : adjlist.locals) : Prop :=
  (forall id h, adjlist.atomdict st !! id = Some h -> (h < length (adjlist.atoms st))%nat)
  /\ Forall (bounded (length (adjlist.atoms st))) (adjlist.bonds st).

(** The [try] block of [fromAdjacencyList] ends normally and has recorded
    [bonddict[a][b] == btype]. *)
Definition recorded `{R : Registry} (text : string) (a b : Z) (btype : list string) : Prop :=
  exists st row,
    (adjlist.try_block text).2 = Ok st
    /\ adjlist.bonddict st !! a = Some row /\ row !! b = Some btype.

(** *** The adjacency list as it is written *)

(** The atom id of a line, [int(data[0].strip('.'))], if the line has one. *)
Definition line_id (line : string) : option Z :=
  match pystr.split line with
  | [] => None
  | d0 :: _ =>
      match pystr.int (pystr.strip "." d0) with
      | Ok aid => Some aid
      | Raise _ => None
      end
  end.

(** The bond entries of a line, [data[index+2:]]. *)
Definition line_entries (line : string) : list string :=
  let data := pystr.split line in
  match data !! 1%nat with
  | Some (String c _) => drop ((if Ascii.eqb c "*" then 2 else 1) + 2)%nat data
  | _ => []
  end.

(** The two parts of a bond entry [{aid2,btype}]; the atom id it names and
    its list of bond-type labels, if they can be read. *)
Definition entry_parts (datum : string) : string * string :=
  let '(aid2, _, btype) := pystr.partition "," (pystr.slice_1_m1 (pystr.strip "," datum)) in
  (aid2, btype).
Definition entry_id (datum : string) : option Z :=
  match pystr.int (entry_parts datum).1 with
  | Ok aid2 => Some aid2
  | Raise _ => None
  end.
Definition entry_types (datum : string) : option (list string) :=
  match adjlist.candidates (entry_parts datum).2 with
  | Ok btype => Some btype
  | Raise _ => None
  end.

(** Is the line one of the atom id [a]; is the entry one for [b]. *)
Definition of_id (a : Z) (line : string) : bool := bool_decide (line_id line = Some a).
Definition for_id (b : Z) (datum : string) : bool := bool_decide (entry_id datum = Some b).

(** Every list of bond-type labels that the adjacency list gives for the
    entry [(a, b)], in the order in which they are written: the entries for
    [b] on the lines of the atom id [a]. *)
Definition listed (text : string) (a b : Z) : list (list string) :=
  flat_map (fun line =>
              if of_id a line
              then omap entry_types (List.filter (for_id b) (line_entries line))
              else [])
           (tail (pystr.splitlines text)).

(** The entry [(a, b)] that is in force: the last entry for [b] on the last
    line of the atom id [a] (a later entry for the same atom on the same
    line, and a later line with the same atom id, replace what was written
    before). *)
Definition stated (line : string) (b : Z) : option (list string) :=
  datum ← list.last (List.filter (for_id b) (line_entries line)); entry_types datum.
Definition in_force (lines : list string) (a b : Z) : option (list string) :=
  line ← list.last (List.filter (of_id a) lines); stated line b.
Definition written (text : string) (a b : Z) : option (list string) :=
  in_force (tail (pystr.splitlines text)) a b.

(** [bonddict[a][b]], if it is there. *)
Definition record_of (st : adjlist.locals) (a b : Z) : option (list string) :=
  row ← adjlist.bonddict st !! a; row !! b.

(** *** Delocalization paths *)

(** The bond behind [bond] holds one type, whose order is not [limit]. *)
Definition order_is_not (limit : Q) (s : Structure) (bond : nat) : Prop :=
  exists b t, bondObjs s !! bond = Some b /\ Bond.bondType b = Resolved t
              /\ ~ (BondType.order t == limit)%Q.

(** [[atom1, atom2, atom3, bond12, bond23]]: [bond12] joins [atom1] to its
    neighbour [atom2] and is not at the maximum order 3; [bond23] joins
    [atom2] to its neighbour [atom3], which is not [atom1], and is not at the
    minimum order 1. *)
Definition delocalization_path (s : Structure) (atom1 : nat) (p : path) : Prop :=
  let '(a1, atom2, atom3, bond12, bond23) := p in
  a1 = atom1
  /\ (exists adj1, getBonds s atom1 = Ok adj1 /\ (atom2, bond12) ∈ adj1)
  /\ order_is_not 3 s bond12
  /\ (exists adj2, getBonds s atom2 = Ok adj2 /\ (atom3, bond23) ∈ adj2)
  /\ atom3 <> atom1
  /\ order_is_not 1 s bond23.

(** Every neighbour recorded in the graph is a vertex, and every bond
    recorded in it is an object that holds one type. *)
Definition resolved_entry (s : Structure) (e : nat * nat) : bool :=
  dict.has e.1 (graph s)
  && match bondObjs s !! e.2 with
     | Some b => match Bond.bondType b with Resolved _ => true | Ambiguous _ => false end
     | None => false
     end.
Definition resolved_graph (s : Structure) : bool :=
  forallb (fun va => forallb (resolved_entry s) va.2) (graph s).

(** *** Resonance: what is restored *)

(** Modelled from the spec: what the order-changing methods of the absent
    [chem] module do when they do not fail: "decrement atom1's free-electron
    count, increment atom3's, increase bond12's order, decrease bond23's
    order", one unit each. *)
Record lawful (R : Registry) : Prop := {
  increaseFreeElectron_order : forall e e',
    increaseFreeElectron e = Ok e' -> ElectronState.order e' = ElectronState.order e + 1;
  decreaseFreeElectron_order : forall e e',
    decreaseFreeElectron e = Ok e' -> ElectronState.order e' = ElectronState.order e - 1;
  increaseOrder_order : forall t t',
    increaseOrder t = Ok t' -> (BondType.order t' == BondType.order t + 1)%Q;
  decreaseOrder_order : forall t t',
    decreaseOrder t = Ok t' -> (BondType.order t' == BondType.order t - 1)%Q
}.

(** The same electrons: the same candidates, or one state each of the same
    radical order. *)
Definition same_electrons (x y : attr ElectronState.t) : Prop :=
  match x, y with
  | Resolved e, Resolved e' => ElectronState.order e' = ElectronState.order e
  | _, _ => y = x
  end.

(** The same atom but for the spelling of its electron state. *)
Definition same_atom (a a' : Atom.t) : Prop :=
  Atom.atomType a' = Atom.atomType a /\ Atom.charge a' = Atom.charge a
  /\ Atom.label a' = Atom.label a
  /\ same_electrons (Atom.electronState a) (Atom.electronState a').

(** The same graph over the same bonds and the same atoms. *)
Definition unchanged (s s' : Structure) : Prop :=
  graph s' = graph s /\ bondObjs s' = bondObjs s
  /\ Forall2 same_atom (atomObjs s) (atomObjs s').

(** Twice the order of a bond type, an integer. *)
Definition order2 (t : BondType.t) : Z :=
  match t with
  | BondType.Single => 2
  | BondType.Double => 4
  | BondType.Triple => 6
  | BondType.Benzene => 3
  end.

(** An attribute whose measure has moved by [d] (an ambiguity set does not
    move). *)
Definition shifted_attr {A} (measure : A -> Z) (d : Z) (x y : attr A) : Prop :=
  match x, y with
  | Resolved a, Resolved a' => measure a' = measure a + d
  | _, _ => y = x /\ d = 0
  end.

Definition shifted_atom (d : Z) (a a' : Atom.t) : Prop :=
  Atom.atomType a' = Atom.atomType a /\ Atom.charge a' = Atom.charge a
  /\ Atom.label a' = Atom.label a
  /\ shifted_attr ElectronState.order d (Atom.electronState a) (Atom.electronState a').

Definition shifted_bond (d : Z) (b b' : Bond.t) : Prop :=
  Bond.atoms b' = Bond.atoms b
  /\ shifted_attr order2 d (Bond.bondType b) (Bond.bondType b').

(** [s'] is [s] with the radical order of atom [i] moved by [da i] and twice
    the order of bond [j] moved by [db j]. *)
Definition shifted (da db : nat -> Z) (s s' : Structure) : Prop :=
  graph s' = graph s
  /\ length (atomObjs s') = length (atomObjs s)
  /\ length (bondObjs s') = length (bondObjs s)
  /\ (forall i a a', atomObjs s !! i = Some a -> atomObjs s' !! i = Some a' ->
        shifted_atom (da i) a a')
  /\ (forall j b b', bondObjs s !! j = Some b -> bondObjs s' !! j = Some b' ->
        shifted_bond (db j) b b').

(** One more move, by [k], of the object [i]; and no move at all. *)
Definition bump (i : nat) (k : Z) (d : nat -> Z) : nat -> Z :=
  fun j => if Nat.eqb j i then d j + k else d j.
Definition still : nat -> Z := fun _ => 0.

(** *** Atom types: what one turn of the loop finds and does *)

(** What [updateAtomTypes] finds out about one atom before it acts: nothing
    for an atom it skips, else the label and element symbol of the specified
    type and the suggested type. *)
Inductive finding : Type :=
| Skipped
| Found (label symbol atomType : string).

Definition examine (s : Structure) (atom1 : nat) : result finding :=
  a1 ← atomObj s atom1;
  match Atom.atomType a1 with
  | Ambiguous _ => Ok Skipped
  | Resolved ty =>
      if String.eqb (AtomType.label ty) "R" || String.eqb (AtomType.label ty) "R!H"
      then Ok Skipped
      else
        c ← (adj ← getBonds s atom1; foldM (count_step s a1) no_counts adj);
        let symbol := Element.symbol (AtomType.element ty) in
        Ok (Found (AtomType.label ty) symbol (suggest symbol c))
  end.

(** [atom1.atomType = ty]. *)
Definition retype (s : Structure) (atom1 : nat) (ty : AtomType.t) : Structure :=
  match atomObjs s !! atom1 with
  | Some a1 => set_atom s atom1 (Atom.set_atomType a1 ty)
  | None => s
  end.

(** The labels that [updateAtomTypes] can suggest besides the element
    itself, each with the element it is a type of. *)
Definition subtypes : list (string * string) :=
  [("Ct", "C"); ("Cs", "C"); ("Cdd", "C"); ("CO", "C"); ("Cds", "C"); ("Cd", "C");
   ("Cb", "C"); ("Cbf", "C"); ("Os", "O"); ("Od", "O")].

(** [chem.atomTypes] keeps its word on these labels: where it has one of
    them, the type it gives carries that label and is of that element. *)
Definition typed `{R : Registry} : bool :=
  forallb (fun ls : string * string =>
             match atomTypes ls.1 with
             | Some ty => String.eqb (AtomType.label ty) ls.1
                          && String.eqb (Element.symbol (AtomType.element ty)) ls.2
             | None => true
             end) subtypes.

(** Whether the atom behind [i] is an oxygen. *)
Definition oxygen (s : Structure) (i : nat) : result bool :=
  a ← atomObj s i; Atom.isOxygen a.

(** [s'] is [s] but for the type of atom [y], and no atom has become or
    ceased to be an oxygen. *)
Definition retyped (y : nat) (s s' : Structure) : Prop :=
  graph s' = graph s /\ bondObjs s' = bondObjs s
  /\ (forall i, oxygen s' i = oxygen s i)
  /\ (forall i, i <> y -> atomObjs s' !! i = atomObjs s !! i).

(** Nothing is left to change for the atom [x]. *)
Definition settled (s : Structure) (x : nat) : Prop :=
  match examine s x with
  | Ok Skipped => True
  | Ok (Found label symbol atomType) => reconcile label symbol atomType <> Change
  | Raise _ => False
  end.

(** *** Labels and centers *)

(** Every atom of [atoms()] is an object of the arena. *)
Definition live (s : Structure) : Prop :=
  Forall (fun atom => is_Some (atomObjs s !! atom)) (atoms s).

Definition liveb (s : Structure) : bool :=
  forallb (fun atom => match atomObjs s !! atom with Some _ => true | None => false end)
          (atoms s).

(** The atom behind [atom] is a center and carries [label]. *)
Definition center_of (isCenter : Atom.t -> bool) (s : Structure) (label : string)
    (atom : nat) : Prop :=
  exists a, atomObjs s !! atom = Some a /\ isCenter a = true /\ Atom.label a = label.

(** *** Atom types: what may change *)

(** The type is one of the generic 'R' and 'R!H'. *)
Definition generic_type (ty : AtomType.t) : bool :=
  String.eqb (AtomType.label ty) "R" || String.eqb (AtomType.label ty) "R!H".

(** The specified type is not generic and is the bare element, or 'Cd'. *)
Definition bare_or_Cd (ty : AtomType.t) : Prop :=
  generic_type ty = false
  /\ (AtomType.label ty = Element.symbol (AtomType.element ty)
      \/ AtomType.label ty = "Cd").

(** [a'] is [a] but, at most, for a new type in place of a bare or 'Cd'
    type. *)
Definition refined (a a' : Atom.t) : Prop :=
  Atom.electronState a' = Atom.electronState a /\ Atom.charge a' = Atom.charge a
  /\ Atom.label a' = Atom.label a
  /\ (Atom.atomType a' = Atom.atomType a
      \/ exists ty ty', Atom.atomType a = Resolved ty /\ Atom.atomType a' = Resolved ty'
                        /\ bare_or_Cd ty).

(** [a'] is [a] with its type reset to that of its element ([reset]: the
    atom is one that [simplifyAtomTypes] visits). *)
Definition simplified `{R : Registry} (reset : bool) (a a' : Atom.t) : Prop :=
  Atom.electronState a' = Atom.electronState a /\ Atom.charge a' = Atom.charge a
  /\ Atom.label a' = Atom.label a
  /\ match Atom.atomType a with
     | Resolved ty =>
         if reset && negb (generic_type ty)
         then exists ty', atomTypes (Element.symbol (AtomType.element ty)) = Some ty'
                          /\ Atom.atomType a' = Resolved ty'
         else Atom.atomType a' = Atom.atomType a
     | Ambiguous _ => Atom.atomType a' = Atom.atomType a
     end.

(** [a'] is of the element of [a]: a list of candidate types is the same
    list, one type is a type of the same element. *)
Definition same_element (a a' : Atom.t) : Prop :=
  match Atom.atomType a, Atom.atomType a' with
  | Resolved ty, Resolved ty' =>
      Element.symbol (AtomType.element ty') = Element.symbol (AtomType.element ty)
  | x, y => y = x
  end.

(** *** Structures as [initialize] builds them *)

(** The atoms of the structure are all the atom objects, in order, and every
    entry of the graph names one of them and a bond object. *)
Definition wired (s : Structure) : Prop :=
  atoms s = seq 0 (length (atomObjs s))
  /\ forall v adj, dict.get v (graph s) = Some adj ->
       Forall (fun e : nat * nat => (e.1 < length (atomObjs s))%nat
                                    /\ (e.2 < length (bondObjs s))%nat) adj.

(** The bond that the graph records from the atom [x] to the atom [y], if
    any. *)
Definition edge_between (s : Structure) (x y : nat) : option nat :=
  adj ← dict.get x (graph s); dict.get y adj.

(** The bond joins the atoms [x] and [y], whichever it names first. *)
Definition joins (b : Bond.t) (x y : nat) : bool :=
  Nat.eqb x (Bond.atoms b).1 && Nat.eqb y (Bond.atoms b).2
  || Nat.eqb x (Bond.atoms b).2 && Nat.eqb y (Bond.atoms b).1.

(** The graph holds the bonds: an edge between two atoms is one of the bond
    objects and joins them, and each bond object gives an edge between the
    atoms it joins. *)
Definition bonded (s : Structure) : Prop :=
  (forall x y j, edge_between s x y = Some j ->
     exists b, bondObjs s !! j = Some b /\ joins b x y = true)
  /\ (forall b x y, b ∈ bondObjs s -> joins b x y = true -> is_Some (edge_between s x y)).

(** An attribute that holds one value, or a list of candidates that is not
    empty. *)
Definition chosen {A} (x : attr A) : Prop := x <> Ambiguous [].

(** The line holds nothing but blanks: [len(line.split()) == 0]. *)
Definition blank (line : string) : bool := Nat.eqb (length (pystr.split line)) 0.

(** The local lists of the parser hold no attribute with an empty list of
    candidates. *)
Definition presentable (atoms0 : list Atom.t) (bonds0 : list Bond.t) : Prop :=
  Forall (fun a => chosen (Atom.atomType a) /\ chosen (Atom.electronState a)) atoms0
  /\ Forall (fun b => chosen (Bond.bondType b)) bonds0.

(** The line has an atom id but not both an element and an electron state:
    it holds one or two items, or three of which the second is a center
    label. *)
Definition short_line (line : string) : bool :=
  match pystr.split line with
  | [_] | [_; _] => true
  | [_; String c _; _] => Ascii.eqb c "*"
  | _ => false
  end.

(** *** Copies and isomers *)

(** [b'] is the copy of the bond behind [bond]: the same type, between the
    positions in [atoms()] of the two atoms that the bond joins. *)
Definition copied_bond (s : Structure) (bond : nat) (b' : Bond.t) : Prop :=
  exists b, bondObjs s !! bond = Some b
            /\ Bond.bondType b' = Bond.bondType b
            /\ atoms s !! (Bond.atoms b').1 = Some (Bond.atoms b).1
            /\ atoms s !! (Bond.atoms b').2 = Some (Bond.atoms b).2.

(** The moves of one allyl shift along a path: a free electron from [atom1]
    to [atom3], an order from [bond23] to [bond12] (in half orders). *)
Definition shift_atoms (p : path) : nat -> Z :=
  let '(atom1, atom2, atom3, bond12, bond23) := p in bump atom3 1 (bump atom1 (-1) still).
Definition shift_bonds (p : path) : nat -> Z :=
  let '(atom1, atom2, atom3, bond12, bond23) := p in bump bond23 (-2) (bump bond12 2 still).

(** [isomer] is a copy of [s] with the shift along [p] applied. *)
Definition isomer_of (s : Structure) (p : path) (isomer : Structure) : Prop :=
  exists s1, shifted (shift_atoms p) (shift_bonds p) s s1 /\ copy s1 = Ok isomer.

(** Every neighbour recorded in the graph is a vertex. *)
Definition linked (s : Structure) : Prop :=
  forall v adj, dict.get v (graph s) = Some adj -> Forall (fun e : nat * nat => e.1 ∈ atoms s) adj.

Definition linkedb (s : Structure) : bool :=
  forallb (fun va : nat * list (nat * nat) =>
             forallb (fun e : nat * nat => existsb (Nat.eqb e.1) (atoms s)) va.2)
          (graph s).

(** *** The drawing of [toDOT] *)

#[global] Instance BondType_eq_dec : EqDecision BondType.t.
Proof. solve_decision. Defined.




(** The labels that have a color. *)
Definition color_labels : list string := ["*"; "*1"; "*2"; "*3"; "*4"; "*5"; "*6"].

(** The vertex of the atom can be drawn: it has a type, and no label or one
    that has a color. *)
Definition drawable (s : Structure) (atom : nat) : Prop :=
  exists a, atomObjs s !! atom = Some a
            /\ candidates_of (Atom.atomType a) <> []
            /\ (Atom.label a = "" \/ Atom.label a ∈ color_labels).

Definition drawableb (s : Structure) (atom : nat) : bool :=
  match atomObjs s !! atom with
  | Some a =>
      match candidates_of (Atom.atomType a) with
      | [] => false
      | _ :: _ => String.eqb (Atom.label a) "" || existsb (String.eqb (Atom.label a)) color_labels
      end
  | None => false
  end.

(** *** Further example inputs *)

(** The ethane of [ethane_text] with blank lines in between. *)
Definition spaced_text := lines ["C1"; "1 C 0 {2,S}"; "   "; ""; "2 C 0 {1,S}"].

(** A center test for the examples: the atom carries a label. *)
Definition starred (a : Atom.t) : bool := negb (String.eqb (Atom.label a) "").

(** The copy of a Structure that can be copied. *)
Definition the_copy (s : Structure) : Structure :=
  match copy s with
  | Ok s' => s'
  | Raise _ => s
  end.

(** Two ranges that meet at 1000 K, on integer temperatures. *)
Definition low_poly : thermo.NASAPolynomial :=
  {| thermo.range := {| thermo.Tmin := 300; thermo.Tmax := 1000; thermo.comment := "low" |};
     thermo.c0 := 1; thermo.c1 := 0; thermo.c2 := 0; thermo.c3 := 0; thermo.c4 := 0;
     thermo.c5 := 0; thermo.c6 := 0 |}.
Definition high_poly : thermo.NASAPolynomial :=
  {| thermo.range := {| thermo.Tmin := 1000; thermo.Tmax := 3000; thermo.comment := "high" |};
     thermo.c0 := 2; thermo.c1 := 0; thermo.c2 := 0; thermo.c3 := 0; thermo.c4 := 0;
     thermo.c5 := 0; thermo.c6 := 0 |}.
Definition two_ranges : thermo.NASAModel :=
  {| thermo.model := {| thermo.Tmin := 0; thermo.Tmax := 5000; thermo.comment := "" |};
     thermo.polynomials := [low_poly; high_poly] |}.

(** An atom with a label that has no color. *)
Definition seventh_text := lines ["L"; "1 *1 C 0 {2,S}"; "2 *7 C 0 {1,S}"].

(** An atom line without an electron state. *)
Definition short_text := lines ["L"; "1 C 0"; "2 C"].

(** ** The string methods on examples *)

Example splitlines_ex :
  pystr.splitlines ("C1" +:+ String (pystr.chr 10) "1 C 0" +:+ String (pystr.chr 10) "")
  = ["C1"; "1 C 0"].
Proof. reflexivity. Qed.

Example splitlines_empty : pystr.splitlines "" = [].
Proof. reflexivity. Qed.

Example split_ex : pystr.split "1.  *1 C  0 {2,S} " = ["1."; "*1"; "C"; "0"; "{2,S}"].
Proof. reflexivity. Qed.

Example int_ex : pystr.int (pystr.strip "." "12.") = Ok 12 /\ pystr.int "" = Raise ValueError
  /\ pystr.int "-3" = Ok (-3) /\ pystr.int "1a" = Raise ValueError.
Proof. repeat split; reflexivity. Qed.

Example str_ex : pystr.str 0 = "0" /\ pystr.str 12 = "12" /\ pystr.str 305 = "305".
Proof. repeat split; reflexivity. Qed.

Example slice_ex : pystr.slice_1_m1 "{2,S}" = "2,S" /\ pystr.slice_1_m1 "{" = ""
  /\ pystr.partition "," "2,{S,D}" = ("2", ",", "{S,D}")
  /\ pystr.split_sep "," "S,D" = ["S"; "D"] /\ pystr.split_sep "," "" = [""].
Proof. repeat split; reflexivity. Qed.

(** ** General facts about the loops *)

Lemma bind_Ok {A B} (m : result A) (f : A -> result B) (b : B) :
  (m ≫= f) = Ok b -> exists a, m = Ok a /\ f a = Ok b.
Proof. destruct m as [a|e]; simpl; [eauto | discriminate]. Qed.

Lemma or_raise_Ok {A} (e : exn) (o : option A) (a : A) :
  or_raise e o = Ok a -> o = Some a.
Proof. destruct o; simpl; congruence. Qed.

(** An invariant of the loop body is an invariant of the loop. *)
Lemma foldM_invariant {A S} (P : S -> Prop) (f : S -> A -> result S) (l : list A) :
  (forall s x s', x ∈ l -> P s -> f s x = Ok s' -> P s') ->
  forall s s', P s -> foldM f s l = Ok s' -> P s'.
Proof.
  induction l as [|x l IH]; intros Hf s s' Hs; simpl.
  - intros [= <-]. exact Hs.
  - intros Hb. apply bind_Ok in Hb as (s1 & H1 & H2).
    eapply IH; [ | | exact H2 ].
    + intros ? ? ? Hin. apply Hf. by right.
    + eapply Hf; [by left | exact Hs | exact H1].
Qed.

Lemma forS_invariant {A S} (P : S -> Prop) (body : A -> S -> result unit * S) (l : list A) :
  (forall x s s', x ∈ l -> P s -> body x s = (Ok (), s') -> P s') ->
  forall s s', P s -> forS body l s = (Ok (), s') -> P s'.
Proof.
  induction l as [|x l IH]; intros Hb s s' Hs; simpl.
  - intros [= <-]. exact Hs.
  - destruct (body x s) as [[[]|e] s1] eqn:E; [ | discriminate ].
    intros Hl. eapply IH; [ | | exact Hl ].
    + intros ? ? ? Hin. apply Hb. by right.
    + eapply Hb; [by left | exact Hs | exact E].
Qed.

(** ** C10: [getLabeledAtom] *)

Lemma firstLabeled_none (s : Structure) (label : string) (l : list nat) :
  Forall (other_label s label) l -> firstLabeled s label l = Ok None.
Proof.
  induction 1 as [|atom l (a & Ha & Hne) _ IH]; simpl; [reflexivity|].
  unfold atomObj. rewrite Ha. simpl.
  destruct (String.eqb_spec (Atom.label a) label); [contradiction | exact IH].
Qed.

Lemma firstLabeled_first (s : Structure) (label : string) (pre post : list nat)
    (atom : nat) (a : Atom.t) :
  Forall (other_label s label) pre ->
  atomObjs s !! atom = Some a -> Atom.label a = label ->
  firstLabeled s label (pre ++ atom :: post) = Ok (Some atom).
Proof.
  intros Hpre Ha Hl.
  induction Hpre as [|atom' l (a' & Ha' & Hne) _ IH]; simpl.
  - unfold atomObj. rewrite Ha. simpl. rewrite <- Hl, String.eqb_refl. reflexivity.
  - unfold atomObj. rewrite Ha'. simpl.
    destruct (String.eqb_spec (Atom.label a') label); [contradiction | exact IH].
Qed.

(** C10.  For every label, [getLabeledAtom(label)] returns [None] when no
    atom of [atoms()] carries that label; and when [atoms()] is
    [pre ++ atom :: post] where no atom of [pre] carries the label and [atom]
    does, it returns [atom]: the first match in iteration order wins, whatever
    the labels of the atoms after it. *)
Theorem getLabeledAtom_first_match (s : Structure) (label : string) :
  (Forall (other_label s label) (atoms s) -> getLabeledAtom s label = Ok None)
  /\ (forall pre atom post a,
        atoms s = pre ++ atom :: post ->
        Forall (other_label s label) pre ->
        atomObjs s !! atom = Some a -> Atom.label a = label ->
        getLabeledAtom s label = Ok (Some atom)).
Proof.
  unfold getLabeledAtom. split.
  - apply firstLabeled_none.
  - intros pre atom post a -> Hpre Ha Hl. eapply firstLabeled_first; eauto.
Qed.

(** ** C9: no radical, no isomer *)

(** [getRadicalCount] is the sum of the radical orders of the atoms. *)
Lemma getRadicalCount_from (s : Structure) (l : list nat) (orders : list Z) (acc : Z) :
  Forall2 (radical_order s) l orders ->
  foldM (fun radical atom => a ← atomObj s atom; n ← Atom.order a; Ok (radical + n)) acc l
  = Ok (acc + foldr Z.add 0 orders).
Proof.
  intros H. revert acc. induction H as [|atom n l orders (a & Ha & Hn) _ IH]; intros acc.
  - simpl. f_equal. lia.
  - cbn [foldM foldr]. unfold atomObj. rewrite Ha. simpl. rewrite Hn. simpl.
    rewrite IH. f_equal. lia.
Qed.

Lemma getRadicalCount_sum (s : Structure) (orders : list Z) :
  Forall2 (radical_order s) (atoms s) orders ->
  getRadicalCount s = Ok (foldr Z.add 0 orders).
Proof. intros H. unfold getRadicalCount. by rewrite (getRadicalCount_from _ _ _ _ H). Qed.

(** C9.  For every Structure whose total radical count, the sum over all
    its atoms of [atom.electronState.order], is zero, [getRadicalCount()] is
    0 and [getAdjacentResonanceIsomers()] returns the empty list (and leaves
    the Structure as it is). *)
Theorem radical_free_no_isomers `{R : Registry} (s : Structure) (orders : list Z) :
  Forall2 (radical_order s) (atoms s) orders ->
  foldr Z.add 0 orders = 0 ->
  getRadicalCount s = Ok 0
  /\ getAdjacentResonanceIsomers s = (Ok [], s).
Proof.
  intros H H0. apply getRadicalCount_sum in H. rewrite H0 in H.
  split; [exact H|]. unfold getAdjacentResonanceIsomers. rewrite H. reflexivity.
Qed.

(** ** The graph built by [initialize] *)

Lemma dict_has_app {V} (k k' : nat) (v : V) (d : list (nat * V)) :
  dict.has k (d ++ [(k', v)]) = dict.has k d || Nat.eqb k' k.
Proof.
  unfold dict.has. induction d as [|[k0 v0] d IH]; simpl.
  - destruct (Nat.eqb k' k); reflexivity.
  - destruct (Nat.eqb k0 k); [reflexivity | exact IH].
Qed.

Lemma dict_has_set {V} (k k' : nat) (v : V) (d : list (nat * V)) :
  dict.has k (dict.set k' v d) = dict.has k d || Nat.eqb k' k.
Proof.
  unfold dict.has. induction d as [|[k0 v0] d IH]; simpl.
  - destruct (Nat.eqb k' k); reflexivity.
  - destruct (Nat.eqb k0 k') eqn:E0; simpl.
    + apply Nat.eqb_eq in E0. subst k0.
      destruct (Nat.eqb k' k); simpl; [reflexivity|].
      destruct (dict.get k d); reflexivity.
    + destruct (Nat.eqb k0 k); [reflexivity | exact IH].
Qed.

Lemma dict_has_get {V} (k : nat) (d : list (nat * V)) :
  dict.has k d = true -> exists v, dict.get k d = Some v.
Proof. unfold dict.has. destruct (dict.get k d); [eauto | discriminate]. Qed.

Lemma addAtoms_Ok (m k : nat) (s : Structure) :
  (forall v, dict.has v (graph s) = (v <? k)%nat) ->
  exists s', forS addAtom (seq k m) s = (Ok (), s')
             /\ bondObjs s' = bondObjs s /\ atomObjs s' = atomObjs s
             /\ forall v, dict.has v (graph s') = (v <? k + m)%nat.
Proof.
  revert k s. induction m as [|m IH]; intros k s Hk; simpl.
  - exists s. rewrite Nat.add_0_r. auto.
  - unfold addAtom at 1, graph.addVertex. rewrite Hk, Nat.ltb_irrefl.
    destruct (IH (S k) (set_graph s (graph s ++ [(k, [])]))) as (s' & E & Hb & Ha & Hv).
    + intros v. simpl. rewrite dict_has_app, Hk.
      destruct (Nat.ltb_spec v k), (Nat.eqb_spec k v), (Nat.ltb_spec v (S k));
        simpl; try reflexivity; lia.
    + exists s'. rewrite E. repeat split; try assumption.
      intros v. rewrite Hv. f_equal. lia.
Qed.

Lemma addEdge_Ok (g : graph.Graph) (v1 v2 e : nat) :
  dict.has v1 g = true -> dict.has v2 g = true ->
  exists g', graph.addEdge g v1 v2 e = Ok g'
             /\ forall v, dict.has v g = true -> dict.has v g' = true.
Proof.
  intros H1 H2. unfold graph.addEdge.
  destruct (dict_has_get _ _ H1) as (a1 & ->), (dict_has_get _ _ H2) as (a2 & ->).
  eexists. split; [reflexivity|].
  intros v Hv. rewrite !dict_has_set, Hv. reflexivity.
Qed.

Lemma addBonds_Ok (n : nat) (js : list nat) (s : Structure) :
  Forall (bounded n) (bondObjs s) ->
  Forall (fun j => (j < length (bondObjs s))%nat) js ->
  (forall v, (v < n)%nat -> dict.has v (graph s) = true) ->
  exists s', forS addBond js s = (Ok (), s').
Proof.
  intros Hb Hjs. revert s Hb Hjs.
  induction js as [|j js IH]; intros s Hb Hjs Hv; simpl; [eauto|].
  pose proof (Forall_inv Hjs) as Hj. apply Forall_inv_tail in Hjs.
  destruct (lookup_lt_is_Some_2 _ _ Hj) as [b Eb].
  assert (Hbj : bounded n b) by (eapply Forall_lookup_1; eauto).
  destruct Hbj as [B1 B2].
  destruct (addEdge_Ok (graph s) (Bond.atoms b).1 (Bond.atoms b).2 j)
    as (g' & Eg & Hg'); [auto | auto |].
  unfold addBond at 1, bondObj. rewrite Eb. simpl. rewrite Eg.
  apply IH; simpl; auto.
Qed.

(** [initialize] never raises when every bond joins two of the atoms. *)
Lemma initialize_Ok (atoms : list Atom.t) (bonds : list Bond.t) :
  Forall (bounded (length atoms)) bonds ->
  exists s, initialize atoms bonds = (Ok (), s).
Proof.
  intros Hb. unfold initialize.
  destruct (addAtoms_Ok (length atoms) 0
              {| atomObjs := atoms; bondObjs := bonds; graph := [] |})
    as (s1 & E & Hbo & _ & Hv).
  { intros v. simpl. symmetry. apply Nat.ltb_ge. lia. }
  rewrite E. simpl in Hbo.
  apply (addBonds_Ok (length atoms)).
  - rewrite Hbo. exact Hb.
  - rewrite Hbo. apply List.Forall_forall. intros j Hj.
    apply in_seq in Hj. lia.
  - intros v Hlt. rewrite Hv. apply Nat.ltb_lt. lia.
Qed.

(** ** What the [try] block of [fromAdjacencyList] builds *)

Lemma Bond_new_atoms `{R : Registry} (p : nat * nat) (types : list string) (b : Bond.t) :
  Bond.new p types = Ok b -> Bond.atoms b = p.
Proof.
  unfold Bond.new. intros H. apply bind_Ok in H as (ts & _ & [= <-]). reflexivity.
Qed.

Lemma bond_entry_closed `{R : Registry} (aid : Z) (st st' : adjlist.locals) (datum : string) :
  closed st -> adjlist.bond_entry aid st datum = Ok st' -> closed st'.
Proof.
  intros [Hd Hb]. unfold adjlist.bond_entry.
  destruct (pystr.partition _ _) as [[aid2s c] btype].
  intros H. apply bind_Ok in H as (aid2 & _ & H).
  apply bind_Ok in H as (bt & _ & H).
  apply bind_Ok in H as (st1 & H1 & H).
  apply bind_Ok in H as (row & _ & [= <-]). simpl.
  assert (Hc : closed st1).
  { destruct (adjlist.atomdict st !! aid2) as [atom2|] eqn:E2.
    - apply bind_Ok in H1 as (atom1 & E1 & H1). apply or_raise_Ok in E1.
      apply bind_Ok in H1 as (bond & Hn & [= <-]).
      split; simpl; [exact Hd|].
      apply Forall_app. split; [exact Hb|]. apply Forall_singleton.
      unfold bounded. rewrite (Bond_new_atoms _ _ _ Hn). simpl. eauto.
    - injection H1 as <-. split; assumption. }
  exact Hc.
Qed.

Lemma atom_line_closed `{R : Registry} (st st' : adjlist.locals) (line : string) :
  closed st -> adjlist.atom_line st line = Ok st' -> closed st'.
Proof.
  intros [Hd Hb]. unfold adjlist.atom_line.
  destruct (Nat.eqb _ 0); [intros [= <-]; split; assumption|].
  intros H. apply bind_Ok in H as (d0 & _ & H).
  apply bind_Ok in H as (aid & _ & H).
  apply bind_Ok in H as (d1 & _ & H).
  apply bind_Ok in H as (c & _ & H).
  destruct (if Ascii.eqb c "*" then _ else _) as [center idx].
  apply bind_Ok in H as (el & _ & H).
  apply bind_Ok in H as (els & _ & H).
  apply bind_Ok in H as (es & _ & H).
  apply bind_Ok in H as (ess & _ & H).
  apply bind_Ok in H as (atom & _ & H).
  revert H. apply foldM_invariant.
  - intros s x s' _. apply bond_entry_closed.
  - split; simpl.
    + intros id h. rewrite length_app. simpl.
      rewrite lookup_insert. case_decide.
      * intros [= <-]. lia.
      * intros Hh. apply Hd in Hh. lia.
    + rewrite length_app. simpl.
      eapply List.Forall_impl; [|exact Hb]. unfold bounded. intros b [? ?]. lia.
Qed.

Lemma try_block_closed `{R : Registry} (text : string) (label : option string)
    (st : adjlist.locals) :
  adjlist.try_block text = (label, Ok st) -> closed st.
Proof.
  unfold adjlist.try_block. destruct (pystr.splitlines text) as [|l ls]; [discriminate|].
  intros [= _ H]. revert H. apply foldM_invariant.
  - intros s x s' _. apply atom_line_closed.
  - split; simpl; [intros id h; rewrite lookup_empty; discriminate | constructor].
Qed.

(** The consistency check raises nothing but the invalid-adjacency-list
    error. *)
Lemma check_row_Raise (label : option string) (bd : gmap Z (gmap Z (list string)))
    (a : Z) (l : list (Z * list string)) (u : unit) (e : exn) :
  foldM (adjlist.check_entry label bd a) u l = Raise e -> e = adjlist.invalid label.
Proof.
  revert u. induction l as [|[b t] l IH]; intros u; simpl; [discriminate|].
  destruct (bd !! b) as [row2|]; simpl; [|congruence].
  destruct (row2 !! a) as [t'|]; simpl; [|congruence].
  case_bool_decide; simpl; [apply IH | congruence].
Qed.

Lemma check_rows_Raise (label : option string) (bd : gmap Z (gmap Z (list string)))
    (rows : list (Z * gmap Z (list string))) (u : unit) (e : exn) :
  foldM (fun _ r => foldM (adjlist.check_entry label bd r.1) () (map_to_list r.2)) u rows
  = Raise e -> e = adjlist.invalid label.
Proof.
  revert u. induction rows as [|r rows IH]; intros u; simpl; [discriminate|].
  destruct (foldM (adjlist.check_entry label bd r.1) () (map_to_list r.2)) as [[]|e'] eqn:E;
    simpl.
  - apply IH.
  - intros [= <-]. eapply check_row_Raise, E.
Qed.

Lemma check_Raise (label : option string) (bd : gmap Z (gmap Z (list string))) (e : exn) :
  adjlist.check label bd = Raise e -> e = adjlist.invalid label.
Proof. apply check_rows_Raise. Qed.

(** When the check passes, every recorded entry has its mirror, with the
    same list of bond-type labels. *)
Lemma check_row_Ok (label : option string) (bd : gmap Z (gmap Z (list string)))
    (a b : Z) (t : list string) (l : list (Z * list string)) (u : unit) :
  foldM (adjlist.check_entry label bd a) u l = Ok () ->
  (b, t) ∈ l -> exists row', bd !! b = Some row' /\ row' !! a = Some t.
Proof.
  revert u. induction l as [|[b0 t0] l IH]; intros u Hf Hel.
  - by apply elem_of_nil in Hel.
  - simpl in Hf. apply bind_Ok in Hf as ([] & H0 & Hf).
    apply elem_of_cons in Hel as [[= <- <-]|Hel]; [|eapply IH; eassumption].
    unfold adjlist.check_entry in H0.
    destruct (bd !! b) as [row2|] eqn:E2; [|discriminate].
    destruct (row2 !! a) as [t'|] eqn:E1; [|discriminate].
    case_bool_decide; [subst; eauto | discriminate].
Qed.

Lemma check_rows_Ok (label : option string) (bd : gmap Z (gmap Z (list string)))
    (a b : Z) (row : gmap Z (list string)) (t : list string)
    (rows : list (Z * gmap Z (list string))) (u : unit) :
  foldM (fun _ r => foldM (adjlist.check_entry label bd r.1) () (map_to_list r.2)) u rows
  = Ok () ->
  (a, row) ∈ rows -> (b, t) ∈ map_to_list row ->
  exists row', bd !! b = Some row' /\ row' !! a = Some t.
Proof.
  revert u. induction rows as [|r rows IH]; intros u Hc Hel Hb.
  - by apply elem_of_nil in Hel.
  - simpl in Hc. apply bind_Ok in Hc as ([] & H0 & Hc).
    apply elem_of_cons in Hel as [<-|Hel]; [|eapply IH; eassumption].
    simpl in H0. eapply check_row_Ok; eassumption.
Qed.

Lemma check_Ok (label : option string) (bd : gmap Z (gmap Z (list string)))
    (a b : Z) (row : gmap Z (list string)) (t : list string) :
  adjlist.check label bd = Ok () ->
  bd !! a = Some row -> row !! b = Some t ->
  exists row', bd !! b = Some row' /\ row' !! a = Some t.
Proof.
  intros Hc Ha Hb. apply elem_of_map_to_list in Ha, Hb.
  eapply check_rows_Ok; eauto.
Qed.

(** How [fromAdjacencyList] ends, from how its [try] block ends. *)
Lemma fromAdjacencyList_outcome `{R : Registry} (text : string) (self : Structure) :
  match adjlist.try_block text with
  | (label, Raise _) =>
      fromAdjacencyList text self = (Raise (adjlist.invalid label), self)
  | (label, Ok st) =>
      match adjlist.check label (adjlist.bonddict st) with
      | Raise _ => fromAdjacencyList text self = (Raise (adjlist.invalid label), self)
      | Ok _ => exists s, fromAdjacencyList text self = (Ok (), s)
      end
  end.
Proof.
  unfold fromAdjacencyList.
  destruct (adjlist.try_block text) as [label [st|e]] eqn:E; [|reflexivity].
  destruct (adjlist.check label (adjlist.bonddict st)) as [[]|e] eqn:Ec.
  - apply initialize_Ok. apply try_block_closed in E. apply E.
  - apply check_Raise in Ec. subst e. reflexivity.
Qed.

(** ** C6: parsing is all or nothing *)

(** C6.  [fromAdjacencyList] is atomic.  When it raises, the Structure it
    was called on is as before the call.  When it returns, the [try] block
    and the mirror check have both run to their end, and the Structure is the
    one [initialize] builds from the complete local lists [atoms] and [bonds]
    (and [initialize] has not raised half-way). *)
Theorem fromAdjacencyList_atomic `{R : Registry} (text : string) (self : Structure) :
  match fromAdjacencyList text self with
  | (Raise _, self') => self' = self
  | (Ok _, self') =>
      exists label st,
        adjlist.try_block text = (label, Ok st)
        /\ adjlist.check label (adjlist.bonddict st) = Ok ()
        /\ initialize (adjlist.atoms st) (adjlist.bonds st) = (Ok (), self')
  end.
Proof.
  pose proof (fromAdjacencyList_outcome text self) as H.
  unfold fromAdjacencyList in *.
  destruct (adjlist.try_block text) as [label [st|e]] eqn:E; [|reflexivity].
  destruct (adjlist.check label (adjlist.bonddict st)) as [[]|e] eqn:Ec; [|reflexivity].
  destruct H as (s & Hs). rewrite Hs. exists label, st. auto.
Qed.

(** ** C5: the mirror invariant *)

(** The check refuses what the [try] block has recorded without its
    mirror. *)
Lemma unmirrored_record_raises `{R : Registry} (text : string) (self : Structure)
    (a b : Z) (btype : list string) :
  recorded text a b btype ->
  (forall btype', recorded text b a btype' -> btype' <> btype) ->
  exists label,
    pystr.splitlines text !! 0%nat = Some label
    /\ fromAdjacencyList text self = (Raise (InvalidAdjacencyListException label), self).
Proof.
  intros (st & row & Est & Ha & Hb) Hmirror.
  pose proof (fromAdjacencyList_outcome text self) as H.
  assert (exists label, adjlist.try_block text = (Some label, Ok st)
                        /\ pystr.splitlines text !! 0%nat = Some label) as (label & E & Hl).
  { unfold adjlist.try_block in *. destruct (pystr.splitlines text) as [|l ls].
    - discriminate.
    - simpl in Est. rewrite Est. eauto. }
  rewrite E in H. exists label. split; [exact Hl|].
  destruct (adjlist.check (Some label) (adjlist.bonddict st)) as [[]|e] eqn:Ec.
  - exfalso. destruct (check_Ok _ _ _ _ _ _ Ec Ha Hb) as (row' & Hb' & Ha').
    apply (Hmirror btype); [|reflexivity].
    exists st, row'. rewrite E. auto.
  - exact H.
Qed.

(** What the [try] block records is what the list says last. *)
Lemma bond_entry_record `{R : Registry} (aid : Z) (st st' : adjlist.locals) (datum : string)
    (row0 : gmap Z (list string)) :
  adjlist.bond_entry aid st datum = Ok st' ->
  adjlist.bonddict st !! aid = Some row0 ->
  exists aid2 btype,
    entry_id datum = Some aid2 /\ entry_types datum = Some btype
    /\ adjlist.bonddict st' = <[aid := <[aid2 := btype]> row0]> (adjlist.bonddict st).
Proof.
  unfold adjlist.bond_entry, entry_id, entry_types, entry_parts.
  destruct (pystr.partition _ _) as [[aid2s comma] btypes]. simpl.
  intros H Hrow. apply bind_Ok in H as (aid2 & Hid & H).
  apply bind_Ok in H as (btype & Hbt & H).
  apply bind_Ok in H as (st1 & H1 & H).
  apply bind_Ok in H as (row & Hr & [= <-]). apply or_raise_Ok in Hr.
  exists aid2, btype. rewrite Hid, Hbt. do 2 (split; [reflexivity|]). simpl.
  assert (Hbd : adjlist.bonddict st1 = adjlist.bonddict st).
  { destruct (adjlist.atomdict st !! aid2).
    - apply bind_Ok in H1 as (atom1 & _ & H1).
      apply bind_Ok in H1 as (bond & _ & [= <-]). reflexivity.
    - injection H1 as <-. reflexivity. }
  rewrite Hbd in *. rewrite Hrow in Hr. injection Hr as <-. reflexivity.
Qed.

Lemma bond_entries_record `{R : Registry} (aid : Z) (data : list string)
    (st st' : adjlist.locals) (row0 : gmap Z (list string)) :
  foldM (adjlist.bond_entry aid) st data = Ok st' ->
  adjlist.bonddict st !! aid = Some row0 ->
  exists row,
    adjlist.bonddict st' = <[aid := row]> (adjlist.bonddict st)
    /\ forall b, row !! b = match list.last (List.filter (for_id b) data) with
                            | Some datum => entry_types datum
                            | None => row0 !! b
                            end.
Proof.
  revert st row0. induction data as [|datum data IH]; intros st row0; cbn [foldM].
  - intros [= <-] Hrow. exists row0. split; [symmetry; apply insert_id, Hrow | reflexivity].
  - intros H Hrow. apply bind_Ok in H as (st1 & H1 & H).
    destruct (bond_entry_record _ _ _ _ _ H1 Hrow) as (aid2 & btype & Hid & Hty & Hbd).
    destruct (IH st1 (<[aid2 := btype]> row0) H) as (row & Hbd' & Hrow').
    { rewrite Hbd. apply lookup_insert_eq. }
    exists row. split; [rewrite Hbd', Hbd; apply insert_insert_eq|].
    intros b. rewrite Hrow'. cbn [List.filter]. unfold for_id at 2. rewrite Hid.
    destruct (decide (aid2 = b)) as [->|Hne].
    + rewrite bool_decide_eq_true_2 by reflexivity. rewrite last_cons.
      destruct (list.last (List.filter (for_id b) data)); [reflexivity|].
      rewrite lookup_insert_eq. symmetry. exact Hty.
    + rewrite bool_decide_eq_false_2 by congruence.
      destruct (list.last (List.filter (for_id b) data)); [reflexivity|].
      apply lookup_insert_ne. exact Hne.
Qed.

Lemma atom_line_record `{R : Registry} (st st' : adjlist.locals) (line : string) (a b : Z) :
  adjlist.atom_line st line = Ok st' ->
  record_of st' a b = if of_id a line then stated line b else record_of st a b.
Proof.
  unfold adjlist.atom_line, of_id, line_id, stated, line_entries, adjlist.item.
  destruct (pystr.split line) as [|d0 data] eqn:Es.
  - intros [= <-]. rewrite bool_decide_eq_false_2 by discriminate. reflexivity.
  - cbn [length Nat.eqb]. intros H. simpl in H.
    apply bind_Ok in H as (aid & Hid & H). rewrite Hid.
    apply bind_Ok in H as (d1 & Hd1 & H). apply or_raise_Ok in Hd1.
    apply bind_Ok in H as (c & Hc & H).
    destruct d1 as [|c1 d1]; [discriminate|]. injection Hc as <-.
    change ((d0 :: data) !! 1%nat) with (data !! 0%nat). rewrite Hd1.
    assert (Hfold : exists atom,
              foldM (adjlist.bond_entry aid)
                    {| adjlist.atoms := adjlist.atoms st ++ [atom];
                       adjlist.bonds := adjlist.bonds st;
                       adjlist.atomdict := <[aid := length (adjlist.atoms st)]>
                                             (adjlist.atomdict st);
                       adjlist.bonddict := <[aid := ∅]> (adjlist.bonddict st) |}
                    (drop ((if Ascii.eqb c1 "*" then 2 else 1) + 2)%nat (d0 :: data))
              = Ok st').
    { destruct (Ascii.eqb c1 "*").
      - apply bind_Ok in H as (el & _ & H). apply bind_Ok in H as (els & _ & H).
        apply bind_Ok in H as (es & _ & H). apply bind_Ok in H as (ess & _ & H).
        apply bind_Ok in H as (atom & _ & H). exists atom. exact H.
      - apply bind_Ok in H as (el & _ & H). apply bind_Ok in H as (els & _ & H).
        apply bind_Ok in H as (es & _ & H). apply bind_Ok in H as (ess & _ & H).
        apply bind_Ok in H as (atom & _ & H). exists atom. exact H. }
    destruct Hfold as (atom & Hfold).
    destruct (bond_entries_record _ _ _ _ ∅ Hfold) as (row & Hbd & Hrow).
    { simpl. apply lookup_insert_eq. }
    simpl in Hbd. rewrite insert_insert_eq in Hbd.
    unfold record_of. rewrite Hbd.
    destruct (decide (aid = a)) as [->|Hne].
    + rewrite bool_decide_eq_true_2 by reflexivity.
      rewrite lookup_insert_eq. simpl. rewrite Hrow.
      destruct (list.last _); [reflexivity | apply lookup_empty].
    + rewrite bool_decide_eq_false_2 by congruence.
      rewrite lookup_insert_ne by exact Hne. reflexivity.
Qed.

Lemma in_force_snoc (done : list string) (line : string) (a b : Z) :
  in_force (done ++ [line]) a b
  = if of_id a line then stated line b else in_force done a b.
Proof.
  unfold in_force. rewrite List.filter_app. cbn [List.filter].
  destruct (of_id a line).
  - rewrite last_snoc. reflexivity.
  - rewrite app_nil_r. reflexivity.
Qed.

Lemma atom_lines_record `{R : Registry} (ls done : list string) (st st' : adjlist.locals) :
  foldM adjlist.atom_line st ls = Ok st' ->
  (forall a b, record_of st a b = in_force done a b) ->
  forall a b, record_of st' a b = in_force (done ++ ls) a b.
Proof.
  revert done st. induction ls as [|l ls IH]; intros done st; cbn [foldM].
  - intros [= <-] H a b. rewrite app_nil_r. apply H.
  - intros H Hdone a b. apply bind_Ok in H as (st1 & H1 & H).
    replace (done ++ l :: ls) with ((done ++ [l]) ++ ls) by (rewrite <- app_assoc; reflexivity).
    apply (IH _ _ H). intros a' b'.
    rewrite (atom_line_record _ _ _ a' b' H1), in_force_snoc, Hdone. reflexivity.
Qed.

(** When the [try] block ends normally, [bonddict] holds exactly the entries
    of the list that are in force. *)
Lemma try_block_record `{R : Registry} (text : string) (label : option string)
    (st : adjlist.locals) (a b : Z) :
  adjlist.try_block text = (label, Ok st) -> record_of st a b = written text a b.
Proof.
  unfold adjlist.try_block, written.
  destruct (pystr.splitlines text) as [|l ls]; [discriminate|].
  intros [= _ H]. apply (atom_lines_record ls [] _ _ H). reflexivity.
Qed.

(** C5 (amended).  For every adjacency list in which a bond entry [(a, b)]
    is in force with the bond types [btype] (it is the last entry for [b] on
    the last line of the atom id [a]) while no entry [(b, a)] is in force
    with the same list of bond types (there is none, or it gives another
    list: the code compares the lists of labels with [!=]),
    [fromAdjacencyList] raises [InvalidAdjacencyListException] with the label
    of the adjacency list, its first line, and leaves the Structure alone,
    whether the lines can all be read or not. *)
Theorem mirror_invariant `{R : Registry} (text : string) (self : Structure)
    (a b : Z) (btype : list string) :
  written text a b = Some btype ->
  written text b a <> Some btype ->
  exists label,
    pystr.splitlines text !! 0%nat = Some label
    /\ fromAdjacencyList text self = (Raise (InvalidAdjacencyListException label), self).
Proof.
  intros Hab Hba. pose proof (fromAdjacencyList_outcome text self) as H.
  destruct (pystr.splitlines text) as [|l ls] eqn:El.
  { unfold written in Hab. rewrite El in Hab. discriminate. }
  exists l. split; [reflexivity|].
  destruct (adjlist.try_block text) as [label [st|e]] eqn:E.
  - assert (Hl : label = Some l).
    { unfold adjlist.try_block in E. rewrite El in E. by injection E as <- _. }
    subst label.
    destruct (adjlist.check (Some l) (adjlist.bonddict st)) as [[]|e] eqn:Ec; [|exact H].
    exfalso. apply Hba.
    rewrite <- (try_block_record _ _ _ a b E) in Hab.
    rewrite <- (try_block_record _ _ _ b a E).
    unfold record_of in *.
    destruct (adjlist.bonddict st !! a) as [row|] eqn:Ha; [|discriminate]. simpl in Hab.
    destruct (check_Ok _ _ _ _ _ _ Ec Ha Hab) as (row' & -> & Ha'). exact Ha'.
  - assert (Hl : label = Some l).
    { unfold adjlist.try_block in E. rewrite El in E. by injection E as <- _. }
    subst label. exact H.
Qed.

(** ** C7: the exception that leaves the parser *)

(** On a text with a first line, whatever makes [fromAdjacencyList] fail, the
    exception is [InvalidAdjacencyListException] with that line as label. *)
Lemma fromAdjacencyList_labelled_failure `{R : Registry} (text label : string)
    (rest : list string) (self self' : Structure) (e : exn) :
  pystr.splitlines text = label :: rest ->
  fromAdjacencyList text self = (Raise e, self') ->
  e = InvalidAdjacencyListException label.
Proof.
  intros Hl. pose proof (fromAdjacencyList_outcome text self) as H.
  unfold adjlist.try_block in H. rewrite Hl in H.
  destruct (foldM adjlist.atom_line adjlist.start rest) as [st|e0].
  - destruct (adjlist.check (Some label) (adjlist.bonddict st)) as [[]|e1].
    + destruct H as (s & ->). discriminate.
    + rewrite H. intros [= <- _]. reflexivity.
  - rewrite H. intros [= <- _]. reflexivity.
Qed.

(** C7 (the code departs from the claim).  On the empty string,
    [adjlist.splitlines()] is the empty list, [lines[0]] raises [IndexError]
    inside the [try] block before [label] is bound, and the handler's
    [raise InvalidAdjacencyListException(label)] reads the unbound local: the
    exception that leaves [fromAdjacencyList] is [UnboundLocalError], not the
    invalid-adjacency-list error. *)
Theorem fromAdjacencyList_empty_text `{R : Registry} (self : Structure) :
  pystr.splitlines "" = []
  /\ fromAdjacencyList "" self = (Raise UnboundLocalError, self).
Proof. split; reflexivity. Qed.

(** ** C2: the round trip through the codec *)

(** C2 (the code departs from the claim).  The Structure parsed from

      X / 1 C {0,1} {2,S} / 2 C 0 {1,S}

    has an atom with the electron states {0,1} and one bond.
    [toAdjacencyList] writes the set of electron states without the blank
    that it writes after every other field, so the first bond is glued to it
    ("{0,1}{2,S}"), and [fromAdjacencyList] rejects the text it is given
    back. *)
Theorem round_trip_glues_electron_states :
  let S := @fromAdjacencyList registry.default amb_text empty_Structure in
  S.1 = Ok ()
  /\ toAdjacencyList S.2 "X" = Ok (lines ["X"; "1 C {0,1}{2,S} "; "2 C 0 {1,S} "])
  /\ @fromAdjacencyList registry.default
       (lines ["X"; "1 C {0,1}{2,S} "; "2 C 0 {1,S} "]) empty_Structure
     = (Raise (InvalidAdjacencyListException "X"), empty_Structure).
Proof. repeat split; vm_compute; reflexivity. Qed.

(** A Structure whose electron states are all resolved does come back. *)
Example round_trip_ethane :
  let S := @fromAdjacencyList registry.default ethane_text empty_Structure in
  S.1 = Ok ()
  /\ (t ← toAdjacencyList S.2 "C1"; Ok (@fromAdjacencyList registry.default t empty_Structure))
     = Ok S.
Proof. split; vm_compute; reflexivity. Qed.

(** ** C3: the delocalization paths of a radical *)

Lemma canIncreaseOrder_true (s : Structure) (bond : nat) (b : Bond.t) :
  bondObjs s !! bond = Some b ->
  Bond.canIncreaseOrder b = Ok true <-> order_is_not 3 s bond.
Proof.
  intros Hb. unfold Bond.canIncreaseOrder, order_is_not. split.
  - destruct (Bond.bondType b) as [t|l] eqn:E; [|discriminate].
    intros [= H]. exists b, t. repeat split; auto.
    intros Hq. apply Qeq_bool_iff in Hq. rewrite Hq in H. discriminate.
  - intros (b' & t & Hb' & Ht & Hq). rewrite Hb in Hb'. injection Hb' as <-.
    rewrite Ht. f_equal. apply negb_true_iff. apply not_true_is_false.
    intros H. apply Hq. by apply Qeq_bool_iff.
Qed.

Lemma canDecreaseOrder_true (s : Structure) (bond : nat) (b : Bond.t) :
  bondObjs s !! bond = Some b ->
  Bond.canDecreaseOrder b = Ok true <-> order_is_not 1 s bond.
Proof.
  intros Hb. unfold Bond.canDecreaseOrder, order_is_not. split.
  - destruct (Bond.bondType b) as [t|l] eqn:E; [|discriminate].
    intros [= H]. exists b, t. repeat split; auto.
    intros Hq. apply Qeq_bool_iff in Hq. rewrite Hq in H. discriminate.
  - intros (b' & t & Hb' & Ht & Hq). rewrite Hb in Hb'. injection Hb' as <-.
    rewrite Ht. f_equal. apply negb_true_iff. apply not_true_is_false.
    intros H. apply Hq. by apply Qeq_bool_iff.
Qed.

(** The inner loop adds the paths through [atom2] that end in an allyl bond
    able to lose an order. *)
Lemma allyl_loop (s : Structure) (atom1 atom2 bond12 : nat) (adj2 : list (nat * nat))
    (paths paths' : list path) :
  foldM (allyl_step s atom1 atom2 bond12) paths adj2 = Ok paths' ->
  forall p, p ∈ paths' <->
    p ∈ paths
    \/ exists atom3 bond23,
         p = (atom1, atom2, atom3, bond12, bond23) /\ (atom3, bond23) ∈ adj2
         /\ atom3 <> atom1 /\ order_is_not 1 s bond23.
Proof.
  revert paths. induction adj2 as [|[atom3 bond23] adj2 IH]; intros paths; simpl.
  - intros [= <-] p. split; [auto|]. intros [H|(a3 & b23 & _ & H & _)]; [exact H|].
    by apply elem_of_nil in H.
  - intros H. apply bind_Ok in H as (paths1 & H1 & H). intros p.
    rewrite (IH _ H p). clear IH H.
    assert (Hstep : p ∈ paths1 <->
              p ∈ paths \/ (p = (atom1, atom2, atom3, bond12, bond23)
                            /\ atom3 <> atom1 /\ order_is_not 1 s bond23)).
    { unfold allyl_step in H1. destruct (Nat.eqb_spec atom1 atom3) as [->|Hne].
      - injection H1 as <-. split; [auto|]. intros [H|(_ & Hc & _)]; [exact H|].
        contradiction.
      - apply bind_Ok in H1 as (b23 & Hb & H1). apply or_raise_Ok in Hb.
        apply bind_Ok in H1 as (can & Hcan & [= <-]).
        destruct can.
        + rewrite elem_of_app, list_elem_of_singleton.
          apply canDecreaseOrder_true with (s := s) (bond := bond23) in Hcan; [|exact Hb].
          split; [intros [H|H]; auto | intros [H|(H & _)]; auto].
        + split; [auto|]. intros [H|(_ & _ & Hc)]; [exact H|].
          apply (canDecreaseOrder_true s bond23 b23 Hb) in Hc. congruence. }
    rewrite Hstep. split.
    + intros [[H|(-> & Hne & Ho)]|(a3 & b23 & -> & Hin & Hne & Ho)]; auto.
      * right. exists atom3, bond23. repeat split; auto. by left.
      * right. exists a3, b23. repeat split; auto. by right.
    + intros [H|(a3 & b23 & -> & Hin & Hne & Ho)]; auto.
      apply elem_of_cons in Hin as [[= -> ->]|Hin]; [auto|].
      right. exists a3, b23. auto.
Qed.

(** The outer loop adds, for each vinyl bond able to gain an order, the
    paths of the inner loop. *)
Lemma vinyl_loop (s : Structure) (atom1 : nat) (adj1 : list (nat * nat))
    (paths paths' : list path) :
  foldM (vinyl_step s atom1) paths adj1 = Ok paths' ->
  forall p, p ∈ paths' <->
    p ∈ paths
    \/ exists atom2 bond12 atom3 bond23 adj2,
         p = (atom1, atom2, atom3, bond12, bond23) /\ (atom2, bond12) ∈ adj1
         /\ order_is_not 3 s bond12
         /\ getBonds s atom2 = Ok adj2 /\ (atom3, bond23) ∈ adj2
         /\ atom3 <> atom1 /\ order_is_not 1 s bond23.
Proof.
  revert paths. induction adj1 as [|[atom2 bond12] adj1 IH]; intros paths; simpl.
  - intros [= <-] p. split; [auto|].
    intros [H|(a2 & b12 & a3 & b23 & adj2 & _ & H & _)]; [exact H|].
    by apply elem_of_nil in H.
  - intros H. apply bind_Ok in H as (paths1 & H1 & H). intros p.
    rewrite (IH _ H p). clear IH H.
    assert (Hstep : p ∈ paths1 <->
              p ∈ paths
              \/ exists atom3 bond23 adj2,
                   p = (atom1, atom2, atom3, bond12, bond23)
                   /\ order_is_not 3 s bond12
                   /\ getBonds s atom2 = Ok adj2 /\ (atom3, bond23) ∈ adj2
                   /\ atom3 <> atom1 /\ order_is_not 1 s bond23).
    { unfold vinyl_step in H1.
      apply bind_Ok in H1 as (b12 & Hb & H1). apply or_raise_Ok in Hb.
      apply bind_Ok in H1 as (can & Hcan & H1).
      destruct can.
      - apply bind_Ok in H1 as (adj2 & Hadj & H1).
        rewrite (allyl_loop _ _ _ _ _ _ _ H1 p).
        apply canIncreaseOrder_true with (s := s) (bond := bond12) in Hcan; [|exact Hb].
        split.
        + intros [H|(a3 & b23 & -> & Hin & Hne & Ho)]; [auto|].
          right. exists a3, b23, adj2. auto 10.
        + intros [H|(a3 & b23 & adj2' & -> & Ho3 & Hadj' & Hin & Hne & Ho)]; [auto|].
          right. exists a3, b23. rewrite Hadj in Hadj'. injection Hadj' as <-. auto.
      - injection H1 as <-. split; [auto|].
        intros [H|(a3 & b23 & adj2' & _ & Ho3 & _)]; [exact H|].
        apply (canIncreaseOrder_true s bond12 b12 Hb) in Ho3. congruence. }
    rewrite Hstep. split.
    + intros [[H|(a3 & b23 & adj2 & -> & H)]|(a2 & b12 & a3 & b23 & adj2 & -> & Hin & H)];
        auto.
      * right. exists atom2, bond12, a3, b23, adj2. split; [reflexivity|].
        split; [by left|]. tauto.
      * right. exists a2, b12, a3, b23, adj2. split; [reflexivity|].
        split; [by right|]. exact H.
    + intros [H|(a2 & b12 & a3 & b23 & adj2 & -> & Hin & H)]; auto.
      apply elem_of_cons in Hin as [[= -> ->]|Hin].
      * left. right. exists a3, b23, adj2. split; [reflexivity|]. tauto.
      * right. exists a2, b12, a3, b23, adj2. auto.
Qed.

Lemma dict_get_In {V} (k : nat) (d : list (nat * V)) (v : V) :
  dict.get k d = Some v -> In (k, v) d.
Proof.
  induction d as [|[k0 v0] d IH]; simpl; [discriminate|].
  destruct (Nat.eqb_spec k0 k) as [->|_]; [intros [= ->]; by left | auto].
Qed.

Lemma resolved_entry_bond (s : Structure) (e : nat * nat) :
  resolved_entry s e = true ->
  dict.has e.1 (graph s) = true
  /\ exists b t, bondObjs s !! e.2 = Some b /\ Bond.bondType b = Resolved t.
Proof.
  unfold resolved_entry. intros H. apply andb_true_iff in H as [H1 H2]. split; [exact H1|].
  destruct (bondObjs s !! e.2) as [b|]; [|discriminate].
  destruct (Bond.bondType b) as [t|] eqn:E; [eauto | discriminate].
Qed.

Lemma resolved_graph_row (s : Structure) (v : nat) (adj : list (nat * nat)) :
  resolved_graph s = true -> getBonds s v = Ok adj ->
  forall e, In e adj -> resolved_entry s e = true.
Proof.
  unfold resolved_graph, getBonds, graph.getEdges. intros H Hg.
  apply or_raise_Ok, dict_get_In in Hg.
  rewrite forallb_forall in H. specialize (H _ Hg). simpl in H.
  rewrite forallb_forall in H. exact H.
Qed.

Lemma allyl_loop_returns (s : Structure) (atom1 atom2 bond12 : nat)
    (adj2 : list (nat * nat)) (paths : list path) :
  (forall e, In e adj2 -> resolved_entry s e = true) ->
  exists paths', foldM (allyl_step s atom1 atom2 bond12) paths adj2 = Ok paths'.
Proof.
  revert paths. induction adj2 as [|[atom3 bond23] adj2 IH]; intros paths Hr;
    cbn [foldM]; [eauto|].
  assert (exists paths1,
            allyl_step s atom1 atom2 bond12 paths (atom3, bond23) = Ok paths1)
    as (paths1 & ->).
  { unfold allyl_step. destruct (Nat.eqb atom1 atom3); [eauto|].
    destruct (resolved_entry_bond s (atom3, bond23)) as (_ & b & t & Hb & Ht);
      [apply Hr; by left|].
    unfold bondObj, Bond.canDecreaseOrder. simpl in Hb. rewrite Hb. simpl. rewrite Ht.
    simpl. eauto. }
  simpl. apply IH. intros e He. apply Hr. by right.
Qed.

Lemma vinyl_loop_returns (s : Structure) (atom1 : nat) (adj1 : list (nat * nat))
    (paths : list path) :
  resolved_graph s = true ->
  (forall e, In e adj1 -> resolved_entry s e = true) ->
  exists paths', foldM (vinyl_step s atom1) paths adj1 = Ok paths'.
Proof.
  intros Hg. revert paths.
  induction adj1 as [|[atom2 bond12] adj1 IH]; intros paths Hr; cbn [foldM]; [eauto|].
  assert (exists paths1, vinyl_step s atom1 paths (atom2, bond12) = Ok paths1)
    as (paths1 & ->).
  { unfold vinyl_step.
    destruct (resolved_entry_bond s (atom2, bond12)) as (Hv & b & t & Hb & Ht);
      [apply Hr; by left|].
    unfold bondObj, Bond.canIncreaseOrder. simpl in Hb, Hv. rewrite Hb. simpl. rewrite Ht.
    simpl. destruct (negb _); [|eauto].
    destruct (dict_has_get _ _ Hv) as (adj2 & Hadj).
    assert (Hb2 : getBonds s atom2 = Ok adj2).
    { unfold getBonds, graph.getEdges. rewrite Hadj. reflexivity. }
    rewrite Hb2. simpl. apply allyl_loop_returns.
    eapply resolved_graph_row; eauto. }
  simpl. apply IH. intros e He. apply Hr. by right.
Qed.

(** C3.  Let [atom1] be an atom with one electron state, of radical order
    [n].  If [n <= 0], [findAllDelocalizationPaths(atom1)] returns the empty
    list.  Otherwise what it returns holds exactly the 5-tuples
    [(atom1, atom2, atom3, bond12, bond23)] where [bond12] joins [atom1] to a
    neighbour [atom2] and can gain an order (it is not at the maximum 3),
    [atom3] is a neighbour of [atom2] other than [atom1], and [bond23], which
    joins them, can lose an order (it is not at the minimum 1); and it does
    return, for an atom of a graph in which every bond holds one type. *)
Theorem findAllDelocalizationPaths_exact (s : Structure) (atom1 : nat)
    (a1 : Atom.t) (n : Z) :
  atomObjs s !! atom1 = Some a1 -> Atom.order a1 = Ok n ->
  (n <= 0 -> findAllDelocalizationPaths s atom1 = Ok [])
  /\ (0 < n ->
      (forall paths, findAllDelocalizationPaths s atom1 = Ok paths ->
         forall p, p ∈ paths <-> delocalization_path s atom1 p)
      /\ (resolved_graph s = true -> dict.has atom1 (graph s) = true ->
          exists paths, findAllDelocalizationPaths s atom1 = Ok paths)).
Proof.
  intros Ha Hn. unfold findAllDelocalizationPaths, atomObj. rewrite Ha. simpl.
  rewrite Hn. simpl. split; [|split].
  - intros Hle. apply Z.leb_le in Hle. rewrite Hle. reflexivity.
  - apply Z.leb_gt in H. rewrite H. intros paths Hp.
    apply bind_Ok in Hp as (adj1 & Hadj & Hp).
    intros [[[[a1' atom2] atom3] bond12] bond23].
    rewrite (vinyl_loop _ _ _ _ _ Hp). unfold delocalization_path. split.
    + intros [Hel|(a2 & b12 & a3 & b23 & adj2 & [= -> -> -> -> ->] & H1 & H2 & H3 & H4 & H5)].
      * by apply elem_of_nil in Hel.
      * destruct H5 as [H5 H6].
        split; [reflexivity|]. split; [eauto|]. split; [exact H2|].
        split; [eauto|]. split; assumption.
    + intros (-> & (adj1' & Hadj' & Hin1) & Ho3 & (adj2 & Hadj2 & Hin2) & Hne & Ho1).
      right. rewrite Hadj in Hadj'. injection Hadj' as <-.
      exists atom2, bond12, atom3, bond23, adj2. auto 10.
  - apply Z.leb_gt in H. rewrite H. intros Hg Hv.
    destruct (dict_has_get _ _ Hv) as (adj1 & Hadj).
    assert (Hb : getBonds s atom1 = Ok adj1).
    { unfold getBonds, graph.getEdges. rewrite Hadj. reflexivity. }
    rewrite Hb. simpl. apply vinyl_loop_returns; [exact Hg|].
    eapply resolved_graph_row; eauto.
Qed.

(** ** C1: the input of [getAdjacentResonanceIsomers] is restored *)

Lemma order2_plus (t t' : BondType.t) :
  (BondType.order t' == BondType.order t + 1)%Q -> order2 t' = order2 t + 2.
Proof. destruct t, t'; vm_compute; congruence. Qed.

Lemma order2_minus (t t' : BondType.t) :
  (BondType.order t' == BondType.order t - 1)%Q -> order2 t' = order2 t + -2.
Proof. destruct t, t'; vm_compute; congruence. Qed.

Lemma order2_inj (t t' : BondType.t) : order2 t' = order2 t + 0 -> t' = t.
Proof. destruct t, t'; vm_compute; congruence. Qed.

Lemma shifted_refl (s : Structure) : shifted still still s s.
Proof.
  unfold shifted. do 3 (split; [reflexivity|]). split.
  - intros i a a' H H'. rewrite H in H'. injection H' as <-.
    unfold shifted_atom, shifted_attr, still. do 3 (split; [reflexivity|]).
    destruct (Atom.electronState a); [lia | auto].
  - intros j b b' H H'. rewrite H in H'. injection H' as <-.
    unfold shifted_bond, shifted_attr, still. split; [reflexivity|].
    destruct (Bond.bondType b); [lia | auto].
Qed.

Lemma shifted_ext (da da' db db' : nat -> Z) (s s' : Structure) :
  (forall i, da i = da' i) -> (forall j, db j = db' j) ->
  shifted da db s s' -> shifted da' db' s s'.
Proof.
  intros Ha Hb (Hg & Hla & Hlb & Hat & Hbo).
  unfold shifted. do 3 (split; [assumption|]). split.
  - intros i a a' H H'. rewrite <- Ha. eapply Hat; eauto.
  - intros j b b' H H'. rewrite <- Hb. eapply Hbo; eauto.
Qed.

Lemma shifted_attr_step {A} (measure : A -> Z) (d k : Z) (x : attr A) (a a' : A) :
  shifted_attr measure d x (Resolved a) -> measure a' = measure a + k ->
  shifted_attr measure (d + k) x (Resolved a').
Proof.
  unfold shifted_attr. destruct x as [a0|l]; [lia | intros [? _]; discriminate].
Qed.

(** One call of an electron-changing method moves the radical order of its
    atom by [k]. *)
Lemma onAtom_shifted (f : ElectronState.t -> result ElectronState.t) (k : Z)
    (da db : nat -> Z) (i : nat) (s s1 s2 : Structure) :
  (forall e e', f e = Ok e' -> ElectronState.order e' = ElectronState.order e + k) ->
  shifted da db s s1 ->
  onAtom (Atom.changeFreeElectron f) i s1 = (Ok (), s2) ->
  shifted (bump i k da) db s s2.
Proof.
  intros Hf (Hg & Hla & Hlb & Hat & Hbo). unfold onAtom.
  destruct (atomObj s1 i ≫= _) as [a2|] eqn:E; [|discriminate].
  intros [= <-]. apply bind_Ok in E as (a1 & Ha1 & E). apply or_raise_Ok in Ha1.
  unfold Atom.changeFreeElectron in E.
  destruct (Atom.electronState a1) as [e|] eqn:Ee; [|discriminate].
  apply bind_Ok in E as (e' & He & [= <-]).
  unfold shifted, set_atom; simpl. rewrite length_insert.
  do 3 (split; [assumption|]). split; [|exact Hbo].
  intros j a a' Hj Hj'. unfold bump. destruct (Nat.eqb_spec j i) as [->|Hne].
  - rewrite list_lookup_insert_eq in Hj' by (eapply lookup_lt_Some; eauto).
    injection Hj' as <-.
    destruct (Hat _ _ _ Hj Ha1) as (H1 & H2 & H3 & H4).
    unfold shifted_atom; simpl. do 3 (split; [assumption|]).
    rewrite Ee in H4. eapply shifted_attr_step; eauto.
  - rewrite list_lookup_insert_ne in Hj' by auto. eapply Hat; eauto.
Qed.

(** One call of an order-changing method moves twice the order of its bond
    by [k]. *)
Lemma onBond_shifted (f : BondType.t -> result BondType.t) (k : Z)
    (da db : nat -> Z) (j : nat) (s s1 s2 : Structure) :
  (forall t t', f t = Ok t' -> order2 t' = order2 t + k) ->
  shifted da db s s1 ->
  onBond (Bond.changeOrder f) j s1 = (Ok (), s2) ->
  shifted da (bump j k db) s s2.
Proof.
  intros Hf (Hg & Hla & Hlb & Hat & Hbo). unfold onBond.
  destruct (bondObj s1 j ≫= _) as [b2|] eqn:E; [|discriminate].
  intros [= <-]. apply bind_Ok in E as (b1 & Hb1 & E). apply or_raise_Ok in Hb1.
  unfold Bond.changeOrder in E.
  destruct (Bond.bondType b1) as [t|] eqn:Et; [|discriminate].
  apply bind_Ok in E as (t' & Ht & [= <-]).
  unfold shifted, set_bond; simpl. rewrite length_insert.
  do 3 (split; [assumption|]). split; [exact Hat|].
  intros i b b' Hi Hi'. unfold bump. destruct (Nat.eqb_spec i j) as [->|Hne].
  - rewrite list_lookup_insert_eq in Hi' by (eapply lookup_lt_Some; eauto).
    injection Hi' as <-.
    destruct (Hbo _ _ _ Hi Hb1) as (H1 & H2).
    unfold shifted_bond; simpl. split; [assumption|].
    rewrite Et in H2. eapply shifted_attr_step; eauto.
  - rewrite list_lookup_insert_ne in Hi' by auto. eapply Hbo; eauto.
Qed.

Lemma steps4 (m1 m2 m3 m4 : method unit) (s s' : Structure) :
  steps [m1; m2; m3; m4] s = (Ok (), s') ->
  exists s1 s2 s3,
    m1 s = (Ok (), s1) /\ m2 s1 = (Ok (), s2) /\ m3 s2 = (Ok (), s3)
    /\ m4 s3 = (Ok (), s').
Proof.
  unfold steps. simpl.
  destruct (m1 s) as [[[]|] s1] eqn:E1; [|discriminate].
  destruct (m2 s1) as [[[]|] s2] eqn:E2; [|discriminate].
  destruct (m3 s2) as [[[]|] s3] eqn:E3; [|discriminate].
  destruct (m4 s3) as [[[]|] s4] eqn:E4; [|discriminate].
  intros [= <-]. exists s1, s2, s3. auto.
Qed.

Section Restore.
Context `{R : Registry} (HR : lawful R).

Lemma incE_shifted (da db : nat -> Z) (i : nat) (s s1 s2 : Structure) :
  shifted da db s s1 -> incE i s1 = (Ok (), s2) -> shifted (bump i 1 da) db s s2.
Proof. apply onAtom_shifted. apply HR. Qed.

Lemma decE_shifted (da db : nat -> Z) (i : nat) (s s1 s2 : Structure) :
  shifted da db s s1 -> decE i s1 = (Ok (), s2) -> shifted (bump i (-1) da) db s s2.
Proof.
  apply onAtom_shifted. intros e e' H. apply (decreaseFreeElectron_order R HR) in H. lia.
Qed.

Lemma incO_shifted (da db : nat -> Z) (j : nat) (s s1 s2 : Structure) :
  shifted da db s s1 -> incO j s1 = (Ok (), s2) -> shifted da (bump j 2 db) s s2.
Proof.
  apply onBond_shifted. intros t t' H. apply order2_plus, (increaseOrder_order R HR), H.
Qed.

Lemma decO_shifted (da db : nat -> Z) (j : nat) (s s1 s2 : Structure) :
  shifted da db s s1 -> decO j s1 = (Ok (), s2) -> shifted da (bump j (-2) db) s s2.
Proof.
  apply onBond_shifted. intros t t' H. apply order2_minus, (decreaseOrder_order R HR), H.
Qed.

(** Shift, copy, restore: the orders are back where they were, whether or
    not the two atoms, or the two bonds, of the path are the same object. *)
Lemma isomer_step_restores (p : path) (s0 : Structure)
    (st st' : Structure * list Structure) :
  shifted still still s0 st.1 ->
  isomer_step p st = (Ok (), st') ->
  shifted still still s0 st'.1.
Proof.
  destruct p as [[[[atom1 atom2] atom3] bond12] bond23], st as [s isomers].
  simpl. intros H0.
  destruct (steps [decE atom1; incE atom3; incO bond12; decO bond23] s)
    as [[[]|] s1] eqn:E1; [|discriminate].
  destruct (copy s1) as [isomer|]; [|discriminate].
  destruct (steps [incE atom1; decE atom3; decO bond12; incO bond23] s1)
    as [[[]|] s2] eqn:E2; [|discriminate].
  intros [= <-]. simpl.
  apply steps4 in E1 as (a & b & c & A1 & A2 & A3 & A4).
  apply steps4 in E2 as (d & e & f & B1 & B2 & B3 & B4).
  pose proof (decE_shifted _ _ _ _ _ _ H0 A1) as H1.
  pose proof (incE_shifted _ _ _ _ _ _ H1 A2) as H2.
  pose proof (incO_shifted _ _ _ _ _ _ H2 A3) as H3.
  pose proof (decO_shifted _ _ _ _ _ _ H3 A4) as H4.
  pose proof (incE_shifted _ _ _ _ _ _ H4 B1) as H5.
  pose proof (decE_shifted _ _ _ _ _ _ H5 B2) as H6.
  pose proof (decO_shifted _ _ _ _ _ _ H6 B3) as H7.
  pose proof (incO_shifted _ _ _ _ _ _ H7 B4) as H8.
  revert H8. apply shifted_ext; intros i; unfold bump, still;
    repeat destruct (Nat.eqb _ _); lia.
Qed.

Lemma radical_step_restores (atom : nat) (s0 : Structure)
    (st st' : Structure * list Structure) :
  shifted still still s0 st.1 ->
  radical_step atom st = (Ok (), st') ->
  shifted still still s0 st'.1.
Proof.
  unfold radical_step. intros H0.
  destruct (findAllDelocalizationPaths st.1 atom) as [paths|]; [|discriminate].
  revert st st' H0.
  apply (forS_invariant (fun st => shifted still still s0 st.1)).
  intros p st st' _. apply isomer_step_restores.
Qed.

End Restore.

Lemma shifted_still_unchanged (s s' : Structure) :
  shifted still still s s' -> unchanged s s'.
Proof.
  intros (Hg & Hla & Hlb & Hat & Hbo). unfold unchanged.
  split; [exact Hg|]. split.
  - apply list_eq. intros j.
    destruct (bondObjs s !! j) as [b|] eqn:Eb.
    + destruct (lookup_lt_is_Some_2 (bondObjs s') j) as [b' Eb'].
      { rewrite Hlb. eapply lookup_lt_Some, Eb. }
      rewrite Eb'. f_equal.
      destruct (Hbo _ _ _ Eb Eb') as [H1 H2].
      destruct b as [p x], b' as [p' x']. simpl in *. subst p'. f_equal.
      unfold shifted_attr, still in H2.
      destruct x as [t|l], x' as [t'|l']; try (destruct H2; congruence).
      f_equal. by apply order2_inj.
    + apply lookup_ge_None. rewrite Hlb. by apply lookup_ge_None.
  - apply Forall2_same_length_lookup. split; [by symmetry|].
    intros i a a' Ha Ha'. destruct (Hat _ _ _ Ha Ha') as (H1 & H2 & H3 & H4).
    unfold same_atom. do 3 (split; [assumption|]).
    unfold shifted_attr, still in H4. unfold same_electrons.
    destruct (Atom.electronState a), (Atom.electronState a'); try (destruct H4; congruence).
    lia.
Qed.

(** C1.  For every input Structure, if the order-changing methods do what
    the specification says of them, then after
    [getAdjacentResonanceIsomers()] returns, the Structure is unchanged: the
    same graph, every bond object with the endpoints and the type (hence the
    order) it had, and every atom object with the radical order it had (and
    its type, charge and label), although the routine mutates atoms and bonds
    in place between each copy and restore. *)
Theorem getAdjacentResonanceIsomers_restores `{R : Registry} (s s' : Structure)
    (isomers : list Structure) :
  lawful R ->
  getAdjacentResonanceIsomers s = (Ok isomers, s') ->
  unchanged s s'.
Proof.
  intros HR. unfold getAdjacentResonanceIsomers.
  destruct (getRadicalCount s) as [radical|]; [|discriminate].
  destruct (0 <? radical).
  - destruct (forS radical_step (atoms s) (s, [])) as [[[]|] [s1 isomers1]] eqn:E;
      [|discriminate].
    intros [= <- <-]. apply shifted_still_unchanged.
    change s1 with (s1, isomers1).1.
    revert E. apply (forS_invariant (fun st => shifted still still s st.1)).
    + intros atom st st' _. by apply radical_step_restores.
    + apply shifted_refl.
  - intros [= <- <-]. apply shifted_still_unchanged, shifted_refl.
Qed.

(** ** C8: [updateAtomTypes] is idempotent *)

(** The loop body of [updateAtomTypes], by what it finds. *)
Lemma type_step_examine `{R : Registry} (atom1 : nat) (s : Structure) (log : list string) :
  type_step atom1 (s, log) =
  match examine s atom1 with
  | Raise e => (Raise e, (s, log))
  | Ok Skipped => (Ok (), (s, log))
  | Ok (Found label symbol atomType) =>
      match reconcile label symbol atomType with
      | Keep => (Ok (), (s, log))
      | Warn => (Ok (), (s, log ++ [warning atomType label]))
      | Change =>
          match atomTypes atomType with
          | None => (Raise KeyError, (s, log))
          | Some ty' => (Ok (), (retype s atom1 ty', log))
          end
      end
  end.
Proof.
  unfold type_step, examine, retype, atomObj.
  destruct (atomObjs s !! atom1) as [a1|]; simpl; [|reflexivity].
  destruct (Atom.atomType a1) as [ty|l]; [|reflexivity].
  destruct (_ || _); [reflexivity|].
  destruct (getBonds s atom1 ≫= _) as [c|e]; simpl; [|reflexivity].
  destruct (reconcile _ _ _); try reflexivity.
Qed.

Lemma reconcile_element (label symbol : string) : reconcile label symbol symbol <> Change.
Proof.
  unfold reconcile. destruct (String.eqb label symbol); [discriminate|].
  rewrite String.eqb_refl. discriminate.
Qed.

Lemma reconcile_same (label symbol : string) : reconcile label symbol label = Keep.
Proof. unfold reconcile. rewrite String.eqb_refl. reflexivity. Qed.

(** A change is always to one of the sub-types of the atom's element. *)
Lemma change_subtype (label symbol : string) (c : counts) :
  reconcile label symbol (suggest symbol c) = Change ->
  In (suggest symbol c, symbol) subtypes.
Proof.
  unfold suggest.
  destruct (String.eqb_spec symbol "C") as [->|_];
    [|destruct (String.eqb_spec symbol "O") as [->|_]].
  all: repeat match goal with
         | |- context [if ?b then _ else _] => destruct b
         end.
  all: try (intros _; simpl; tauto).
  all: intros H; exfalso; revert H; apply reconcile_element.
Qed.

Lemma subtype_not_generic (l sym : string) :
  In (l, sym) subtypes -> String.eqb l "R" || String.eqb l "R!H" = false.
Proof.
  simpl. intros H.
  repeat (destruct H as [[= <- <-]|H]; [reflexivity|]). contradiction.
Qed.

Lemma typed_lookup `{R : Registry} (l sym : string) (ty : AtomType.t) :
  typed = true -> In (l, sym) subtypes -> atomTypes l = Some ty ->
  AtomType.label ty = l /\ Element.symbol (AtomType.element ty) = sym.
Proof.
  unfold typed. rewrite forallb_forall. intros H Hin Hty.
  specialize (H _ Hin). simpl in H. rewrite Hty in H.
  apply andb_true_iff in H as [H1 H2].
  by apply String.eqb_eq in H1, H2.
Qed.

Lemma count_step_frame (s s' : Structure) (a1 a1' : Atom.t) (c : counts) (e : nat * nat) :
  bondObjs s' = bondObjs s -> (forall i, oxygen s' i = oxygen s i) ->
  Atom.isCarbon a1' = Atom.isCarbon a1 ->
  count_step s' a1' c e = count_step s a1 c e.
Proof.
  intros Hb Ho Hc. destruct e as [atom2 bond12]. unfold count_step, bondObj.
  rewrite Hb. destruct (bondObjs s !! bond12) as [b12|]; simpl; [|reflexivity].
  destruct (Bond.isSingle b12) as [isS|]; simpl; [|reflexivity].
  match goal with
  | |- (?m ≫= _) = _ => destruct m as [c1|]; simpl; [|reflexivity]
  end.
  rewrite Hc. destruct (Atom.isCarbon a1) as [[]|]; simpl; try reflexivity.
  specialize (Ho atom2). unfold oxygen in Ho.
  destruct (atomObj s' atom2) as [a2'|e'], (atomObj s atom2) as [a2|e0]; simpl in *.
  - rewrite Ho. reflexivity.
  - rewrite Ho. reflexivity.
  - rewrite <- Ho. reflexivity.
  - congruence.
Qed.

Lemma counts_frame (s s' : Structure) (a1 a1' : Atom.t) (adj : list (nat * nat))
    (c : counts) :
  bondObjs s' = bondObjs s -> (forall i, oxygen s' i = oxygen s i) ->
  Atom.isCarbon a1' = Atom.isCarbon a1 ->
  foldM (count_step s' a1') c adj = foldM (count_step s a1) c adj.
Proof.
  intros Hb Ho Hc. revert c. induction adj as [|e adj IH]; intros c; simpl; [reflexivity|].
  rewrite (count_step_frame s s' a1 a1') by assumption.
  destruct (count_step s a1 c e); simpl; [apply IH | reflexivity].
Qed.

(** Retyping another atom does not change what is found about this one. *)
Lemma examine_frame (x y : nat) (s s' : Structure) :
  retyped y s s' -> x <> y -> examine s' x = examine s x.
Proof.
  intros (Hg & Hb & Ho & Ha) Hne. unfold examine, atomObj, getBonds.
  rewrite (Ha x Hne), Hg.
  destruct (atomObjs s !! x) as [a1|]; simpl; [|reflexivity].
  destruct (Atom.atomType a1) as [ty|]; [|reflexivity].
  destruct (_ || _); [reflexivity|].
  destruct (graph.getEdges (graph s) x) as [adj|]; simpl; [|reflexivity].
  rewrite (counts_frame s s' a1 a1) by auto. reflexivity.
Qed.

Lemma settled_step `{R : Registry} (x : nat) (s : Structure) (log : list string) :
  settled s x -> exists log', type_step x (s, log) = (Ok (), (s, log')).
Proof.
  rewrite type_step_examine. unfold settled.
  destruct (examine s x) as [[|l sym t]|]; [eauto | | contradiction].
  destruct (reconcile l sym t); [eauto | contradiction | eauto].
Qed.

Lemma retyped_refl (x : nat) (s : Structure) : retyped x s s.
Proof. repeat split. Qed.

Lemma examine_Found (s : Structure) (x : nat) (l sym t : string) :
  examine s x = Ok (Found l sym t) ->
  exists a1 ty adj c,
    atomObjs s !! x = Some a1 /\ Atom.atomType a1 = Resolved ty
    /\ String.eqb (AtomType.label ty) "R" || String.eqb (AtomType.label ty) "R!H" = false
    /\ getBonds s x = Ok adj /\ foldM (count_step s a1) no_counts adj = Ok c
    /\ l = AtomType.label ty /\ sym = Element.symbol (AtomType.element ty)
    /\ t = suggest sym c.
Proof.
  unfold examine. intros H. apply bind_Ok in H as (a1 & Ha & H). apply or_raise_Ok in Ha.
  destruct (Atom.atomType a1) as [ty|] eqn:Et; [|discriminate].
  destruct (_ || _) eqn:Eg; [discriminate|].
  apply bind_Ok in H as (c & Hc & [= <- <- <-]).
  apply bind_Ok in Hc as (adj & Hadj & Hc).
  exists a1, ty, adj, c. auto 10.
Qed.

Lemma retype_retyped (s : Structure) (x : nat) (a1 : Atom.t) (ty ty' : AtomType.t) :
  atomObjs s !! x = Some a1 -> Atom.atomType a1 = Resolved ty ->
  Element.symbol (AtomType.element ty') = Element.symbol (AtomType.element ty) ->
  retyped x s (retype s x ty').
Proof.
  intros Ha Ht Hs. unfold retype. rewrite Ha. unfold retyped, set_atom; simpl.
  do 2 (split; [reflexivity|]). split.
  - intros i. unfold oxygen, atomObj; simpl. destruct (Nat.eq_dec i x) as [->|Hne].
    + rewrite list_lookup_insert_eq by (eapply lookup_lt_Some; eauto).
      rewrite Ha. simpl. unfold Atom.isOxygen, Atom.isElement. simpl.
      rewrite Ht, Hs. reflexivity.
    + rewrite list_lookup_insert_ne by auto. reflexivity.
  - intros i Hne. rewrite list_lookup_insert_ne by auto. reflexivity.
Qed.

(** One turn of the loop retypes at most its own atom, and settles it. *)
Lemma type_step_settles `{R : Registry} (x : nat) (s s' : Structure)
    (log log' : list string) :
  typed = true ->
  type_step x (s, log) = (Ok (), (s', log')) ->
  retyped x s s' /\ settled s' x.
Proof.
  intros HT. rewrite type_step_examine. unfold settled.
  destruct (examine s x) as [[|l sym t]|] eqn:E; [| |discriminate].
  - intros [= <- _]. rewrite E. split; [apply retyped_refl | exact I].
  - destruct (reconcile l sym t) eqn:Er.
    + intros [= <- _]. rewrite E, Er. split; [apply retyped_refl | discriminate].
    + destruct (atomTypes t) as [ty'|] eqn:Ety; [|discriminate].
      intros [= <- _].
      apply examine_Found in E
        as (a1 & ty & adj & c & Ha & Ht & Hg & Hadj & Hc & -> & -> & ->).
      pose proof (change_subtype _ _ _ Er) as Hin.
      destruct (typed_lookup _ _ _ HT Hin Ety) as [Hl Hs].
      pose proof (retype_retyped s x a1 ty ty' Ha Ht Hs) as Hr.
      split; [exact Hr|].
      destruct Hr as (Hgr & Hb & Ho & _).
      assert (Hx : atomObjs (retype s x ty') !! x = Some (Atom.set_atomType a1 ty')).
      { unfold retype. rewrite Ha. simpl.
        apply list_lookup_insert_eq. eapply lookup_lt_Some; eauto. }
      unfold examine, atomObj, getBonds. rewrite Hgr, Hx.
      unfold getBonds in Hadj. rewrite Hadj. simpl.
      rewrite Hl, (subtype_not_generic _ _ Hin).
      rewrite (counts_frame s (retype s x ty') a1 (Atom.set_atomType a1 ty')); auto.
      * rewrite Hc. simpl. rewrite Hs. rewrite reconcile_same. discriminate.
      * unfold Atom.isCarbon, Atom.isElement. simpl. rewrite Ht, Hs. reflexivity.
    + intros [= <- _]. rewrite E, Er. split; [apply retyped_refl | discriminate].
Qed.

(** A settled atom stays settled through the turns of the loop. *)
Lemma type_step_keeps_settled `{R : Registry} (x y : nat) (s s' : Structure)
    (log log' : list string) :
  typed = true -> settled s x ->
  type_step y (s, log) = (Ok (), (s', log')) -> settled s' x.
Proof.
  intros HT Hx Hy. destruct (Nat.eq_dec x y) as [->|Hne].
  - destruct (settled_step y s log Hx) as (log'' & E). rewrite E in Hy.
    injection Hy as <- _. exact Hx.
  - apply type_step_settles in Hy as [Hr _]; [|exact HT].
    unfold settled. rewrite (examine_frame x y s s' Hr Hne). exact Hx.
Qed.

Lemma pass_settles `{R : Registry} (l : list nat) (s s1 : Structure)
    (log log1 : list string) :
  typed = true ->
  forS type_step l (s, log) = (Ok (), (s1, log1)) ->
  graph s1 = graph s
  /\ (forall x, settled s x -> settled s1 x)
  /\ (forall x, In x l -> settled s1 x).
Proof.
  intros HT. revert s log. induction l as [|y l IH]; intros s log; cbn [forS].
  - intros [= <- _]. repeat split; auto. contradiction.
  - destruct (type_step y (s, log)) as [[[]|] [s2 log2]] eqn:E; [|discriminate].
    intros H. destruct (IH _ _ H) as (Hg & Hkeep & Hall).
    pose proof (type_step_settles _ _ _ _ _ HT E) as [(Hg2 & _) Hy].
    split; [congruence|]. split.
    + intros x Hx. apply Hkeep. eapply type_step_keeps_settled; eauto.
    + intros x [<-|Hx]; auto.
Qed.

Lemma pass_fixed `{R : Registry} (l : list nat) (s : Structure) (log : list string) :
  (forall x, In x l -> settled s x) ->
  exists log', forS type_step l (s, log) = (Ok (), (s, log')).
Proof.
  revert log. induction l as [|y l IH]; intros log Hl; cbn [forS]; [eauto|].
  destruct (settled_step y s log) as (log1 & ->); [apply Hl; by left|].
  apply IH. intros x Hx. apply Hl. by right.
Qed.

(** C8.  [updateAtomTypes] is idempotent: for every Structure (and a
    registry [chem.atomTypes] that gives, under the label of a sub-type, a
    type with that label and of that element), once a call has returned, a
    second call on the unchanged graph returns too and makes no change: the
    Structure after it, so the type of every atom, is the Structure after the
    first call. *)
Theorem updateAtomTypes_idempotent `{R : Registry} (s s1 : Structure) (log : list string) :
  typed = true ->
  updateAtomTypes s = (Ok (), (s1, log)) ->
  exists log', updateAtomTypes s1 = (Ok (), (s1, log')).
Proof.
  unfold updateAtomTypes, atoms. intros HT H.
  destruct (pass_settles _ _ _ _ _ HT H) as (Hg & _ & Hall).
  rewrite Hg. apply pass_fixed. exact Hall.
Qed.

(** ** C4: a bare carbon whose suggestion is 'Cd' *)

(** An atom of the bare type of its element adopts a suggestion that is
    neither its element nor 'Cd'. *)
Lemma bare_element_adopts `{R : Registry} (x : nat) (s : Structure) (log : list string)
    (symbol atomType : string) (ty' : AtomType.t) :
  examine s x = Ok (Found symbol symbol atomType) ->
  atomType <> symbol -> atomType <> "Cd" -> atomTypes atomType = Some ty' ->
  type_step x (s, log) = (Ok (), (retype s x ty', log)).
Proof.
  intros E Hs Hd Hty. rewrite type_step_examine, E.
  apply String.eqb_neq in Hs, Hd.
  assert (Hsym : String.eqb symbol atomType = false).
  { rewrite String.eqb_sym. exact Hs. }
  apply examine_Found in E as (a1 & ty & adj & c & _ & _ & _ & _ & _ & _ & _ & Hsug).
  assert (Hel : symbol = "C" \/ symbol = "O").
  { revert Hsug Hs. unfold suggest.
    destruct (String.eqb_spec symbol "C"); [auto|].
    destruct (String.eqb_spec symbol "O"); [auto|].
    intros ->. rewrite String.eqb_refl. discriminate. }
  unfold reconcile. rewrite Hsym, Hs, Hd, String.eqb_refl, Hty.
  destruct Hel as [-> | ->]; reflexivity.
Qed.

(** A suggestion 'Cd' changes nothing, whatever the specified type. *)
Lemma suggestion_Cd_keeps `{R : Registry} (x : nat) (s : Structure) (log : list string)
    (label symbol : string) :
  examine s x = Ok (Found label symbol "Cd") ->
  type_step x (s, log) = (Ok (), (s, log)).
Proof.
  intros E. rewrite type_step_examine, E. unfold reconcile.
  destruct (String.eqb label "Cd"); [reflexivity|].
  rewrite orb_true_r. reflexivity.
Qed.

(** C4 (the code departs from the claim).  In C=C, parsed from

      ethene / 1 C 0 {2,D} / 2 C 0 {1,D}

    the first atom has the type of its bare element, 'C', and the suggestion
    for it is 'Cd'.  The test "suggested atom type is element" also lets
    every suggestion 'Cd' through ([or atomType == 'Cd']), so
    [updateAtomTypes] changes nothing and the atom keeps the type 'C'. *)
Theorem bare_carbon_keeps_type_on_Cd :
  let s := parsed ethene_text in
  examine s 0 = Ok (Found "C" "C" "Cd")
  /\ reconcile "C" "C" "Cd" = Keep
  /\ @updateAtomTypes registry.default s = (Ok (), (s, []))
  /\ typeLabel s 0 = Some "C".
Proof. repeat split; vm_compute; reflexivity. Qed.

(** ** The example registry obeys the laws *)

Lemma registry_lawful : lawful registry.default.
Proof.
  split; simpl.
  - intros e e'. unfold registry.increaseFreeElectron.
    destruct (Z.eqb_spec (ElectronState.order e) 0) as [->|_]; [intros [= <-]; reflexivity|].
    destruct (Z.eqb_spec (ElectronState.order e) 1) as [->|_]; [intros [= <-]; reflexivity|].
    discriminate.
  - intros e e'. unfold registry.decreaseFreeElectron.
    destruct (Z.eqb_spec (ElectronState.order e) 1) as [->|_]; [intros [= <-]; reflexivity|].
    destruct (Z.eqb_spec (ElectronState.order e) 2) as [->|_]; [intros [= <-]; reflexivity|].
    discriminate.
  - intros t t'. destruct t; simpl; intros [= <-]; reflexivity.
  - intros t t'. destruct t; simpl; intros [= <-]; reflexivity.
Qed.

Lemma registry_typed : @typed registry.default = true.
Proof. reflexivity. Qed.

(** ** The claims at work on examples *)

(** The allyl radical C=C-C. has one resonance isomer, .C-C=C, and is
    itself as before. *)
Lemma allyl_restored :
  (exists isomer,
     @getAdjacentResonanceIsomers registry.default (parsed allyl_text)
     = (Ok [isomer], parsed allyl_text)
     /\ toAdjacencyList isomer "allyl"
        = Ok (lines ["allyl"; "1 C 1 {2,S} "; "2 C 0 {1,S} {3,D} "; "3 C 0 {2,D} "]))
  /\ unchanged (parsed allyl_text)
       (@getAdjacentResonanceIsomers registry.default (parsed allyl_text)).2.
Proof.
  split.
  - eexists. split; vm_compute; reflexivity.
  - eapply (@getAdjacentResonanceIsomers_restores registry.default);
      [exact registry_lawful | vm_compute; reflexivity].
Defined.

(** The radical order of the third atom is restored, the spelling of its
    state is not: from '2S' one electron less and one more is '2T' in the
    example registry. *)
Example singlet_restored_up_to_spin :
  let s := parsed singlet_text in
  let s' := (@getAdjacentResonanceIsomers registry.default s).2 in
  (Atom.electronState <$> atomObjs s !! 2%nat) = Some (Resolved (registry.state "2S" 2))
  /\ (Atom.electronState <$> atomObjs s' !! 2%nat) = Some (Resolved (registry.state "2T" 2)).
Proof. split; vm_compute; reflexivity. Qed.

(** The restoration is that of a call that returns.  When a method raises
    between the shift and the restore, the mutations made so far stay: with
    the example registry a benzene bond counts as able to gain an order but
    cannot be increased, and the call ends in a domain error with the
    radical moved from the first atom to the third. *)
Example benzyl_left_shifted :
  let s := parsed benzyl_text in
  let r := @getAdjacentResonanceIsomers registry.default s in
  r.1 = Raise DomainError
  /\ (Atom.order <$> atomObjs s) = [Ok 1; Ok 0; Ok 0]
  /\ (Atom.order <$> atomObjs r.2) = [Ok 0; Ok 0; Ok 1].
Proof. repeat split; vm_compute; reflexivity. Qed.

Lemma allyl_paths :
  findAllDelocalizationPaths (parsed allyl_text) 2 = Ok [(2, 1, 0, 1, 0)%nat]
  /\ delocalization_path (parsed allyl_text) 2 (2, 1, 0, 1, 0)%nat
  /\ findAllDelocalizationPaths (parsed allyl_text) 0 = Ok [].
Proof.
  split; [vm_compute; reflexivity|]. split.
  - edestruct (findAllDelocalizationPaths_exact (parsed allyl_text) 2) as [_ H];
      [vm_compute; reflexivity | vm_compute; reflexivity |].
    destruct (H ltac:(reflexivity)) as [Hp _].
    apply (Hp [(2, 1, 0, 1, 0)%nat] eq_refl). by left.
  - edestruct (findAllDelocalizationPaths_exact (parsed allyl_text) 0) as [H _];
      [vm_compute; reflexivity | vm_compute; reflexivity |].
    apply H. discriminate.
Defined.

(** The chain C-C.-C has no delocalization path: a single bond cannot lose
    an order. *)
Example propyl_paths : findAllDelocalizationPaths (parsed propyl_text) 1 = Ok [].
Proof. reflexivity. Qed.

Lemma broken_mirror :
  exists label,
    pystr.splitlines broken_text !! 0%nat = Some label
    /\ @fromAdjacencyList registry.default broken_text (parsed ethane_text)
       = (Raise (InvalidAdjacencyListException label), parsed ethane_text).
Proof.
  apply (@mirror_invariant registry.default broken_text (parsed ethane_text) 1 2 ["S"]);
    [vm_compute; reflexivity | vm_compute; discriminate].
Defined.

(** An entry that is replaced is not checked.  The second line of the atom
    id 1 empties what the first had said: the list gives the entry (1, 2)
    once, with 'S', and no entry (2, 1) at all, and yet a Structure, of three
    atoms, is built. *)
Lemma replaced_entry_accepted :
  listed reused_id_text 1 2 = [["S"]]
  /\ listed reused_id_text 2 1 = []
  /\ (@fromAdjacencyList registry.default reused_id_text empty_Structure).1 = Ok ()
  /\ length (atoms (parsed reused_id_text)) = 3%nat.
Proof. repeat split; vm_compute; reflexivity. Qed.

(** Nor is an entry that a later entry of its line replaces: the list gives
    'D' and then 'S' for the entry (2, 1) and 'S' for its mirror (1, 2); the
    entry in force is 'S', the check passes and a Structure is built. *)
Example overwritten_entry_accepted :
  listed overwritten_text 2 1 = [["D"]; ["S"]]
  /\ listed overwritten_text 1 2 = [["S"]]
  /\ written overwritten_text 2 1 = Some ["S"]
  /\ (@fromAdjacencyList registry.default overwritten_text empty_Structure).1 = Ok ().
Proof. repeat split; vm_compute; reflexivity. Qed.

(** The mirrored entry is there, with another bond type. *)
Example mismatched_mirror :
  @fromAdjacencyList registry.default mismatched_text (parsed ethane_text)
  = (Raise (InvalidAdjacencyListException "L"), parsed ethane_text).
Proof. vm_compute. reflexivity. Qed.

(** A line that uses the atom id of an earlier line again empties what that
    line had recorded ([bonddict[aid] = {}]): here the entry (1, 2) of the
    first atom line is no longer recorded when the check runs, and a Structure
    of three atoms and no bond is built. *)
Example reused_id_forgets_entries :
  let r := @fromAdjacencyList registry.default reused_id_text empty_Structure in
  r.1 = Ok () /\ length (atomObjs r.2) = 3%nat /\ bondObjs r.2 = []
  /\ ~ @recorded registry.default reused_id_text 1 2 ["S"].
Proof.
  repeat split; try (vm_compute; reflexivity).
  intros (st & row & Est & Hrow & Hb).
  vm_compute in Est. injection Est as <-.
  vm_compute in Hrow. injection Hrow as <-.
  vm_compute in Hb. discriminate.
Qed.

(** The example of the specification: two carbons, one single bond, no
    radical. *)
Example ethane_parsed :
  let s := parsed ethane_text in
  length (atoms s) = 2%nat
  /\ (Bond.bondType <$> bondObjs s) = [Resolved BondType.Single]
  /\ getRadicalCount s = Ok 0.
Proof. repeat split; vm_compute; reflexivity. Qed.

Lemma allyl_types_idempotent :
  exists log',
    @updateAtomTypes registry.default (@updateAtomTypes registry.default (parsed allyl_text)).2.1
    = (Ok (), ((@updateAtomTypes registry.default (parsed allyl_text)).2.1, log')).
Proof.
  eapply (@updateAtomTypes_idempotent registry.default (parsed allyl_text));
    [exact registry_typed | vm_compute; reflexivity].
Defined.

(** The second carbon of the allyl radical, with one double and one single
    bond, is retyped from 'C' to 'Cds'. *)
Example allyl_retyped :
  let s1 := (@updateAtomTypes registry.default (parsed allyl_text)).2.1 in
  typeLabel (parsed allyl_text) 1 = Some "C" /\ typeLabel s1 1 = Some "Cds".
Proof. split; vm_compute; reflexivity. Qed.

Lemma ethane_no_isomers :
  getRadicalCount (parsed ethane_text) = Ok 0
  /\ @getAdjacentResonanceIsomers registry.default (parsed ethane_text)
     = (Ok [], parsed ethane_text).
Proof.
  apply (@radical_free_no_isomers registry.default (parsed ethane_text) [0; 0]);
    [|reflexivity].
  change (atoms (parsed ethane_text)) with [0%nat; 1%nat].
  repeat (apply Forall2_cons; [eexists; split; vm_compute; reflexivity|]).
  apply Forall2_nil.
Defined.

Lemma other_labelb_all (s : Structure) (label : string) (l : list nat) :
  forallb (other_labelb s label) l = true -> Forall (other_label s label) l.
Proof.
  rewrite forallb_forall, List.Forall_forall. intros H atom Hin.
  specialize (H atom Hin). unfold other_labelb in H. unfold other_label.
  destruct (atomObjs s !! atom) as [a|]; [|discriminate].
  exists a. split; [reflexivity|]. intros Hl. apply String.eqb_eq in Hl.
  rewrite Hl in H. discriminate.
Qed.

(** Two atoms carry the label '*2': the first of them is returned. *)
Lemma labeled_first_wins :
  getLabeledAtom (parsed labeled_text) "*2" = Ok (Some 1%nat)
  /\ getLabeledAtom (parsed labeled_text) "*3" = Ok None.
Proof.
  pose proof (getLabeledAtom_first_match (parsed labeled_text)) as H.
  split.
  - destruct (H "*2") as [_ H2].
    eapply (H2 [0%nat] 1%nat [2%nat]);
      [vm_compute; reflexivity | | vm_compute; reflexivity | vm_compute; reflexivity].
    apply other_labelb_all. vm_compute. reflexivity.
  - destruct (H "*3") as [H3 _]. apply H3.
    apply other_labelb_all. vm_compute. reflexivity.
Defined.

(** ** Further properties of the code *)

(** An invariant of the loop body holds however the loop ends. *)
Lemma forS_preserves {A S} (P : S -> Prop) (body : A -> S -> result unit * S) (l : list A) :
  (forall x s r s', x ∈ l -> P s -> body x s = (r, s') -> P s') ->
  forall s r s', P s -> forS body l s = (r, s') -> P s'.
Proof.
  induction l as [|x l IH]; intros Hb s r s' Hs; simpl.
  - intros [= _ <-]. exact Hs.
  - destruct (body x s) as [[[]|e] s1] eqn:E.
    + intros Hl. eapply IH; [ | | exact Hl ].
      * intros ? ? ? ? Hin. apply Hb. by right.
      * eapply Hb; [by left | exact Hs | exact E].
    + intros [= _ <-]. eapply Hb; [by left | exact Hs | exact E].
Qed.

Lemma liveb_live (s : Structure) : liveb s = true -> live s.
Proof.
  unfold liveb, live. rewrite forallb_forall, List.Forall_forall.
  intros H atom Hin. specialize (H atom Hin).
  destruct (atomObjs s !! atom); [eauto | discriminate].
Qed.

(** *** [containsLabeledAtom], [clearLabeledAtoms], [getLabeledAtoms] *)

Lemma anyLabeled_firstLabeled (s : Structure) (label : string) (l : list nat) :
  anyLabeled s label l
  = (fun found : option nat => bool_decide (found <> None)) <$> firstLabeled s label l.
Proof.
  induction l as [|atom l IH]; simpl; [reflexivity|].
  destruct (atomObj s atom) as [a|e]; simpl; [|reflexivity].
  destruct (String.eqb (Atom.label a) label); [reflexivity | exact IH].
Qed.

(** X1.  [containsLabeledAtom(label)] is [True] exactly when
    [getLabeledAtom(label)] returns an atom and [False] exactly when it
    returns [None]. *)
Theorem containsLabeledAtom_getLabeledAtom (s : Structure) (label : string) :
  containsLabeledAtom s label
  = (fun found : option nat => bool_decide (found <> None)) <$> getLabeledAtom s label.
Proof. apply anyLabeled_firstLabeled. Qed.

Lemma clear_loop (l : list nat) (s : Structure) :
  Forall (fun atom => is_Some (atomObjs s !! atom)) l ->
  exists s',
    forS (onAtom (fun a => Ok (set_label a ""))) l s = (Ok (), s')
    /\ graph s' = graph s /\ bondObjs s' = bondObjs s
    /\ forall i, atomObjs s' !! i
                 = (fun a => if bool_decide (i ∈ l) then set_label a "" else a)
                     <$> atomObjs s !! i.
Proof.
  revert s. induction l as [|x l IH]; intros s Hl.
  - exists s. repeat split; try reflexivity.
    intros i. destruct (atomObjs s !! i); reflexivity.
  - pose proof (Forall_inv Hl) as [a Ha]. apply Forall_inv_tail in Hl.
    cbn [forS]. unfold onAtom at 1, atomObj. rewrite Ha. simpl.
    destruct (IH (set_atom s x (set_label a ""))) as (s' & E & Hg & Hb & Hi).
    { eapply List.Forall_impl; [|exact Hl]. simpl. intros y [b Hy].
      apply lookup_lt_is_Some. rewrite length_insert.
      apply lookup_lt_is_Some. eauto. }
    exists s'. split; [exact E|]. split; [exact Hg|]. split; [exact Hb|].
    intros i. rewrite Hi. simpl.
    destruct (decide (i = x)) as [->|Hne].
    + rewrite list_lookup_insert_eq by (apply lookup_lt_is_Some; eauto).
      rewrite Ha. simpl. rewrite (bool_decide_eq_true_2 (x ∈ x :: l)) by (by left).
      destruct (bool_decide (x ∈ l)); reflexivity.
    + rewrite list_lookup_insert_ne by congruence.
      destruct (atomObjs s !! i) as [b|]; [|reflexivity]. simpl.
      f_equal. destruct (decide (i ∈ l)) as [Hin|Hnin].
      * rewrite (bool_decide_eq_true_2 (i ∈ x :: l)) by (right; exact Hin).
        rewrite (bool_decide_eq_true_2 (i ∈ l)) by exact Hin. reflexivity.
      * rewrite (bool_decide_eq_false_2 (i ∈ l)) by exact Hnin.
        rewrite (bool_decide_eq_false_2 (i ∈ x :: l)); [reflexivity|].
        intros Hin. apply elem_of_cons in Hin as [?|?]; [congruence | contradiction].
Qed.

(** X2.  On a Structure whose atoms are all objects that exist (as in
    every Python state), [clearLabeledAtoms()] returns, and touches nothing
    but the labels of the atoms of [atoms()]: the graph and the bonds are as
    they were, each atom of the structure has the empty label and its type,
    electron state and charge as before, every other atom object is as it
    was. *)
Theorem clearLabeledAtoms_clears (s : Structure) :
  live s ->
  exists s',
    clearLabeledAtoms s = (Ok (), s')
    /\ graph s' = graph s /\ bondObjs s' = bondObjs s
    /\ forall i, atomObjs s' !! i
                 = (fun a => if bool_decide (i ∈ atoms s) then set_label a "" else a)
                     <$> atomObjs s !! i.
Proof. apply clear_loop. Qed.

Lemma cleared_other_label (s s' : Structure) (label : string) :
  clearLabeledAtoms s = (Ok (), s') -> label <> "" ->
  Forall (other_label s' label) (atoms s').
Proof.
  intros H Hl. unfold clearLabeledAtoms in H.
  assert (Hlive : Forall (fun atom => exists a, atomObjs s' !! atom = Some a
                                             /\ Atom.label a = "") (atoms s)
                  /\ graph s' = graph s).
  { revert H. generalize (atoms s) as l. intros l. revert s.
    induction l as [|x l IH]; intros s H.
    - injection H as <-. split; [constructor | reflexivity].
    - cbn [forS] in H. unfold onAtom at 1 in H.
      destruct (atomObj s x) as [a|e] eqn:Ea; simpl in H; [|discriminate].
      apply or_raise_Ok in Ea.
      pose proof H as H'. apply IH in H as [Hall Hg].
      split; [|exact Hg].
      constructor; [|exact Hall].
      assert (Hx : exists a', atomObjs s' !! x = Some a' /\ Atom.label a' = "").
      { revert H'. apply (forS_invariant
          (fun s1 => exists a', atomObjs s1 !! x = Some a' /\ Atom.label a' = "")).
        - intros y s1 s2 _ (a' & Ha' & Hl') E. unfold onAtom in E.
          destruct (atomObj s1 y) as [b|e] eqn:Eb; simpl in E; [|discriminate].
          injection E as <-. simpl. apply or_raise_Ok in Eb.
          destruct (decide (x = y)) as [<-|Hne].
          + rewrite list_lookup_insert_eq by (apply lookup_lt_is_Some; eauto).
            eexists. split; reflexivity.
          + rewrite list_lookup_insert_ne by congruence. eauto.
        - simpl. rewrite list_lookup_insert_eq by (apply lookup_lt_is_Some; eauto).
          eexists. split; reflexivity. }
      exact Hx. }
  destruct Hlive as [Hall Hg]. unfold atoms at 1. rewrite Hg.
  eapply List.Forall_impl; [|exact Hall]. simpl.
  intros atom (a & Ha & Hla). exists a. split; [exact Ha|]. congruence.
Qed.

(** X3.  After [clearLabeledAtoms()] no label but the empty one is found:
    for every [label != ''], [containsLabeledAtom(label)] is [False] and
    [getLabeledAtom(label)] is [None]. *)
Theorem cleared_labels_are_gone (s s' : Structure) (label : string) :
  clearLabeledAtoms s = (Ok (), s') -> label <> "" ->
  containsLabeledAtom s' label = Ok false /\ getLabeledAtom s' label = Ok None.
Proof.
  intros H Hl. pose proof (cleared_other_label _ _ _ H Hl) as Hall.
  unfold containsLabeledAtom, getLabeledAtom.
  rewrite anyLabeled_firstLabeled, (firstLabeled_none _ _ _ Hall). split; reflexivity.
Qed.

Lemma center_of_dec (isCenter : Atom.t -> bool) (s : Structure) (label : string)
    (atom : nat) :
  center_of isCenter s label atom \/ ~ center_of isCenter s label atom.
Proof.
  unfold center_of. destruct (atomObjs s !! atom) as [a|]; [|right; intros (a & [=] & _)].
  destruct (isCenter a) eqn:Ec; [|right; intros (a' & [= <-] & Hc & _); congruence].
  destruct (decide (Atom.label a = label)) as [Hl|Hl].
  - left. eauto.
  - right. intros (a' & [= <-] & _ & Hl'). contradiction.
Qed.

Lemma getLabeledAtoms_from (isCenter : Atom.t -> bool) (s : Structure) (l : list nat)
    (acc found : gmap string nat) :
  foldM (fun found atom =>
           a ← atomObj s atom;
           Ok (if isCenter a then <[Atom.label a := atom]> found else found)) acc l
  = Ok found ->
  forall label atom,
    found !! label = Some atom <->
    (exists pre post, l = pre ++ atom :: post /\ center_of isCenter s label atom
                      /\ Forall (fun x => ~ center_of isCenter s label x) post)
    \/ (Forall (fun x => ~ center_of isCenter s label x) l /\ acc !! label = Some atom).
Proof.
  revert acc. induction l as [|x l IH]; intros acc H label atom.
  - injection H as <-. split.
    + intros Hf. right. split; [constructor | exact Hf].
    + intros [(pre & post & E & _) | [_ Hf]]; [|exact Hf].
      destruct pre; discriminate.
  - cbn [foldM] in H. apply bind_Ok in H as (acc1 & H1 & H2).
    apply bind_Ok in H1 as (a & Ha & [= <-]). apply or_raise_Ok in Ha.
    rewrite (IH _ H2 label atom). clear IH H2.
    destruct (center_of_dec isCenter s label x) as [Hc|Hc].
    + assert (Hacc : (if isCenter a then <[Atom.label a := x]> acc else acc) !! label
                     = Some x).
      { destruct Hc as (a' & Ha' & Hc & Hl). rewrite Ha in Ha'. injection Ha' as <-.
        rewrite Hc, Hl. apply lookup_insert_eq. }
      rewrite Hacc. split.
      * intros [(pre & post & -> & Hat & Hpost) | [Hnone [= <-]]]; left.
        -- exists (x :: pre), post. auto.
        -- exists [], l. auto.
      * intros [(pre & post & E & Hat & Hpost) | [Hnone _]].
        -- destruct pre as [|y pre]; simpl in E; injection E as <- ->.
           ++ right. auto.
           ++ left. eauto.
        -- apply Forall_inv in Hnone. contradiction.
    + assert (Hacc : (if isCenter a then <[Atom.label a := x]> acc else acc) !! label
                     = acc !! label).
      { destruct (isCenter a) eqn:Ec; [|reflexivity].
        apply lookup_insert_ne. intros Hl. apply Hc. exists a. auto. }
      rewrite Hacc. split.
      * intros [(pre & post & -> & Hat & Hpost) | [Hnone Hf]].
        -- left. exists (x :: pre), post. auto.
        -- right. split; [constructor; assumption | exact Hf].
      * intros [(pre & post & E & Hat & Hpost) | [Hnone Hf]].
        -- destruct pre as [|y pre]; simpl in E; injection E as <- ->.
           ++ contradiction.
           ++ left. eauto.
        -- right. split; [eapply Forall_inv_tail; exact Hnone | exact Hf].
Qed.

Lemma getLabeledAtoms_returns (isCenter : Atom.t -> bool) (s : Structure) (l : list nat)
    (acc : gmap string nat) :
  Forall (fun atom => is_Some (atomObjs s !! atom)) l ->
  exists found,
    foldM (fun found atom =>
             a ← atomObj s atom;
             Ok (if isCenter a then <[Atom.label a := atom]> found else found)) acc l
    = Ok found.
Proof.
  intros H. revert acc. induction H as [|x l [a Ha] _ IH]; intros acc; simpl; [eauto|].
  unfold atomObj. rewrite Ha. simpl. apply IH.
Qed.

(** X4.  On a Structure whose atoms are all objects that exist,
    [getLabeledAtoms()] returns a dictionary that maps a label to an atom
    exactly when that atom is the last center of [atoms()] that carries the
    label: where several centers share a label the last one in iteration
    order is kept (while [getLabeledAtom] returns the first).  This holds
    whatever the test [isCenter] of the [chem] module is. *)
Theorem getLabeledAtoms_last_center (isCenter : Atom.t -> bool) (s : Structure) :
  live s ->
  exists found,
    getLabeledAtoms isCenter s = Ok found
    /\ forall label atom,
         found !! label = Some atom <->
         exists pre post, atoms s = pre ++ atom :: post
                          /\ center_of isCenter s label atom
                          /\ Forall (fun x => ~ center_of isCenter s label x) post.
Proof.
  intros Hlive.
  destruct (getLabeledAtoms_returns isCenter s (atoms s) ∅ Hlive) as [found E].
  exists found. split; [exact E|].
  intros label atom. rewrite (getLabeledAtoms_from _ _ _ _ _ E label atom).
  split; [|auto].
  intros [H | [_ H]]; [exact H|]. rewrite lookup_empty in H. discriminate.
Qed.

(** *** [updateAtomTypes] and [simplifyAtomTypes]: what they leave alone *)

Lemma reconcile_Change (label symbol atomType : string) :
  reconcile label symbol atomType = Change -> label = symbol \/ label = "Cd".
Proof.
  unfold reconcile.
  destruct (String.eqb label atomType); [discriminate|].
  destruct (String.eqb atomType symbol || String.eqb atomType "Cd"); [discriminate|].
  destruct ((String.eqb label "Cds" || String.eqb label "Cdd") && String.eqb atomType "Cd");
    [discriminate|].
  destruct (String.eqb label "Cbf" && String.eqb atomType "Cb"); [discriminate|].
  destruct (String.eqb label "Cdd" && String.eqb atomType "CO"); [discriminate|].
  destruct (String.eqb_spec label symbol); [auto|].
  destruct (String.eqb_spec label "Cd"); [auto|]. simpl. discriminate.
Qed.

Lemma refined_refl (a : Atom.t) : refined a a.
Proof. unfold refined. auto. Qed.

Lemma type_step_change `{R : Registry} (atom1 : nat) (s s' : Structure)
    (log log' : list string) (r : result unit) :
  type_step atom1 (s, log) = (r, (s', log')) ->
  s' = s
  \/ exists a1 ty ty' c,
       atomObjs s !! atom1 = Some a1 /\ Atom.atomType a1 = Resolved ty
       /\ generic_type ty = false
       /\ reconcile (AtomType.label ty) (Element.symbol (AtomType.element ty))
                    (suggest (Element.symbol (AtomType.element ty)) c) = Change
       /\ atomTypes (suggest (Element.symbol (AtomType.element ty)) c) = Some ty'
       /\ s' = set_atom s atom1 (Atom.set_atomType a1 ty').
Proof.
  unfold type_step.
  destruct (atomObj s atom1) as [a1|e] eqn:Ea; [|intros [= _ <- _]; auto].
  apply or_raise_Ok in Ea.
  destruct (Atom.atomType a1) as [ty|l] eqn:Et; [|intros [= _ <- _]; auto].
  destruct (String.eqb (AtomType.label ty) "R" || String.eqb (AtomType.label ty) "R!H")
    eqn:Eg; [intros [= _ <- _]; auto|].
  destruct (getBonds s atom1 ≫= _) as [c|e]; [|intros [= _ <- _]; auto].
  destruct (reconcile _ _ _) eqn:Er; [intros [= _ <- _]; auto | | intros [= _ <- _]; auto].
  destruct (atomTypes _) as [ty'|] eqn:Ety; [|intros [= _ <- _]; auto].
  intros [= _ <- _]. right. exists a1, ty, ty', c. auto 10.
Qed.

Lemma refined_insert (l k : list Atom.t) (i : nat) (a1 : Atom.t) (ty ty' : AtomType.t) :
  Forall2 refined l k -> k !! i = Some a1 -> Atom.atomType a1 = Resolved ty ->
  bare_or_Cd ty ->
  Forall2 refined l (<[i := Atom.set_atomType a1 ty']> k).
Proof.
  intros H Hi Ht Hb.
  destruct (Forall2_lookup_r _ _ _ _ _ H Hi) as (a0 & H0 & (He & Hc & Hl & Hty)).
  rewrite <- (list_insert_id l i a0 H0). apply Forall2_insert; [exact H|].
  unfold refined. simpl. repeat split; try assumption.
  right. destruct Hty as [Hty | (t0 & t1 & Ht0 & Ht1 & Hb0)].
  - exists ty, ty'. rewrite <- Hty. auto.
  - exists t0, ty'. auto.
Qed.

Lemma same_element_refl (a : Atom.t) : same_element a a.
Proof. unfold same_element. destruct (Atom.atomType a); reflexivity. Qed.

Lemma same_element_insert (l k : list Atom.t) (i : nat) (a1 : Atom.t) (ty ty' : AtomType.t) :
  Forall2 same_element l k -> k !! i = Some a1 -> Atom.atomType a1 = Resolved ty ->
  Element.symbol (AtomType.element ty') = Element.symbol (AtomType.element ty) ->
  Forall2 same_element l (<[i := Atom.set_atomType a1 ty']> k).
Proof.
  intros H Hi Ht He.
  destruct (Forall2_lookup_r _ _ _ _ _ H Hi) as (a0 & H0 & Hs).
  rewrite <- (list_insert_id l i a0 H0). apply Forall2_insert; [exact H|].
  unfold same_element in *. simpl. rewrite Ht in Hs.
  destruct (Atom.atomType a0); congruence.
Qed.

(** X5.  However [updateAtomTypes()] ends (it may raise [KeyError]
    half-way), it has touched nothing but atom types: the graph and the bonds
    are as they were, every atom has its electron state, charge and label,
    and an atom whose type has changed had been given the bare element or
    'Cd' as type.  A specified type that is more specific is never
    replaced. *)
Theorem updateAtomTypes_refines `{R : Registry} (s s' : Structure) (r : result unit)
    (log : list string) :
  updateAtomTypes s = (r, (s', log)) ->
  graph s' = graph s /\ bondObjs s' = bondObjs s
  /\ Forall2 refined (atomObjs s) (atomObjs s').
Proof.
  unfold updateAtomTypes. intros H.
  apply (forS_preserves
           (fun st : Structure * list string =>
              graph st.1 = graph s /\ bondObjs st.1 = bondObjs s
              /\ Forall2 refined (atomObjs s) (atomObjs st.1))) in H; [exact H | | ].
  - intros atom1 [s1 log1] r1 [s2 log2] _ (Hg & Hb & Ha) E. simpl in *.
    apply type_step_change
      in E as [-> | (a1 & ty & ty' & c & Ha1 & Ht & Hgen & Hrec & _ & ->)]; [auto|].
    simpl. do 2 (split; [assumption|]). eapply refined_insert; eauto.
    split; [exact Hgen|]. eapply reconcile_Change, Hrec.
  - simpl. do 2 (split; [reflexivity|]). apply Forall_Forall2_diag.
    apply List.Forall_forall. intros a _. apply refined_refl.
Qed.

(** X6.  With a table [chem.atomTypes] that gives, under each sub-type
    label, a type of the element that the label belongs to,
    [updateAtomTypes()] never changes the element of an atom, however it
    ends: an atom with one type keeps or gets a type of the same element, an
    atom with a list of types keeps its list. *)
Theorem updateAtomTypes_keeps_elements `{R : Registry} (s s' : Structure)
    (r : result unit) (log : list string) :
  typed = true ->
  updateAtomTypes s = (r, (s', log)) ->
  Forall2 same_element (atomObjs s) (atomObjs s').
Proof.
  unfold updateAtomTypes. intros HT H.
  apply (forS_preserves
           (fun st : Structure * list string =>
              Forall2 same_element (atomObjs s) (atomObjs st.1))) in H; [exact H | | ].
  - intros atom1 [s1 log1] r1 [s2 log2] _ Ha E. simpl in *.
    apply type_step_change
      in E as [-> | (a1 & ty & ty' & c & Ha1 & Ht & _ & Hrec & Hty & ->)]; [auto|].
    simpl. eapply same_element_insert; eauto.
    apply change_subtype in Hrec.
    destruct (typed_lookup _ _ _ HT Hrec Hty) as [_ He]. exact He.
  - simpl. apply Forall_Forall2_diag.
    apply List.Forall_forall. intros a _. apply same_element_refl.
Qed.

(** *** [thermo.py]: the choice of a polynomial *)

Lemma firstValid_Some {temp : Type} (le : temp -> temp -> bool)
    (polys : list (thermo.NASAPolynomial (temp := temp))) (T : temp)
    (poly : thermo.NASAPolynomial) :
  thermo.firstValid le polys T = Some poly <->
  exists pre post,
    polys = pre ++ poly :: post
    /\ Forall (fun p => thermo.isTemperatureValid le (thermo.range p) T = false) pre
    /\ thermo.isTemperatureValid le (thermo.range poly) T = true.
Proof.
  induction polys as [|p polys IH]; simpl.
  - split; [discriminate|]. intros (pre & post & E & _). destruct pre; discriminate.
  - destruct (thermo.isTemperatureValid le (thermo.range p) T) eqn:Ev.
    + split.
      * intros [= <-]. exists [], polys. auto.
      * intros (pre & post & E & Hpre & Hv).
        destruct pre as [|q pre]; simpl in E; injection E as <- ->; [reflexivity|].
        apply Forall_inv in Hpre. congruence.
    + rewrite IH. split.
      * intros (pre & post & -> & Hpre & Hv). exists (p :: pre), post. auto.
      * intros (pre & post & E & Hpre & Hv).
        destruct pre as [|q pre]; simpl in E; injection E as <- ->; [congruence|].
        apply Forall_inv_tail in Hpre. eauto.
Qed.

Lemma firstValid_None {temp : Type} (le : temp -> temp -> bool)
    (polys : list (thermo.NASAPolynomial (temp := temp))) (T : temp) :
  thermo.firstValid le polys T = None <->
  Forall (fun p => thermo.isTemperatureValid le (thermo.range p) T = false) polys.
Proof.
  induction polys as [|p polys IH]; simpl.
  - split; [constructor | reflexivity].
  - destruct (thermo.isTemperatureValid le (thermo.range p) T) eqn:Ev.
    + split; [discriminate|]. intros H. apply Forall_inv in H. congruence.
    + rewrite IH. split.
      * intros H. constructor; assumption.
      * intros H. eapply Forall_inv_tail; exact H.
Qed.

(** X7.  [NASAModel.__selectPolynomialForTemperature(T)] returns the first
    polynomial of the list whose range [Tmin <= T <= Tmax] holds [T], both
    ends included and whatever the polynomials after it; it raises
    [InvalidThermoModelError] exactly when no polynomial's range holds [T].
    The model's own [Tmin] and [Tmax] play no part. *)
Theorem selectPolynomial_first_valid {temp : Type} (le : temp -> temp -> bool)
    (m : thermo.NASAModel (temp := temp)) (T : temp) :
  (forall poly,
     thermo.selectPolynomialForTemperature le m T = Some poly <->
     exists pre post,
       thermo.polynomials m = pre ++ poly :: post
       /\ Forall (fun p => le (thermo.Tmin (thermo.range p)) T
                           && le T (thermo.Tmax (thermo.range p)) = false) pre
       /\ le (thermo.Tmin (thermo.range poly)) T = true
       /\ le T (thermo.Tmax (thermo.range poly)) = true)
  /\ (thermo.selectPolynomialForTemperature le m T = None <->
      Forall (fun p => le (thermo.Tmin (thermo.range p)) T
                       && le T (thermo.Tmax (thermo.range p)) = false)
             (thermo.polynomials m)).
Proof.
  unfold thermo.selectPolynomialForTemperature. split.
  - intros poly. rewrite firstValid_Some. unfold thermo.isTemperatureValid.
    split; intros (pre & post & E & Hpre & H); exists pre, post.
    + apply andb_true_iff in H. tauto.
    + split; [exact E|]. split; [exact Hpre|]. apply andb_true_iff. tauto.
  - apply firstValid_None.
Qed.

Lemma simplified_refl `{R : Registry} (a : Atom.t) : simplified false a a.
Proof.
  unfold simplified. do 3 (split; [reflexivity|]).
  destruct (Atom.atomType a); reflexivity.
Qed.

Lemma simplified_false `{R : Registry} (a a' : Atom.t) :
  simplified false a a' ->
  Atom.electronState a' = Atom.electronState a /\ Atom.charge a' = Atom.charge a
  /\ Atom.label a' = Atom.label a /\ Atom.atomType a' = Atom.atomType a.
Proof.
  intros (He & Hc & Hl & Ht). do 3 (split; [assumption|]).
  destruct (Atom.atomType a); exact Ht.
Qed.

Lemma simplify_step_Ok `{R : Registry} (atom1 : nat) (s s' : Structure) :
  simplify_step atom1 s = (Ok (), s') ->
  graph s' = graph s /\ bondObjs s' = bondObjs s
  /\ (forall i, i <> atom1 -> atomObjs s' !! i = atomObjs s !! i)
  /\ exists a1 a1', atomObjs s !! atom1 = Some a1 /\ atomObjs s' !! atom1 = Some a1'
                    /\ simplified true a1 a1'.
Proof.
  unfold simplify_step.
  destruct (atomObj s atom1) as [a1|e] eqn:Ea; [|discriminate].
  apply or_raise_Ok in Ea.
  assert (Hskip : Atom.atomType a1 = Atom.atomType a1 -> True) by auto.
  destruct (Atom.atomType a1) as [ty|l] eqn:Et.
  - destruct (String.eqb (AtomType.label ty) "R" || String.eqb (AtomType.label ty) "R!H")
      eqn:Eg.
    + intros [= <-]. do 3 (split; [reflexivity|]). exists a1, a1.
      do 2 (split; [assumption|]). unfold simplified. do 3 (split; [reflexivity|]).
      rewrite Et. unfold generic_type. rewrite Eg. reflexivity.
    + destruct (atomTypes _) as [ty'|] eqn:Er; [|discriminate].
      intros [= <-]. simpl. do 2 (split; [reflexivity|]). split.
      * intros i Hne. apply list_lookup_insert_ne. congruence.
      * exists a1, (Atom.set_atomType a1 ty'). split; [assumption|]. split.
        -- apply list_lookup_insert_eq. apply lookup_lt_is_Some. eauto.
        -- unfold simplified. simpl. do 3 (split; [reflexivity|]).
           rewrite Et. unfold generic_type. rewrite Eg. simpl. eauto.
  - intros [= <-]. do 3 (split; [reflexivity|]). exists a1, a1.
    do 2 (split; [assumption|]). unfold simplified. do 3 (split; [reflexivity|]).
    rewrite Et. reflexivity.
Qed.

Lemma simplify_loop `{R : Registry} (l : list nat) (s s' : Structure) :
  NoDup l -> forS simplify_step l s = (Ok (), s') ->
  graph s' = graph s /\ bondObjs s' = bondObjs s
  /\ forall i a, atomObjs s !! i = Some a ->
       exists a', atomObjs s' !! i = Some a' /\ simplified (bool_decide (i ∈ l)) a a'.
Proof.
  revert s. induction l as [|x l IH]; intros s Hnd H.
  - injection H as <-. do 2 (split; [reflexivity|]).
    intros i a Ha. exists a. split; [exact Ha | apply simplified_refl].
  - cbn [forS] in H.
    destruct (simplify_step x s) as [[[]|e] s1] eqn:E; [|discriminate].
    apply simplify_step_Ok in E as (Hg & Hb & Hoth & a1 & a1' & Ha1 & Ha1' & Hs1).
    inversion Hnd as [|? ? Hx Hnd']; subst.
    destruct (IH s1 Hnd' H) as (Hg' & Hb' & Hi).
    split; [congruence|]. split; [congruence|].
    intros i a Ha. destruct (decide (i = x)) as [->|Hne].
    + rewrite Ha1 in Ha. injection Ha as <-.
      destruct (Hi x a1' Ha1') as (a' & Ha' & Hs').
      rewrite (bool_decide_eq_false_2 (x ∈ l)) in Hs' by exact Hx.
      apply simplified_false in Hs' as (He & Hc & Hl & Ht).
      exists a'. split; [exact Ha'|].
      rewrite (bool_decide_eq_true_2 (x ∈ x :: l)) by (by left).
      destruct Hs1 as (He1 & Hc1 & Hl1 & Ht1).
      unfold simplified. rewrite He, Hc, Hl, Ht. auto.
    + rewrite <- (Hoth i Hne) in Ha. destruct (Hi i a Ha) as (a' & Ha' & Hs').
      exists a'. split; [exact Ha'|].
      assert (Hb2 : bool_decide (i ∈ x :: l) = bool_decide (i ∈ l)).
      { apply bool_decide_ext. rewrite elem_of_cons. tauto. }
      rewrite Hb2. exact Hs'.
Qed.

(** X8.  When [simplifyAtomTypes()] returns (on a Structure whose
    [atoms()] lists no atom twice), every atom of the structure that held one
    type, other than the generic 'R' and 'R!H', holds the type that
    [chem.atomTypes] has under the symbol of its element; atoms with a list
    of types or a generic type keep it; electron states, charges, labels,
    bonds and the graph are untouched, and so are the atom objects that are
    not in the structure. *)
Theorem simplifyAtomTypes_resets `{R : Registry} (s s' : Structure) :
  NoDup (atoms s) ->
  simplifyAtomTypes s = (Ok (), s') ->
  graph s' = graph s /\ bondObjs s' = bondObjs s
  /\ forall i a, atomObjs s !! i = Some a ->
       exists a', atomObjs s' !! i = Some a'
                  /\ simplified (bool_decide (i ∈ atoms s)) a a'.
Proof. apply simplify_loop. Qed.

(** *** The graph that [initialize] builds *)

Lemma dict_get_set {V} (k k' : nat) (v : V) (d : list (nat * V)) :
  dict.get k (dict.set k' v d) = if Nat.eqb k' k then Some v else dict.get k d.
Proof.
  induction d as [|[k0 v0] d IH]; simpl.
  - reflexivity.
  - destruct (Nat.eqb k0 k') eqn:E0; simpl.
    + apply Nat.eqb_eq in E0. subst k0. destruct (Nat.eqb k' k); reflexivity.
    + destruct (Nat.eqb k0 k) eqn:E1; [|exact IH].
      apply Nat.eqb_eq in E1. subst k0. rewrite Nat.eqb_sym, E0. reflexivity.
Qed.

Lemma dict_set_keys {V} (k : nat) (v : V) (d : list (nat * V)) :
  dict.has k d = true -> map fst (dict.set k v d) = map fst d.
Proof.
  unfold dict.has. induction d as [|[k0 v0] d IH]; simpl; [discriminate|].
  destruct (Nat.eqb k0 k) eqn:E0; simpl.
  - apply Nat.eqb_eq in E0. subst k0. reflexivity.
  - intros H. rewrite IH by exact H. reflexivity.
Qed.

Lemma dict_set_Forall {V} (P : nat * V -> Prop) (k : nat) (v : V) (d : list (nat * V)) :
  Forall P d -> P (k, v) -> Forall P (dict.set k v d).
Proof.
  intros Hd Hk. induction Hd as [|[k0 v0] d H0 Hd IH]; simpl.
  - constructor; [exact Hk | constructor].
  - destruct (Nat.eqb k0 k); constructor; assumption.
Qed.

Lemma dict_get_keys {V} (k : nat) (v : V) (d : list (nat * V)) :
  dict.get k d = Some v -> k ∈ map fst d.
Proof.
  induction d as [|[k0 v0] d IH]; simpl; [discriminate|].
  destruct (Nat.eqb k0 k) eqn:E0.
  - apply Nat.eqb_eq in E0. subst k0. intros _. by left.
  - intros H. right. exact (IH H).
Qed.

Lemma dict_get_fresh (k : nat) (l : list nat) (adj : list (nat * nat)) :
  dict.get k (map (fun v => (v, [])) l) = Some adj -> adj = [].
Proof.
  induction l as [|x l IH]; simpl; [discriminate|].
  destruct (Nat.eqb x k); [congruence | exact IH].
Qed.

Lemma addAtoms_graph (l : list nat) (s s' : Structure) :
  forS addAtom l s = (Ok (), s') ->
  atomObjs s' = atomObjs s /\ bondObjs s' = bondObjs s
  /\ graph s' = graph s ++ map (fun v => (v, [])) l.
Proof.
  revert s. induction l as [|x l IH]; intros s H.
  - injection H as <-. rewrite app_nil_r. auto.
  - cbn [forS] in H. unfold addAtom at 1, graph.addVertex in H.
    destruct (dict.has x (graph s)); [discriminate|].
    apply IH in H as (Ha & Hb & Hg). simpl in *.
    rewrite Hg, <- app_assoc. auto.
Qed.

Lemma addBond_wired (n m : nat) (bond : nat) (s s' : Structure) :
  (bond < m)%nat ->
  graph.vertices (graph s) = seq 0 n ->
  (forall v adj, dict.get v (graph s) = Some adj ->
     Forall (fun e : nat * nat => (e.1 < n)%nat /\ (e.2 < m)%nat) adj) ->
  addBond bond s = (Ok (), s') ->
  atomObjs s' = atomObjs s /\ bondObjs s' = bondObjs s
  /\ graph.vertices (graph s') = seq 0 n
  /\ (forall v adj, dict.get v (graph s') = Some adj ->
        Forall (fun e : nat * nat => (e.1 < n)%nat /\ (e.2 < m)%nat) adj).
Proof.
  intros Hbond Hv Hw. unfold addBond.
  destruct (bondObj s bond) as [b|e]; simpl; [|discriminate].
  unfold graph.addEdge.
  destruct (dict.get (Bond.atoms b).1 (graph s)) as [r1|] eqn:E1; [|discriminate].
  destruct (dict.get (Bond.atoms b).2 (graph s)) as [r2|] eqn:E2; [|discriminate].
  intros [= <-]. simpl. do 2 (split; [reflexivity|]).
  set (v1 := (Bond.atoms b).1) in *. set (v2 := (Bond.atoms b).2) in *.
  assert (H1 : (v1 < n)%nat).
  { apply dict_get_keys in E1. unfold graph.vertices in Hv. rewrite Hv in E1.
    apply elem_of_seq in E1. lia. }
  assert (H2 : (v2 < n)%nat).
  { apply dict_get_keys in E2. unfold graph.vertices in Hv. rewrite Hv in E2.
    apply elem_of_seq in E2. lia. }
  set (g1 := dict.set v1 (dict.set v2 bond r1) (graph s)).
  assert (Hw1 : forall v adj, dict.get v g1 = Some adj ->
            Forall (fun e : nat * nat => (e.1 < n)%nat /\ (e.2 < m)%nat) adj).
  { intros v adj. unfold g1. rewrite dict_get_set.
    destruct (Nat.eqb v1 v); [|apply Hw].
    intros [= <-]. apply dict_set_Forall; [eapply Hw; exact E1 | simpl; auto]. }
  split.
  - unfold graph.vertices in *. rewrite dict_set_keys.
    + unfold g1. rewrite dict_set_keys; [exact Hv|].
      unfold dict.has. rewrite E1. reflexivity.
    + unfold g1. rewrite dict_has_set. unfold dict.has at 1. rewrite E2. reflexivity.
  - intros v adj. rewrite dict_get_set.
    destruct (Nat.eqb v2 v); [|apply Hw1].
    intros [= <-]. apply dict_set_Forall; [|simpl; auto].
    destruct (dict.get v2 g1) as [r2'|] eqn:E2'; simpl; [|constructor].
    eapply Hw1. exact E2'.
Qed.

(** [initialize] keeps the objects it is given, makes every atom a vertex,
    in order, and records nothing but these atoms and bonds. *)
Lemma initialize_wired (atoms0 : list Atom.t) (bonds0 : list Bond.t) (s : Structure) :
  initialize atoms0 bonds0 = (Ok (), s) ->
  atomObjs s = atoms0 /\ bondObjs s = bonds0 /\ wired s.
Proof.
  unfold initialize.
  destruct (forS addAtom _ _) as [[[]|e] s1] eqn:E1; [|discriminate].
  apply addAtoms_graph in E1 as (Ha1 & Hb1 & Hg1). simpl in *.
  intros H.
  apply (forS_invariant
           (fun s2 => atomObjs s2 = atoms0 /\ bondObjs s2 = bonds0
                      /\ graph.vertices (graph s2) = seq 0 (length atoms0)
                      /\ (forall v adj, dict.get v (graph s2) = Some adj ->
                            Forall (fun e : nat * nat =>
                                      (e.1 < length atoms0)%nat
                                      /\ (e.2 < length bonds0)%nat) adj))) in H.
  - destruct H as (Ha & Hb & Hv & Hw). do 2 (split; [assumption|]).
    unfold wired, atoms. rewrite Ha, Hb. auto.
  - intros bond s2 s3 Hin (Ha & Hb & Hv & Hw) E.
    apply elem_of_seq in Hin.
    eapply addBond_wired in E as (Ha' & Hb' & Hv' & Hw'); [ | | exact Hv | exact Hw ];
      [|lia].
    repeat split; try congruence; assumption.
  - do 2 (split; [assumption|]). rewrite Hg1. split.
    + unfold graph.vertices. rewrite map_map. simpl. apply map_id.
    + intros v adj Hget. apply dict_get_fresh in Hget. subst adj. constructor.
Qed.

Lemma addEdge_edge (g g' : graph.Graph) (v1 v2 e : nat) :
  graph.addEdge g v1 v2 e = Ok g' ->
  forall x y,
    (adj ← dict.get x g'; dict.get y adj)
    = if Nat.eqb x v1 && Nat.eqb y v2 || Nat.eqb x v2 && Nat.eqb y v1
      then Some e
      else adj ← dict.get x g; dict.get y adj.
Proof.
  unfold graph.addEdge.
  destruct (dict.get v1 g) as [r1|] eqn:E1; [|discriminate].
  destruct (dict.get v2 g) as [r2|] eqn:E2; [|discriminate].
  intros [= <-] x y.
  repeat first
    [ rewrite dict_get_set
    | rewrite E1
    | rewrite E2
    | progress simpl
    | match goal with
      | |- context [Nat.eqb ?p ?q] => destruct (Nat.eqb_spec p q); subst
      end ];
    try reflexivity; try congruence.
Qed.

Lemma addBond_bonded (B : list Bond.t) (k : nat) (s s' : Structure) :
  bondObjs s = B ->
  (forall x y j, edge_between s x y = Some j ->
     (j < k)%nat /\ exists b, B !! j = Some b /\ joins b x y = true) ->
  (forall j b x y, (j < k)%nat -> B !! j = Some b -> joins b x y = true ->
     is_Some (edge_between s x y)) ->
  addBond k s = (Ok (), s') ->
  bondObjs s' = B
  /\ (forall x y j, edge_between s' x y = Some j ->
        (j < S k)%nat /\ exists b, B !! j = Some b /\ joins b x y = true)
  /\ (forall j b x y, (j < S k)%nat -> B !! j = Some b -> joins b x y = true ->
        is_Some (edge_between s' x y)).
Proof.
  intros HB H1 H2. unfold addBond, bondObj.
  destruct (bondObjs s !! k) as [bk|] eqn:Ek; simpl; [|discriminate].
  destruct (graph.addEdge _ _ _ _) as [g'|] eqn:Eg; [|discriminate].
  intros [= <-]. pose proof (addEdge_edge _ _ _ _ _ Eg) as He.
  rewrite HB in Ek. split; [exact HB|]. unfold edge_between in *. simpl. split.
  - intros x y j. rewrite He. fold (joins bk x y).
    destruct (joins bk x y) eqn:Ej.
    + intros [= <-]. split; [lia | eauto].
    + intros Hj. destruct (H1 _ _ _ Hj) as [Hlt Hb]. split; [lia | exact Hb].
  - intros j b x y Hlt Hb Hj. rewrite He. fold (joins bk x y).
    destruct (joins bk x y) eqn:Ej; [eauto|].
    apply (H2 j b); [|exact Hb | exact Hj].
    destruct (decide (j = k)) as [->|Hne]; [congruence | lia].
Qed.

Lemma addBonds_bonded (B : list Bond.t) (m k : nat) (s s' : Structure) :
  bondObjs s = B ->
  (forall x y j, edge_between s x y = Some j ->
     (j < k)%nat /\ exists b, B !! j = Some b /\ joins b x y = true) ->
  (forall j b x y, (j < k)%nat -> B !! j = Some b -> joins b x y = true ->
     is_Some (edge_between s x y)) ->
  forS addBond (seq k m) s = (Ok (), s') ->
  bondObjs s' = B
  /\ (forall x y j, edge_between s' x y = Some j ->
        (j < k + m)%nat /\ exists b, B !! j = Some b /\ joins b x y = true)
  /\ (forall j b x y, (j < k + m)%nat -> B !! j = Some b -> joins b x y = true ->
        is_Some (edge_between s' x y)).
Proof.
  revert k s. induction m as [|m IH]; intros k s HB H1 H2; cbn [seq forS].
  - intros [= <-]. rewrite Nat.add_0_r. auto.
  - destruct (addBond k s) as [[[]|e] s1] eqn:E; [|discriminate].
    intros H. destruct (addBond_bonded B k s s1 HB H1 H2 E) as (HB1 & H11 & H21).
    replace (k + S m)%nat with (S k + m)%nat by lia.
    exact (IH (S k) s1 HB1 H11 H21 H).
Qed.

(** The graph that [initialize] builds holds the bonds it is given. *)
Lemma initialize_bonded (atoms0 : list Atom.t) (bonds0 : list Bond.t) (s : Structure) :
  initialize atoms0 bonds0 = (Ok (), s) -> bonded s.
Proof.
  unfold initialize.
  destruct (forS addAtom _ _) as [[[]|e] s1] eqn:E1; [|discriminate].
  apply addAtoms_graph in E1 as (Ha1 & Hb1 & Hg1). simpl in *.
  intros H.
  apply (addBonds_bonded bonds0 (length bonds0) 0 s1 s Hb1) in H as (HB & H1 & H2).
  - unfold bonded. rewrite HB. split.
    + intros x y j Hj. exact (proj2 (H1 _ _ _ Hj)).
    + intros b x y Hin Hj. apply list_elem_of_lookup in Hin as [j Hb].
      apply (H2 j b); [|exact Hb | exact Hj]. simpl. eapply lookup_lt_Some, Hb.
  - intros x y j. unfold edge_between. rewrite Hg1.
    destruct (dict.get x _) as [adj|] eqn:Eadj; simpl; [|discriminate].
    apply dict_get_fresh in Eadj. subst adj. discriminate.
  - intros j b x y Hlt. lia.
Qed.

(** *** What [fromAdjacencyList] builds *)

Lemma atom_line_blank `{R : Registry} (line : string) (st : adjlist.locals) :
  blank line = true -> adjlist.atom_line st line = Ok st.
Proof. unfold adjlist.atom_line, blank. intros ->. reflexivity. Qed.

Lemma atom_lines_skip_blank `{R : Registry} (ls : list string) (st : adjlist.locals) :
  foldM adjlist.atom_line st ls
  = foldM adjlist.atom_line st (List.filter (fun l => negb (blank l)) ls).
Proof.
  revert st. induction ls as [|l ls IH]; intros st; [reflexivity|].
  cbn [foldM List.filter]. destruct (blank l) eqn:Eb; cbn [negb].
  - rewrite (atom_line_blank l st Eb). simpl. apply IH.
  - cbn [foldM]. destruct (adjlist.atom_line st l); simpl; [apply IH | reflexivity].
Qed.

(** X9.  [fromAdjacencyList] ignores blank lines: two texts with the same
    first line and, after it, the same lines once those that hold nothing but
    blanks are left out, are parsed alike (same outcome, same Structure). *)
Theorem fromAdjacencyList_skips_blank_lines `{R : Registry} (text1 text2 label : string)
    (lines1 lines2 : list string) (self : Structure) :
  pystr.splitlines text1 = label :: lines1 ->
  pystr.splitlines text2 = label :: lines2 ->
  List.filter (fun l => negb (blank l)) lines1
  = List.filter (fun l => negb (blank l)) lines2 ->
  fromAdjacencyList text1 self = fromAdjacencyList text2 self.
Proof.
  intros H1 H2 Hf. unfold fromAdjacencyList, adjlist.try_block.
  rewrite H1, H2, (atom_lines_skip_blank lines1), (atom_lines_skip_blank lines2), Hf.
  reflexivity.
Qed.

Lemma split_sep_from_nonempty (sep : ascii) (cur s : string) :
  pystr.split_sep_from sep cur s <> [].
Proof.
  revert cur. induction s as [|c s IH]; intros cur; simpl; [discriminate|].
  destruct (Ascii.eqb c sep); [discriminate | apply IH].
Qed.

Lemma candidates_nonempty (x : string) (l : list string) :
  adjlist.candidates x = Ok l -> l <> [].
Proof.
  unfold adjlist.candidates. intros H. apply bind_Ok in H as (c & _ & [= <-]).
  destruct (Ascii.eqb c "{"); [apply split_sep_from_nonempty | discriminate].
Qed.

Lemma mapM_length {A B} (f : A -> result B) (l : list A) (ys : list B) :
  mapM f l = Ok ys -> length ys = length l.
Proof.
  revert ys. induction l as [|x l IH]; intros ys; simpl.
  - intros [= <-]. reflexivity.
  - intros H. apply bind_Ok in H as (y & _ & H). apply bind_Ok in H as (ys' & H & [= <-]).
    simpl. f_equal. apply IH. exact H.
Qed.

Lemma mapM_Forall2 {A B} (f : A -> result B) (l : list A) (ys : list B) :
  mapM f l = Ok ys -> Forall2 (fun x y => f x = Ok y) l ys.
Proof.
  revert ys. induction l as [|x l IH]; intros ys; simpl.
  - intros [= <-]. constructor.
  - intros H. apply bind_Ok in H as (y & Hy & H). apply bind_Ok in H as (ys' & H & [= <-]).
    constructor; [exact Hy | apply IH; exact H].
Qed.

Lemma mapM_returns {A B} (f : A -> result B) (l : list A) :
  Forall (fun x => exists y, f x = Ok y) l -> exists ys, mapM f l = Ok ys.
Proof.
  induction 1 as [|x l [y Hy] _ [ys IH]]; simpl; [eauto|].
  rewrite Hy. simpl. rewrite IH. simpl. eauto.
Qed.

Lemma mk_attr_chosen {A} (l : list A) : l <> [] -> chosen (mk_attr l).
Proof. destruct l as [|x [|y l]]; [congruence | discriminate | discriminate]. Qed.

Lemma mapM_nonempty {A B} (f : A -> result B) (l : list A) (ys : list B) :
  mapM f l = Ok ys -> l <> [] -> ys <> [].
Proof.
  intros H Hl Hys. apply mapM_length in H. subst ys. destruct l; [congruence | discriminate].
Qed.

Lemma Atom_new_chosen `{R : Registry} (types states : list string) (charge : Z)
    (label : string) (a : Atom.t) :
  types <> [] -> states <> [] -> Atom.new types states charge label = Ok a ->
  chosen (Atom.atomType a) /\ chosen (Atom.electronState a).
Proof.
  intros Ht Hs H. unfold Atom.new in H.
  apply bind_Ok in H as (ts & Hts & H). apply bind_Ok in H as (es & Hes & [= <-]).
  simpl. split; apply mk_attr_chosen; eapply mapM_nonempty; eauto.
Qed.

Lemma Bond_new_chosen `{R : Registry} (p : nat * nat) (types : list string) (b : Bond.t) :
  types <> [] -> Bond.new p types = Ok b -> chosen (Bond.bondType b).
Proof.
  intros Ht H. unfold Bond.new in H. apply bind_Ok in H as (ts & Hts & [= <-]).
  simpl. apply mk_attr_chosen. eapply mapM_nonempty; eauto.
Qed.

Lemma bond_entry_presentable `{R : Registry} (aid : Z) (st st' : adjlist.locals)
    (datum : string) :
  adjlist.bond_entry aid st datum = Ok st' ->
  adjlist.atoms st' = adjlist.atoms st
  /\ (presentable (adjlist.atoms st) (adjlist.bonds st) ->
      presentable (adjlist.atoms st') (adjlist.bonds st')).
Proof.
  unfold adjlist.bond_entry.
  destruct (pystr.partition _ _) as [[aid2s comma] btypes].
  intros H. apply bind_Ok in H as (aid2 & _ & H).
  apply bind_Ok in H as (btype & Hbt & H). apply candidates_nonempty in Hbt.
  apply bind_Ok in H as (st1 & H1 & H).
  apply bind_Ok in H as (row & _ & [= <-]). simpl.
  destruct (adjlist.atomdict st !! aid2) as [atom2|].
  - apply bind_Ok in H1 as (atom1 & _ & H1).
    apply bind_Ok in H1 as (bond & Hn & [= <-]). simpl.
    split; [reflexivity|]. intros [Ha Hb]. split; [exact Ha|].
    apply Forall_app. split; [exact Hb|]. apply Forall_singleton.
    exact (Bond_new_chosen _ _ _ Hbt Hn).
  - injection H1 as <-. auto.
Qed.

Lemma bond_entries_presentable `{R : Registry} (aid : Z) (data : list string)
    (st st' : adjlist.locals) :
  foldM (adjlist.bond_entry aid) st data = Ok st' ->
  adjlist.atoms st' = adjlist.atoms st
  /\ (presentable (adjlist.atoms st) (adjlist.bonds st) ->
      presentable (adjlist.atoms st') (adjlist.bonds st')).
Proof.
  revert st. induction data as [|d data IH]; intros st; simpl.
  - intros [= <-]. auto.
  - intros H. apply bind_Ok in H as (st1 & H1 & H).
    apply bond_entry_presentable in H1 as [Ha1 Hp1].
    apply IH in H as [Ha Hp]. split; [congruence | auto].
Qed.

Lemma atom_line_presentable `{R : Registry} (st st' : adjlist.locals) (line : string) :
  adjlist.atom_line st line = Ok st' ->
  length (adjlist.atoms st')
  = (length (adjlist.atoms st) + if blank line then 0 else 1)%nat
  /\ (presentable (adjlist.atoms st) (adjlist.bonds st) ->
      presentable (adjlist.atoms st') (adjlist.bonds st')).
Proof.
  unfold adjlist.atom_line, blank.
  destruct (Nat.eqb _ 0); [intros [= <-]; split; [lia | auto]|].
  intros H. apply bind_Ok in H as (d0 & _ & H).
  apply bind_Ok in H as (aid & _ & H).
  apply bind_Ok in H as (d1 & _ & H).
  apply bind_Ok in H as (c & _ & H).
  destruct (if Ascii.eqb c "*" then _ else _) as [center idx].
  apply bind_Ok in H as (el & _ & H).
  apply bind_Ok in H as (els & Hels & H). apply candidates_nonempty in Hels.
  apply bind_Ok in H as (es & _ & H).
  apply bind_Ok in H as (ess & Hess & H). apply candidates_nonempty in Hess.
  apply bind_Ok in H as (atom & Hatom & H).
  apply bond_entries_presentable in H as [Ha Hp]. simpl in *.
  split.
  - rewrite Ha, length_app. reflexivity.
  - intros [HA HB]. apply Hp. split; [|exact HB].
    apply Forall_app. split; [exact HA|]. apply Forall_singleton.
    exact (Atom_new_chosen _ _ _ _ _ Hels Hess Hatom).
Qed.

Lemma atom_lines_presentable `{R : Registry} (ls : list string) (st st' : adjlist.locals) :
  foldM adjlist.atom_line st ls = Ok st' ->
  length (adjlist.atoms st')
  = (length (adjlist.atoms st) + length (List.filter (fun l => negb (blank l)) ls))%nat
  /\ (presentable (adjlist.atoms st) (adjlist.bonds st) ->
      presentable (adjlist.atoms st') (adjlist.bonds st')).
Proof.
  revert st. induction ls as [|l ls IH]; intros st; cbn [foldM List.filter].
  - intros [= <-]. split; [simpl; lia | auto].
  - intros H. apply bind_Ok in H as (st1 & H1 & H).
    apply atom_line_presentable in H1 as [Hn1 Hp1].
    apply IH in H as [Hn Hp]. split; [|auto].
    rewrite Hn, Hn1. destruct (blank l); simpl; lia.
Qed.

(** What a successful parse has built, from the text. *)
Lemma fromAdjacencyList_built `{R : Registry} (text : string) (self s : Structure) :
  fromAdjacencyList text self = (Ok (), s) ->
  exists label lines,
    pystr.splitlines text = label :: lines
    /\ length (atomObjs s) = length (List.filter (fun l => negb (blank l)) lines)
    /\ presentable (atomObjs s) (bondObjs s)
    /\ wired s.
Proof.
  unfold fromAdjacencyList, adjlist.try_block.
  destruct (pystr.splitlines text) as [|label lines]; [discriminate|].
  destruct (foldM adjlist.atom_line adjlist.start lines) as [st|e] eqn:E; [|discriminate].
  destruct (adjlist.check _ _) as [[]|e]; [|discriminate].
  intros H. apply initialize_wired in H as (Ha & Hb & Hw).
  apply atom_lines_presentable in E as [Hn Hp].
  exists label, lines. split; [reflexivity|]. rewrite Ha, Hb.
  split; [exact Hn|]. split; [|exact Hw].
  apply Hp. split; constructor.
Qed.

Lemma fromAdjacencyList_bonded `{R : Registry} (text : string) (self s : Structure) :
  fromAdjacencyList text self = (Ok (), s) -> bonded s.
Proof.
  unfold fromAdjacencyList.
  destruct (adjlist.try_block text) as [label [st|e]]; [|discriminate].
  destruct (adjlist.check _ _) as [[]|e]; [|discriminate].
  apply initialize_bonded.
Qed.

(** X10.  The Structure that [fromAdjacencyList] builds has one atom object
    for each line after the first that is not blank, and [atoms()] holds
    exactly these atoms, each once (in whatever order the graph lists its
    vertices).  Its graph holds the bonds built and nothing else: every
    neighbour recorded is one of these atoms, every edge is one of the bond
    objects built and joins the two atoms, and every bond object built
    gives an edge between the atoms that it joins. *)
Theorem fromAdjacencyList_one_atom_per_line `{R : Registry} (text : string)
    (self s : Structure) :
  fromAdjacencyList text self = (Ok (), s) ->
  exists label lines,
    pystr.splitlines text = label :: lines
    /\ length (atomObjs s) = length (List.filter (fun l => negb (blank l)) lines)
    /\ atoms s ≡ₚ seq 0 (length (atomObjs s))
    /\ (forall atom adj, getBonds s atom = Ok adj ->
          Forall (fun e : nat * nat => e.1 ∈ atoms s
                                       /\ is_Some (bondObjs s !! e.2)) adj)
    /\ bonded s.
Proof.
  intros H. pose proof (fromAdjacencyList_bonded _ _ _ H) as Hbonded.
  apply fromAdjacencyList_built in H as (label & lines & Hl & Hn & _ & Hv & Hw).
  exists label, lines. split; [exact Hl|]. split; [exact Hn|].
  split; [rewrite Hv; reflexivity|]. split; [|exact Hbonded].
  intros atom adj Hadj. unfold getBonds, graph.getEdges in Hadj.
  apply or_raise_Ok in Hadj. apply Hw in Hadj.
  eapply List.Forall_impl; [|exact Hadj]. simpl. intros e [H1 H2]. split.
  - rewrite Hv. apply elem_of_seq. lia.
  - apply lookup_lt_is_Some. exact H2.
Qed.

Lemma index_returns (x : nat) (l : list nat) : x ∈ l -> exists i, index x l = Ok i.
Proof.
  induction l as [|y l IH]; intros Hin; [by apply elem_of_nil in Hin|].
  simpl. destruct (Nat.eqb_spec y x) as [_|Hne]; [eauto|].
  apply elem_of_cons in Hin as [->|Hin]; [contradiction|].
  destruct (IH Hin) as [i ->]. simpl. eauto.
Qed.

Lemma braced_returns (l : list string) : l <> [] -> exists t, braced l = Ok t.
Proof. destruct l; [congruence | simpl; eauto]. Qed.

Lemma dict_keys_get {V} (k : nat) (d : list (nat * V)) :
  k ∈ map fst d -> exists v, dict.get k d = Some v.
Proof.
  induction d as [|[k0 v0] d IH]; simpl; intros Hin; [by apply elem_of_nil in Hin|].
  destruct (Nat.eqb_spec k0 k) as [_|Hne]; [eauto|].
  apply elem_of_cons in Hin as [->|Hin]; [contradiction | exact (IH Hin)].
Qed.

Lemma toAdjacencyList_returns (s : Structure) (label : string) :
  wired s -> presentable (atomObjs s) (bondObjs s) ->
  exists text, toAdjacencyList s label = Ok text.
Proof.
  intros [Hv Hw] [HA HB]. unfold toAdjacencyList.
  destruct (mapM_returns (atom_text s (atoms s)) (imap (fun i a => (i, a)) (atoms s)))
    as [ls Hls]; [|rewrite Hls; simpl; eauto].
  apply list.Forall_forall. intros [i atom] Hin.
  apply elem_of_lookup_imap in Hin as (i' & atom' & [= -> ->] & Hi).
  assert (Hatom : atom' ∈ atoms s) by (eapply list_elem_of_lookup_2; exact Hi).
  assert (Hlt : (atom' < length (atomObjs s))%nat).
  { rewrite Hv in Hatom. apply elem_of_seq in Hatom. lia. }
  destruct (lookup_lt_is_Some_2 _ _ Hlt) as [a Ha].
  destruct (Forall_lookup_1 _ _ _ _ HA Ha) as [Hty Hes].
  unfold atom_text, atomObj. rewrite Ha. simpl.
  assert (Ety : exists t, match Atom.atomType a with
                          | Ambiguous l => t ← braced (map AtomType.label l); Ok (t +:+ " ")
                          | Resolved t => Ok (AtomType.label t +:+ " ")
                          end = Ok t).
  { destruct (Atom.atomType a) as [t|l]; [eauto|].
    destruct (braced_returns (map AtomType.label l)) as [t ->]; [|simpl; eauto].
    destruct l; [by destruct Hty | discriminate]. }
  destruct Ety as [ty ->]. simpl.
  assert (Ees : exists t, match Atom.electronState a with
                          | Ambiguous l => braced (map ElectronState.label l)
                          | Resolved e => Ok (ElectronState.label e +:+ " ")
                          end = Ok t).
  { destruct (Atom.electronState a) as [t|l]; [eauto|].
    apply braced_returns. destruct l; [by destruct Hes | discriminate]. }
  destruct Ees as [es ->]. simpl.
  destruct (dict_keys_get atom' (graph s) Hatom) as [adj Hadj].
  unfold getBonds, graph.getEdges. rewrite Hadj. simpl.
  destruct (mapM_returns (bond_text s (atoms s)) adj) as [bs ->]; [|simpl; eauto].
  apply Hw in Hadj. eapply List.Forall_impl; [|exact Hadj]. simpl.
  intros [atom2 bond] [H1 H2]. simpl in *. unfold bond_text.
  destruct (index_returns atom2 (atoms s)) as [j ->].
  { rewrite Hv. apply elem_of_seq. lia. }
  simpl. destruct (lookup_lt_is_Some_2 _ _ H2) as [b Hb].
  unfold bondObj. rewrite Hb. simpl.
  pose proof (Forall_lookup_1 _ _ _ _ HB Hb) as Hbt. simpl in Hbt.
  destruct (Bond.bondType b) as [t|l]; simpl; [eauto|].
  destruct (braced_returns (map BondType.label l)) as [t ->]; [|simpl; eauto].
  destruct l; [by destruct Hbt | discriminate].
Qed.

(** X11.  Every Structure that [fromAdjacencyList] builds can be written
    back: [toAdjacencyList] returns a text for it, whatever the label (no
    [ValueError] from [atoms.index], no [IndexError] on a list of candidates,
    no [KeyError] from [getBonds]). *)
Theorem parsed_Structure_is_printable `{R : Registry} (text label : string)
    (self s : Structure) :
  fromAdjacencyList text self = (Ok (), s) ->
  exists out, toAdjacencyList s label = Ok out.
Proof.
  intros H. apply fromAdjacencyList_built in H as (l & ls & _ & _ & Hp & Hw).
  apply toAdjacencyList_returns; assumption.
Qed.

Lemma atom_line_not_short `{R : Registry} (st st' : adjlist.locals) (line : string) :
  adjlist.atom_line st line = Ok st' -> short_line line = false.
Proof.
  unfold adjlist.atom_line, short_line, adjlist.item.
  destruct (pystr.split line) as [|d0 [|d1 [|d2 [|d3 data]]]]; intros H;
    try reflexivity; simpl in H.
  - apply bind_Ok in H as (aid & _ & H). discriminate.
  - apply bind_Ok in H as (aid & _ & H).
    apply bind_Ok in H as (c & _ & H).
    destruct (Ascii.eqb c "*"); simpl in H; [discriminate|].
    apply bind_Ok in H as (els & _ & H). discriminate.
  - apply bind_Ok in H as (aid & _ & H).
    apply bind_Ok in H as (c & Hc & H).
    destruct d1 as [|c1 d1]; [discriminate|]. injection Hc as <-.
    destruct (Ascii.eqb c1 "*"); [|reflexivity]. simpl in H.
    apply bind_Ok in H as (els & _ & H). discriminate.
  - destruct d1; reflexivity.
Qed.

Lemma foldM_raises {A S} (f : S -> A -> result S) (l : list A) (x : A) :
  x ∈ l -> (forall s s', f s x <> Ok s') -> forall s s', foldM f s l <> Ok s'.
Proof.
  intros Hin Hx. induction l as [|y l IH]; [by apply elem_of_nil in Hin|].
  intros s s' H. simpl in H. apply bind_Ok in H as (s1 & H1 & H).
  apply elem_of_cons in Hin as [<-|Hin].
  - exact (Hx _ _ H1).
  - exact (IH Hin _ _ H).
Qed.

(** X12.  An atom line needs an atom id, an element and an electron state:
    if any line after the first holds only one or two items, or three of
    which the second is a center label (it starts with '*'),
    [fromAdjacencyList] raises [InvalidAdjacencyListException] with the
    first line as label, whatever the other lines, and leaves the Structure
    alone. *)
Theorem fromAdjacencyList_short_line `{R : Registry} (text label line : string)
    (lines : list string) (self : Structure) :
  pystr.splitlines text = label :: lines ->
  line ∈ lines -> short_line line = true ->
  fromAdjacencyList text self = (Raise (InvalidAdjacencyListException label), self).
Proof.
  intros Hl Hin Hs. unfold fromAdjacencyList, adjlist.try_block. rewrite Hl.
  destruct (foldM adjlist.atom_line adjlist.start lines) as [st|e] eqn:E; [|reflexivity].
  exfalso. revert E. apply (foldM_raises _ _ line Hin).
  intros s s' H. apply atom_line_not_short in H. congruence.
Qed.

(** *** [copy] *)

Lemma index_lookup (x : nat) (l : list nat) (i : nat) : index x l = Ok i -> l !! i = Some x.
Proof.
  revert i. induction l as [|y l IH]; intros i; simpl; [discriminate|].
  destruct (Nat.eqb_spec y x) as [->|Hne].
  - intros [= <-]. reflexivity.
  - destruct (index x l) as [j|e]; simpl; [|discriminate].
    intros [= <-]. simpl. apply IH. reflexivity.
Qed.

Lemma copy_bond_copied (s : Structure) (bond : nat) (b' : Bond.t) :
  copy_bond s bond = Ok b' -> copied_bond s bond b'.
Proof.
  unfold copy_bond. intros H.
  apply bind_Ok in H as (b & Hb & H). apply or_raise_Ok in Hb.
  apply bind_Ok in H as (i1 & H1 & H). apply bind_Ok in H as (i2 & H2 & [= <-]).
  exists b. simpl. split; [exact Hb|]. split; [reflexivity|].
  split; apply index_lookup; assumption.
Qed.

Lemma copy_built (s s' : Structure) :
  copy s = Ok s' ->
  Forall2 (fun atom a' => atomObjs s !! atom = Some a') (atoms s) (atomObjs s')
  /\ Forall2 (copied_bond s) (bonds s) (bondObjs s')
  /\ wired s'.
Proof.
  unfold copy. intros H.
  apply bind_Ok in H as (atoms' & Ha & H). apply bind_Ok in H as (bonds' & Hb & H).
  destruct (initialize atoms' bonds') as [[[]|e] s1] eqn:E; [|discriminate].
  injection H as <-. apply initialize_wired in E as (-> & -> & Hw).
  split; [|split; [|exact Hw]].
  - apply mapM_Forall2 in Ha. eapply list.Forall2_impl; [exact Ha|]. simpl.
    intros atom a'. unfold atomObj, Atom.copy.
    destruct (atomObjs s !! atom); simpl; congruence.
  - apply mapM_Forall2 in Hb. eapply list.Forall2_impl; [exact Hb|].
    apply copy_bond_copied.
Qed.

Lemma copy_bonded (s s' : Structure) : copy s = Ok s' -> bonded s'.
Proof.
  unfold copy. intros H.
  apply bind_Ok in H as (atoms' & _ & H). apply bind_Ok in H as (bonds' & _ & H).
  destruct (initialize atoms' bonds') as [[[]|e] s1] eqn:E; [|discriminate].
  injection H as <-. eapply initialize_bonded, E.
Qed.

(** X13.  [copy()] returns a Structure of its own objects.  The new atom
    objects are, in the order in which they are made, copies of the atoms of
    [atoms()], each with the type, electron state, charge and label of its
    original, and the [atoms()] of the copy holds exactly these, each once.
    The new bond objects are the copies of [bonds()], each with the type of
    its original and between the copies of the two atoms that the original
    joins.  The graph of the copy holds these bonds and nothing else: every
    edge is one of the new bonds and joins the two atoms, and every new bond
    gives an edge between the atoms that it joins. *)
Theorem copy_keeps_atoms_and_bonds (s s' : Structure) :
  copy s = Ok s' ->
  Forall2 (fun atom a' => atomObjs s !! atom = Some a') (atoms s) (atomObjs s')
  /\ atoms s' ≡ₚ seq 0 (length (atoms s))
  /\ Forall2 (copied_bond s) (bonds s) (bondObjs s')
  /\ (forall atom adj, getBonds s' atom = Ok adj ->
        Forall (fun e : nat * nat => e.1 ∈ atoms s' /\ is_Some (bondObjs s' !! e.2)) adj)
  /\ bonded s'.
Proof.
  intros H. pose proof (copy_bonded _ _ H) as Hbonded.
  apply copy_built in H as (Ha & Hb & Hv & Hw).
  split; [exact Ha|].
  split; [rewrite Hv, (Forall2_length Ha); reflexivity|].
  split; [exact Hb|]. split; [|exact Hbonded].
  intros atom adj Hadj. unfold getBonds, graph.getEdges in Hadj.
  apply or_raise_Ok in Hadj. apply Hw in Hadj.
  eapply List.Forall_impl; [|exact Hadj]. simpl. intros e [H1 H2]. split.
  - rewrite Hv. apply elem_of_seq. lia.
  - apply lookup_lt_is_Some. exact H2.
Qed.

(** The atoms of the copy, in order, are in the state of the atoms of the
    original. *)
Lemma copy_atoms (s s' : Structure) :
  copy s = Ok s' ->
  Forall2 (fun atom atom' => atomObj s atom = atomObj s' atom') (atoms s) (atoms s').
Proof.
  intros H. apply copy_built in H as (Ha & _ & Hv & _). rewrite Hv.
  apply Forall2_same_length_lookup_2.
  - rewrite length_seq. eapply Forall2_length; exact Ha.
  - intros i atom atom' Hi Hi'. apply lookup_seq in Hi' as [-> Hlt]. simpl.
    destruct (lookup_lt_is_Some_2 _ _ Hlt) as [a' Ha'].
    unfold atomObj. rewrite Ha'.
    rewrite (Forall2_lookup_lr _ _ _ _ _ _ Ha Hi Ha'). reflexivity.
Qed.

Lemma radical_fold_same (s s' : Structure) (l l' : list nat) (acc : Z) :
  Forall2 (fun atom atom' => atomObj s atom = atomObj s' atom') l l' ->
  foldM (fun radical atom => a ← atomObj s atom; n ← Atom.order a; Ok (radical + n)) acc l
  = foldM (fun radical atom => a ← atomObj s' atom; n ← Atom.order a; Ok (radical + n))
          acc l'.
Proof.
  intros H. revert acc. induction H as [|x y l l' Hxy _ IH]; intros acc; [reflexivity|].
  cbn [foldM]. rewrite Hxy.
  destruct (atomObj s' y ≫= _) as [acc'|e]; simpl; [apply IH | reflexivity].
Qed.

Lemma anyLabeled_same (s s' : Structure) (label : string) (l l' : list nat) :
  Forall2 (fun atom atom' => atomObj s atom = atomObj s' atom') l l' ->
  anyLabeled s label l = anyLabeled s' label l'.
Proof.
  induction 1 as [|x y l l' Hxy _ IH]; [reflexivity|].
  simpl. rewrite Hxy. destruct (atomObj s' y) as [a|]; simpl; [|reflexivity].
  destruct (String.eqb (Atom.label a) label); [reflexivity | exact IH].
Qed.

Lemma copy_radical (s s' : Structure) :
  copy s = Ok s' -> getRadicalCount s' = getRadicalCount s.
Proof.
  intros H. symmetry. apply radical_fold_same, copy_atoms, H.
Qed.

(** X14.  A copy answers as its original: [getRadicalCount()] gives the
    same number (or raises alike) and [containsLabeledAtom(label)] the same
    answer for every label. *)
Theorem copy_answers_alike (s s' : Structure) (label : string) :
  copy s = Ok s' ->
  getRadicalCount s' = getRadicalCount s
  /\ containsLabeledAtom s' label = containsLabeledAtom s label.
Proof.
  intros H. split; [exact (copy_radical _ _ H)|].
  symmetry. apply anyLabeled_same, copy_atoms, H.
Qed.

(** *** Radical counts and ambiguity sets *)

Lemma radical_fold_ambiguous (s : Structure) (pre post : list nat) (atom : nat)
    (a : Atom.t) (l : list ElectronState.t) (orders : list Z) (acc : Z) :
  Forall2 (radical_order s) pre orders ->
  atomObjs s !! atom = Some a -> Atom.electronState a = Ambiguous l ->
  foldM (fun radical atom => a ← atomObj s atom; n ← Atom.order a; Ok (radical + n))
        acc (pre ++ atom :: post)
  = Raise AttributeError.
Proof.
  intros Hpre Ha Hl. revert acc.
  induction Hpre as [|x n pre orders (ax & Hx & Hn) _ IH]; intros acc; cbn [foldM app].
  - assert (Ha' : atomObj s atom = Ok a) by (unfold atomObj; rewrite Ha; reflexivity).
    rewrite Ha'. unfold Atom.order. simpl. rewrite Hl. reflexivity.
  - assert (Hx' : atomObj s x = Ok ax) by (unfold atomObj; rewrite Hx; reflexivity).
    rewrite Hx'. simpl. rewrite Hn. simpl. apply IH.
Qed.

(** X15.  A Structure in which an atom of [atoms()] holds a list of
    electron states, while the atoms before it hold one each, has no radical
    count: [getRadicalCount()] raises [AttributeError] (a list has no
    [order]), and so does [getAdjacentResonanceIsomers()], which leaves the
    Structure untouched. *)
Theorem ambiguous_electrons_no_count `{R : Registry} (s : Structure) (pre post : list nat)
    (atom : nat) (a : Atom.t) (l : list ElectronState.t) (orders : list Z) :
  atoms s = pre ++ atom :: post ->
  Forall2 (radical_order s) pre orders ->
  atomObjs s !! atom = Some a -> Atom.electronState a = Ambiguous l ->
  getRadicalCount s = Raise AttributeError
  /\ getAdjacentResonanceIsomers s = (Raise AttributeError, s).
Proof.
  intros Hat Hpre Ha Hl.
  assert (H : getRadicalCount s = Raise AttributeError).
  { unfold getRadicalCount. rewrite Hat. eapply radical_fold_ambiguous; eauto. }
  split; [exact H|]. unfold getAdjacentResonanceIsomers. rewrite H. reflexivity.
Qed.

(** *** The isomers that [getAdjacentResonanceIsomers] returns *)

Lemma foldM_ext {A S} (f g : S -> A -> result S) (l : list A) (s : S) :
  (forall s x, f s x = g s x) -> foldM f s l = foldM g s l.
Proof.
  intros H. revert s. induction l as [|x l IH]; intros s; simpl; [reflexivity|].
  rewrite H. destruct (g s x); simpl; [apply IH | reflexivity].
Qed.

Lemma allyl_step_same (s s' : Structure) (atom1 atom2 bond12 : nat) (paths : list path)
    (e : nat * nat) :
  bondObjs s' = bondObjs s ->
  allyl_step s' atom1 atom2 bond12 paths e = allyl_step s atom1 atom2 bond12 paths e.
Proof. unfold allyl_step, bondObj. intros ->. reflexivity. Qed.

Lemma vinyl_step_same (s s' : Structure) (atom1 : nat) (paths : list path) (e : nat * nat) :
  bondObjs s' = bondObjs s -> graph s' = graph s ->
  vinyl_step s' atom1 paths e = vinyl_step s atom1 paths e.
Proof.
  intros Hb Hg. unfold vinyl_step, bondObj, getBonds. rewrite Hb, Hg.
  destruct e as [atom2 bond12].
  destruct (or_raise DanglingHandle (bondObjs s !! bond12)) as [b12|]; simpl; [|reflexivity].
  destruct (Bond.canIncreaseOrder b12) as [[]|]; simpl; try reflexivity.
  destruct (graph.getEdges (graph s) atom2) as [adj2|]; simpl; [|reflexivity].
  apply foldM_ext. intros ps e. apply allyl_step_same, Hb.
Qed.

Lemma same_atom_order (a a' : Atom.t) : same_atom a a' -> Atom.order a' = Atom.order a.
Proof.
  intros (_ & _ & _ & H). unfold Atom.order, same_electrons in *.
  destruct (Atom.electronState a), (Atom.electronState a'); congruence.
Qed.

(** The paths depend on the orders only. *)
Lemma findAllDelocalizationPaths_unchanged (s s' : Structure) (atom1 : nat) :
  unchanged s s' ->
  findAllDelocalizationPaths s' atom1 = findAllDelocalizationPaths s atom1.
Proof.
  intros (Hg & Hb & Ha). unfold findAllDelocalizationPaths.
  assert (Ho : (atomObj s' atom1 ≫= Atom.order) = (atomObj s atom1 ≫= Atom.order)).
  { unfold atomObj. destruct (atomObjs s !! atom1) as [a|] eqn:E.
    - destruct (Forall2_lookup_l _ _ _ _ _ Ha E) as (a' & -> & Hs). simpl.
      apply same_atom_order, Hs.
    - assert (E' : atomObjs s' !! atom1 = None).
      { apply lookup_ge_None. rewrite <- (Forall2_length Ha).
        apply lookup_ge_None. exact E. }
      rewrite E'. reflexivity. }
  destruct (atomObj s' atom1) as [a'|e'], (atomObj s atom1) as [a|e]; simpl in *;
    try congruence.
  - rewrite Ho. destruct (Atom.order a) as [n|]; simpl; [|reflexivity].
    destruct (n <=? 0); [reflexivity|].
    unfold getBonds. rewrite Hg.
    destruct (graph.getEdges (graph s) atom1) as [adj1|]; simpl; [|reflexivity].
    apply foldM_ext. intros ps e. apply vinyl_step_same; assumption.
  - destruct (Atom.order a') as [n|]; simpl in *; congruence.
  - destruct (Atom.order a) as [n|]; simpl in *; congruence.
Qed.

Section Isomers.
Context `{R : Registry} (HR : lawful R).

Lemma isomer_step_appends (p : path) (s0 : Structure) (st st' : Structure * list Structure) :
  shifted still still s0 st.1 ->
  isomer_step p st = (Ok (), st') ->
  exists isomer, st'.2 = st.2 ++ [isomer] /\ isomer_of s0 p isomer.
Proof.
  destruct p as [[[[atom1 atom2] atom3] bond12] bond23], st as [s isomers].
  simpl. intros H0.
  destruct (steps [decE atom1; incE atom3; incO bond12; decO bond23] s)
    as [[[]|] s1] eqn:E1; [|discriminate].
  destruct (copy s1) as [isomer|] eqn:Ec; [|discriminate].
  destruct (steps [incE atom1; decE atom3; decO bond12; incO bond23] s1)
    as [[[]|] s2] eqn:E2; [|discriminate].
  intros [= <-]. simpl. exists isomer. split; [reflexivity|].
  exists s1. split; [|exact Ec].
  apply steps4 in E1 as (a & b & c & A1 & A2 & A3 & A4).
  pose proof (decE_shifted HR _ _ _ _ _ _ H0 A1) as H1.
  pose proof (incE_shifted HR _ _ _ _ _ _ H1 A2) as H2.
  pose proof (incO_shifted HR _ _ _ _ _ _ H2 A3) as H3.
  exact (decO_shifted HR _ _ _ _ _ _ H3 A4).
Qed.

Lemma isomer_loop (paths : list path) (s0 : Structure)
    (st st' : Structure * list Structure) :
  shifted still still s0 st.1 ->
  forS isomer_step paths st = (Ok (), st') ->
  shifted still still s0 st'.1
  /\ exists new, st'.2 = st.2 ++ new /\ Forall2 (isomer_of s0) paths new.
Proof.
  revert st. induction paths as [|p paths IH]; intros st H0; cbn [forS].
  - intros [= <-]. split; [exact H0|]. exists []. rewrite app_nil_r. split; [reflexivity|].
    constructor.
  - destruct (isomer_step p st) as [[[]|e] st1] eqn:E; [|discriminate].
    intros H.
    pose proof (isomer_step_restores HR _ _ _ _ H0 E) as H1.
    destruct (isomer_step_appends _ _ _ _ H0 E) as (isomer & E1 & Hi).
    destruct (IH st1 H1 H) as (H2 & new & E2 & Hnew).
    split; [exact H2|]. exists (isomer :: new). split.
    + rewrite E2, E1, <- app_assoc. reflexivity.
    + constructor; assumption.
Qed.

Lemma radical_loop (l : list nat) (s0 : Structure) (st st' : Structure * list Structure) :
  shifted still still s0 st.1 ->
  forS radical_step l st = (Ok (), st') ->
  exists pss new,
    mapM (findAllDelocalizationPaths s0) l = Ok pss
    /\ st'.2 = st.2 ++ new /\ Forall2 (isomer_of s0) (concat pss) new.
Proof.
  revert st. induction l as [|atom l IH]; intros st H0; cbn [forS mapM].
  - intros [= <-]. exists [], []. rewrite app_nil_r. repeat split. constructor.
  - unfold radical_step at 1.
    rewrite (findAllDelocalizationPaths_unchanged s0 st.1 atom
               (shifted_still_unchanged _ _ H0)).
    destruct (findAllDelocalizationPaths s0 atom) as [paths|e]; [|discriminate].
    destruct (forS isomer_step paths st) as [[[]|e] st1] eqn:E; [|discriminate].
    intros H. destruct (isomer_loop _ _ _ _ H0 E) as (H1 & new1 & E1 & Hnew1).
    destruct (IH st1 H1 H) as (pss & new & Hpss & E2 & Hnew).
    exists (paths :: pss), (new1 ++ new). simpl. rewrite Hpss. simpl.
    split; [reflexivity|]. split.
    + rewrite E2, E1, <- app_assoc. reflexivity.
    + apply Forall2_app; assumption.
Qed.

Lemma isomers_by_paths (s s' : Structure) (isomers : list Structure) :
  getAdjacentResonanceIsomers s = (Ok isomers, s') ->
  exists radical,
    getRadicalCount s = Ok radical
    /\ if 0 <? radical
       then exists pss,
              mapM (findAllDelocalizationPaths s) (atoms s) = Ok pss
              /\ Forall2 (isomer_of s) (concat pss) isomers
       else isomers = [].
Proof.
  unfold getAdjacentResonanceIsomers.
  destruct (getRadicalCount s) as [radical|]; [|discriminate].
  intros H. exists radical. split; [reflexivity|].
  destruct (0 <? radical); [|injection H as <- _; reflexivity].
  destruct (forS radical_step (atoms s) (s, [])) as [[[]|] [s1 isomers1]] eqn:E;
    [|discriminate].
  injection H as <- <-.
  destruct (radical_loop (atoms s) s (s, []) (s1, isomers1) (shifted_refl s) E)
    as (pss & new & Hpss & E2 & Hnew).
  simpl in E2. subst isomers1. eauto.
Qed.

End Isomers.

(** X16.  If the order-changing methods move the order by one unit each,
    [getAdjacentResonanceIsomers()] returns one isomer for each
    delocalization path of each atom of [atoms()], the paths being those of
    the Structure as it was given, in the order in which they are found and
    with no duplicate removed; each isomer is a copy of the Structure with
    the shift along its path applied: one free electron less on [atom1], one
    more on [atom3], one order more for [bond12], one less for [bond23].
    With a radical count that is not positive the list is empty. *)
Theorem isomers_follow_paths `{R : Registry} (s s' : Structure) (isomers : list Structure) :
  lawful R ->
  getAdjacentResonanceIsomers s = (Ok isomers, s') ->
  exists radical,
    getRadicalCount s = Ok radical
    /\ if 0 <? radical
       then exists pss,
              mapM (findAllDelocalizationPaths s) (atoms s) = Ok pss
              /\ Forall2 (isomer_of s) (concat pss) isomers
       else isomers = [].
Proof. intros HR. apply isomers_by_paths, HR. Qed.

(** *** The radicals of an isomer *)

Lemma linkedb_linked (s : Structure) : linkedb s = true -> linked s.
Proof.
  unfold linkedb, linked. rewrite forallb_forall. intros H v adj Hget.
  apply dict_get_In in Hget. specialize (H _ Hget). simpl in H.
  rewrite forallb_forall in H. apply List.Forall_forall. intros e He.
  specialize (H e He). apply existsb_exists in H as (x & Hx & Heq).
  apply Nat.eqb_eq in Heq. subst x. apply list_elem_of_In. exact Hx.
Qed.

Lemma sum_still (l : list nat) : foldr (fun v t => still v + t) 0 l = 0.
Proof. induction l as [|x l IH]; simpl; [reflexivity|]. rewrite IH. reflexivity. Qed.

Lemma sum_bump (i : nat) (k : Z) (d : nat -> Z) (l : list nat) :
  NoDup l ->
  foldr (fun v t => bump i k d v + t) 0 l
  = foldr (fun v t => d v + t) 0 l + (if bool_decide (i ∈ l) then k else 0).
Proof.
  induction 1 as [|x l Hx Hnd IH]; simpl; [reflexivity|].
  rewrite IH. unfold bump at 1. destruct (Nat.eqb_spec x i) as [->|Hne].
  - rewrite (bool_decide_eq_true_2 (i ∈ i :: l)) by (by left).
    rewrite (bool_decide_eq_false_2 (i ∈ l)) by exact Hx. lia.
  - assert (Hb : bool_decide (i ∈ x :: l) = bool_decide (i ∈ l)).
    { apply bool_decide_ext. rewrite elem_of_cons. split; [|auto].
      intros [->|?]; [contradiction | assumption]. }
    rewrite Hb. lia.
Qed.

(** The shift along a path between atoms of [l] moves no electron in or
    out. *)
Lemma sum_shift (p : path) (l : list nat) :
  NoDup l -> p.1.1.1.1 ∈ l -> p.1.1.2 ∈ l ->
  foldr (fun v t => shift_atoms p v + t) 0 l = 0.
Proof.
  destruct p as [[[[atom1 atom2] atom3] bond12] bond23]. simpl. intros Hnd H1 H3.
  rewrite !sum_bump by exact Hnd. rewrite sum_still.
  rewrite (bool_decide_eq_true_2 _ H1), (bool_decide_eq_true_2 _ H3). reflexivity.
Qed.

Lemma shifted_radical_fold (da db : nat -> Z) (s s1 : Structure) (l : list nat) :
  shifted da db s s1 ->
  forall acc n d,
    foldM (fun radical atom => a ← atomObj s atom; n ← Atom.order a; Ok (radical + n))
          acc l = Ok n ->
    foldM (fun radical atom => a ← atomObj s1 atom; n ← Atom.order a; Ok (radical + n))
          (acc + d) l
    = Ok (n + d + foldr (fun v t => da v + t) 0 l).
Proof.
  intros (Hg & Hla & Hlb & Hat & Hbo).
  induction l as [|x l IH]; intros acc n d; cbn [foldM foldr].
  - intros [= <-]. f_equal. lia.
  - intros H. apply bind_Ok in H as (acc1 & H1 & H).
    apply bind_Ok in H1 as (a & Ha & H1). apply or_raise_Ok in Ha.
    apply bind_Ok in H1 as (k & Hk & [= <-]).
    destruct (lookup_lt_is_Some_2 (atomObjs s1) x) as [a1 Ha1].
    { rewrite Hla. eapply lookup_lt_Some, Ha. }
    assert (Hk1 : Atom.order a1 = Ok (k + da x)).
    { destruct (Hat _ _ _ Ha Ha1) as (_ & _ & _ & Hs).
      unfold Atom.order, shifted_attr in *.
      destruct (Atom.electronState a) as [e|]; [|discriminate].
      injection Hk as <-.
      destruct (Atom.electronState a1) as [e1|]; [congruence | destruct Hs; discriminate]. }
    assert (Hx : atomObj s1 x = Ok a1) by (unfold atomObj; rewrite Ha1; reflexivity).
    rewrite Hx. simpl. rewrite Hk1. simpl.
    replace (acc + d + (k + da x)) with (acc + k + (d + da x)) by lia.
    rewrite (IH _ _ _ H). f_equal. lia.
Qed.

Lemma shifted_radical (da db : nat -> Z) (s s1 : Structure) (n : Z) :
  shifted da db s s1 -> getRadicalCount s = Ok n ->
  getRadicalCount s1 = Ok (n + foldr (fun v t => da v + t) 0 (atoms s)).
Proof.
  intros Hs Hn. unfold getRadicalCount in *.
  assert (Hat : atoms s1 = atoms s) by (unfold atoms; f_equal; apply Hs).
  rewrite Hat. pose proof (shifted_radical_fold _ _ _ _ (atoms s) Hs 0 n 0 Hn) as H.
  change (0 + 0) with 0 in H. rewrite H. f_equal. lia.
Qed.

(** A path found from [atom] starts there and ends on a neighbour of a
    neighbour. *)
Lemma found_path_ends (s : Structure) (atom : nat) (paths : list path) (p : path) :
  findAllDelocalizationPaths s atom = Ok paths -> p ∈ paths ->
  p.1.1.1.1 = atom
  /\ exists adj2, getBonds s p.1.1.1.2 = Ok adj2 /\ (p.1.1.2, p.2) ∈ adj2.
Proof.
  unfold findAllDelocalizationPaths. intros H Hin.
  apply bind_Ok in H as (a1 & _ & H). apply bind_Ok in H as (n & _ & H).
  destruct (n <=? 0); [injection H as <-; by apply elem_of_nil in Hin|].
  apply bind_Ok in H as (adj1 & _ & H).
  apply (vinyl_loop _ _ _ _ _ H p) in Hin
    as [Hin|(a2 & b12 & a3 & b23 & adj2 & -> & _ & _ & Hadj & Hin2 & _)];
    [by apply elem_of_nil in Hin|].
  simpl. eauto.
Qed.

Lemma concat_found (s : Structure) (l : list nat) (pss : list (list path)) (p : path) :
  mapM (findAllDelocalizationPaths s) l = Ok pss -> p ∈ concat pss ->
  exists atom paths, atom ∈ l /\ findAllDelocalizationPaths s atom = Ok paths /\ p ∈ paths.
Proof.
  intros H. apply mapM_Forall2 in H. induction H as [|atom paths l pss Hf _ IH]; simpl.
  - intros Hin. by apply elem_of_nil in Hin.
  - intros Hin. apply elem_of_app in Hin as [Hin|Hin].
    + exists atom, paths. split; [by left | auto].
    + destruct (IH Hin) as (atom' & paths' & H1 & H2 & H3).
      exists atom', paths'. split; [by right | auto].
Qed.

(** X17.  In a Structure whose [atoms()] lists no atom twice and whose
    recorded neighbours are all atoms of the Structure, every isomer that
    [getAdjacentResonanceIsomers()] returns has as many atoms and the same
    radical count as the Structure (if the order-changing methods move the
    order by one unit): a shift moves a free electron from one atom to
    another, none in or out. *)
Theorem isomers_keep_radical_count `{R : Registry} (s s' : Structure)
    (isomers : list Structure) :
  lawful R -> NoDup (atoms s) -> linked s ->
  getAdjacentResonanceIsomers s = (Ok isomers, s') ->
  Forall (fun isomer => getRadicalCount isomer = getRadicalCount s
                        /\ atoms isomer = seq 0 (length (atoms s))) isomers.
Proof.
  intros HR Hnd Hlk H.
  apply (isomers_by_paths HR) in H as (radical & Hrad & H).
  destruct (0 <? radical); [|subst isomers; constructor].
  destruct H as (pss & Hpss & Hiso).
  apply list.Forall_forall. intros isomer Hin.
  apply list_elem_of_lookup in Hin as [i Hi].
  destruct (Forall2_lookup_r _ _ _ _ _ Hiso Hi) as (p & Hp & s1 & Hs1 & Hc).
  apply list_elem_of_lookup_2 in Hp.
  destruct (concat_found _ _ _ _ Hpss Hp) as (atom & paths & Hatom & Hf & Hpin).
  destruct (found_path_ends _ _ _ _ Hf Hpin) as (H1 & adj2 & Hadj & H3).
  assert (Hat : atoms s1 = atoms s) by (unfold atoms; f_equal; apply Hs1).
  split.
  - rewrite (copy_radical _ _ Hc), (shifted_radical _ _ _ _ _ Hs1 Hrad), Hrad.
    rewrite sum_shift; [f_equal; lia | exact Hnd | rewrite H1; exact Hatom |].
    unfold getBonds, graph.getEdges in Hadj. apply or_raise_Ok in Hadj.
    apply Hlk in Hadj. rewrite list.Forall_forall in Hadj. exact (Hadj _ H3).
  - apply copy_built in Hc as (Ha & _ & Hv & _). rewrite Hv, <- Hat. f_equal.
    symmetry. eapply Forall2_length; exact Ha.
Qed.

(** *** [toDOT] *)



Lemma colors_KeyError (label : string) :
  label ∉ color_labels -> colors label = Raise KeyError.
Proof.
  intros H. unfold colors.
  repeat match goal with
         | |- context [String.eqb label ?x] =>
             destruct (String.eqb_spec label x) as [->|_];
             [exfalso; apply H; unfold color_labels; set_solver|]
         end.
  reflexivity.
Qed.

Lemma colors_Ok (label : string) : label ∈ color_labels -> exists c, colors label = Ok c.
Proof.
  unfold color_labels. intros H. unfold colors.
  repeat (apply elem_of_cons in H as [->|H]; [simpl; eauto|]).
  by apply elem_of_nil in H.
Qed.

Lemma drawableb_all (s : Structure) (l : list nat) :
  forallb (drawableb s) l = true -> Forall (drawable s) l.
Proof.
  rewrite forallb_forall, List.Forall_forall. intros H atom Hin.
  specialize (H atom Hin). unfold drawableb in H. unfold drawable.
  destruct (atomObjs s !! atom) as [a|]; [|discriminate].
  exists a. split; [reflexivity|].
  destruct (candidates_of (Atom.atomType a)) as [|t ts]; [discriminate|].
  split; [discriminate|].
  apply orb_true_iff in H as [H|H].
  - left. apply String.eqb_eq, H.
  - right. apply existsb_exists in H as (x & Hx & Heq).
    apply String.eqb_eq in Heq. subst x. apply list_elem_of_In, Hx.
Qed.

Lemma vertex_text_returns (s : Structure) (i atom : nat) :
  drawable s atom -> exists t, vertex_text s (i, atom) = Ok t.
Proof.
  intros (a & Ha & Hty & Hl). unfold vertex_text, atomObj. rewrite Ha. simpl.
  destruct (candidates_of (Atom.atomType a)) as [|t ts]; [congruence|]. simpl.
  destruct (String.eqb_spec (Atom.label a) "") as [_|Hne]; simpl; [eauto|].
  destruct Hl as [Hl|Hl]; [contradiction|].
  destruct (colors_Ok _ Hl) as [c ->]. simpl. eauto.
Qed.

Lemma vertex_text_raises (s : Structure) (i atom : nat) (a : Atom.t) :
  atomObjs s !! atom = Some a -> candidates_of (Atom.atomType a) <> [] ->
  Atom.label a <> "" -> Atom.label a ∉ color_labels ->
  vertex_text s (i, atom) = Raise KeyError.
Proof.
  intros Ha Hty Hl Hc. unfold vertex_text, atomObj. rewrite Ha. simpl.
  destruct (candidates_of (Atom.atomType a)) as [|t ts]; [congruence|]. simpl.
  destruct (String.eqb_spec (Atom.label a) "") as [|_]; [contradiction|].
  rewrite (colors_KeyError _ Hc). reflexivity.
Qed.

Lemma vertices_raise (s : Structure) (pre post : list nat) (atom : nat) (a : Atom.t)
    (k : nat) :
  Forall (drawable s) pre ->
  atomObjs s !! atom = Some a -> candidates_of (Atom.atomType a) <> [] ->
  Atom.label a <> "" -> Atom.label a ∉ color_labels ->
  mapM (vertex_text s) (imap (fun i a => ((k + i)%nat, a)) (pre ++ atom :: post))
  = Raise KeyError.
Proof.
  intros Hpre Ha Hty Hl Hc. revert k.
  induction Hpre as [|x pre Hx _ IH]; intros k; cbn [app imap mapM].
  - rewrite (vertex_text_raises s (k + 0) atom a Ha Hty Hl Hc). reflexivity.
  - destruct (vertex_text_returns s (k + 0) x Hx) as [t ->]. simpl.
    assert (E : imap ((fun i a => ((k + i)%nat, a)) ∘ S) (pre ++ atom :: post)
                = imap (fun i a => ((S k + i)%nat, a)) (pre ++ atom :: post)).
    { apply imap_ext. intros i y _. simpl. f_equal. lia. }
    rewrite E, IH. reflexivity.
Qed.

(** X19.  [toDOT] raises [KeyError] when the first atom that it cannot
    draw is an atom with a label that has no color (a label other than '',
    '*', '*1', ..., '*6'). *)
Theorem toDOT_unknown_label (s : Structure) (label : string) (pre post : list nat)
    (atom : nat) (a : Atom.t) :
  atoms s = pre ++ atom :: post ->
  Forall (drawable s) pre ->
  atomObjs s !! atom = Some a -> candidates_of (Atom.atomType a) <> [] ->
  Atom.label a <> "" -> Atom.label a ∉ color_labels ->
  toDOT s label = Raise KeyError.
Proof.
  intros Hat Hpre Ha Hty Hl Hc. unfold toDOT. rewrite Hat.
  pose proof (vertices_raise s pre post atom a 0 Hpre Ha Hty Hl Hc) as H.
  change (mapM (vertex_text s) (imap (fun i a => (i, a)) (pre ++ atom :: post))
          = Raise KeyError) in H.
  rewrite H. reflexivity.
Qed.

Lemma fold_edges_elem (l acc : list nat) (x : nat) :
  x ∈ fold_left (fun acc e => if existsb (Nat.eqb e) acc then acc else acc ++ [e]) l acc ->
  x ∈ acc \/ x ∈ l.
Proof.
  revert acc. induction l as [|e l IH]; intros acc; simpl; [auto|].
  intros H. apply IH in H as [H|H]; [|right; by right].
  destruct (existsb (Nat.eqb e) acc); [auto|].
  apply elem_of_app in H as [H|H]; [auto|].
  apply list_elem_of_singleton in H. subst x. right. by left.
Qed.

Lemma edges_elem (g : graph.Graph) (x : nat) :
  x ∈ graph.edges g -> exists v adj v2, In (v, adj) g /\ In (v2, x) adj.
Proof.
  unfold graph.edges. intros H. apply fold_edges_elem in H as [H|H];
    [by apply elem_of_nil in H|].
  apply list_elem_of_In, in_flat_map in H as ([v adj] & Hva & H). simpl in H.
  apply in_map_iff in H as ([v2 e] & He & H). simpl in He. subst e. eauto.
Qed.

Lemma dict_In_get {V} (k : nat) (v : V) (d : list (nat * V)) :
  NoDup (map fst d) -> In (k, v) d -> dict.get k d = Some v.
Proof.
  induction d as [|[k0 v0] d IH]; simpl; intros Hnd Hin; [contradiction|].
  inversion Hnd as [|? ? Hk Hnd']; subst.
  destruct Hin as [[= -> ->]|Hin].
  - rewrite Nat.eqb_refl. reflexivity.
  - destruct (Nat.eqb_spec k0 k) as [->|_]; [|apply IH; assumption].
    exfalso. apply Hk. apply list_elem_of_In. apply (in_map fst) in Hin. exact Hin.
Qed.

Lemma fromAdjacencyList_bounded `{R : Registry} (text : string) (self s : Structure) :
  fromAdjacencyList text self = (Ok (), s) ->
  Forall (bounded (length (atomObjs s))) (bondObjs s).
Proof.
  unfold fromAdjacencyList.
  destruct (adjlist.try_block text) as [label [st|e]] eqn:E; [|discriminate].
  destruct (adjlist.check _ _) as [[]|e]; [|discriminate].
  intros H. apply initialize_wired in H as (-> & -> & _).
  apply try_block_closed in E. apply E.
Qed.

Lemma toDOT_returns (s : Structure) (label : string) :
  wired s -> Forall (drawable s) (atoms s) ->
  Forall (bounded (length (atomObjs s))) (bondObjs s) ->
  exists out, toDOT s label = Ok out.
Proof.
  intros [Hv Hw] Hd Hb. unfold toDOT.
  destruct (mapM_returns (vertex_text s) (imap (fun i a => (i, a)) (atoms s)))
    as [vs ->].
  { apply list.Forall_forall. intros [i atom] Hin.
    apply elem_of_lookup_imap in Hin as (i' & atom' & [= -> ->] & Hi).
    apply vertex_text_returns. rewrite list.Forall_forall in Hd. apply Hd.
    eapply list_elem_of_lookup_2; exact Hi. }
  simpl. destruct (mapM_returns (edge_text s) (bonds s)) as [es ->]; [|simpl; eauto].
  apply list.Forall_forall. intros bond Hin.
  apply edges_elem in Hin as (v & adj & v2 & Hva & He).
  apply dict_In_get in Hva;
    [|fold (graph.vertices (graph s)); fold (atoms s); rewrite Hv; apply NoDup_seq].
  apply Hw in Hva. rewrite List.Forall_forall in Hva. destruct (Hva _ He) as [_ Hlt].
  simpl in Hlt. destruct (lookup_lt_is_Some_2 _ _ Hlt) as [b Hbo].
  destruct (Forall_lookup_1 _ _ _ _ Hb Hbo) as [B1 B2].
  unfold edge_text, bondObj. rewrite Hbo. simpl.
  destruct (index_returns (Bond.atoms b).1 (atoms s)) as [i1 ->].
  { rewrite Hv. apply elem_of_seq. lia. }
  destruct (index_returns (Bond.atoms b).2 (atoms s)) as [i2 ->].
  { rewrite Hv. apply elem_of_seq. lia. }
  simpl. eauto.
Qed.

Lemma chosen_candidates {A} (x : attr A) : chosen x -> candidates_of x <> [].
Proof. destruct x as [a|[|a l]]; simpl; unfold chosen; congruence. Qed.

(** X20.  [toDOT] returns a drawing for every Structure that
    [fromAdjacencyList] builds in which each atom has no label or one of the
    labels that have a color ('*', '*1', ..., '*6'). *)
Theorem parsed_Structure_is_drawn `{R : Registry} (text label : string)
    (self s : Structure) :
  fromAdjacencyList text self = (Ok (), s) ->
  Forall (fun a => Atom.label a = "" \/ Atom.label a ∈ color_labels) (atomObjs s) ->
  exists out, toDOT s label = Ok out.
Proof.
  intros H Hl. pose proof (fromAdjacencyList_bounded _ _ _ H) as Hb.
  apply fromAdjacencyList_built in H as (l & ls & _ & _ & [Hp _] & Hw).
  apply toDOT_returns; [exact Hw | | exact Hb].
  destruct Hw as [Hv _]. rewrite Hv. apply list.Forall_forall. intros atom Hin.
  apply elem_of_seq in Hin.
  destruct (lookup_lt_is_Some_2 (atomObjs s) atom) as [a Ha]; [lia|].
  exists a. split; [exact Ha|]. split.
  - apply chosen_candidates. exact (proj1 (Forall_lookup_1 _ _ _ _ Hp Ha)).
  - exact (Forall_lookup_1 _ _ _ _ Hl Ha).
Qed.

(** ** The further properties at work on examples *)

(** [containsLabeledAtom] on the example with the labels '*1', '*2', '*2'. *)
Example labeled_contains :
  containsLabeledAtom (parsed labeled_text) "*2" = Ok true
  /\ containsLabeledAtom (parsed labeled_text) "*3" = Ok false.
Proof. split; vm_compute; reflexivity. Qed.

Lemma labeled_cleared :
  exists s',
    clearLabeledAtoms (parsed labeled_text) = (Ok (), s')
    /\ (Atom.label <$> atomObjs (parsed labeled_text)) = ["*1"; "*2"; "*2"]
    /\ (Atom.label <$> atomObjs s') = [""; ""; ""].
Proof.
  destruct (clearLabeledAtoms_clears (parsed labeled_text)) as (s' & E & _);
    [apply liveb_live; vm_compute; reflexivity|].
  exists s'. split; [exact E|]. vm_compute in E. injection E as <-.
  split; vm_compute; reflexivity.
Defined.

Lemma labeled_cleared_gone :
  containsLabeledAtom (clearLabeledAtoms (parsed labeled_text)).2 "*2" = Ok false
  /\ getLabeledAtom (clearLabeledAtoms (parsed labeled_text)).2 "*2" = Ok None.
Proof.
  apply (cleared_labels_are_gone (parsed labeled_text));
    [vm_compute; reflexivity | discriminate].
Defined.

(** Two centers carry '*2': the dictionary keeps the last one, the third
    atom, where [getLabeledAtom] returns the second. *)
Lemma labeled_last_wins :
  exists found,
    getLabeledAtoms starred (parsed labeled_text) = Ok found
    /\ found !! "*2" = Some 2%nat
    /\ getLabeledAtom (parsed labeled_text) "*2" = Ok (Some 1%nat).
Proof.
  destruct (getLabeledAtoms_last_center starred (parsed labeled_text)) as (found & E & H);
    [apply liveb_live; vm_compute; reflexivity|].
  exists found. split; [exact E|]. split; [|vm_compute; reflexivity].
  apply H. exists [0%nat; 1%nat], []. split; [vm_compute; reflexivity|]. split.
  - eexists. split; [vm_compute; reflexivity|]. split; vm_compute; reflexivity.
  - constructor.
Defined.

(** The second carbon of the allyl radical, given as 'C', becomes 'Cds';
    nothing else moves. *)
Lemma allyl_refined :
  let s := parsed allyl_text in
  let s' := (@updateAtomTypes registry.default s).2.1 in
  (typeLabel s 1 = Some "C" /\ typeLabel s' 1 = Some "Cds")
  /\ graph s' = graph s /\ bondObjs s' = bondObjs s
  /\ Forall2 refined (atomObjs s) (atomObjs s').
Proof.
  split; [split; vm_compute; reflexivity|].
  eapply (@updateAtomTypes_refines registry.default (parsed allyl_text)).
  vm_compute. reflexivity.
Defined.

Lemma allyl_keeps_elements :
  Forall2 same_element
          (atomObjs (parsed allyl_text))
          (atomObjs (@updateAtomTypes registry.default (parsed allyl_text)).2.1).
Proof.
  eapply (@updateAtomTypes_keeps_elements registry.default (parsed allyl_text));
    [exact registry_typed | vm_compute; reflexivity].
Defined.

(** [simplifyAtomTypes] takes the 'Cds' that [updateAtomTypes] has found for
    the second carbon of the allyl radical back to 'C'. *)
Lemma allyl_simplified :
  let s := (@updateAtomTypes registry.default (parsed allyl_text)).2.1 in
  let s' := (@simplifyAtomTypes registry.default s).2 in
  (typeLabel s 1 = Some "Cds" /\ typeLabel s' 1 = Some "C")
  /\ graph s' = graph s /\ bondObjs s' = bondObjs s
  /\ forall i a, atomObjs s !! i = Some a ->
       exists a', atomObjs s' !! i = Some a'
                  /\ @simplified registry.default (bool_decide (i ∈ atoms s)) a a'.
Proof.
  split; [split; vm_compute; reflexivity|].
  apply (@simplifyAtomTypes_resets registry.default).
  - change (NoDup (seq 0 3)). apply NoDup_seq.
  - vm_compute. reflexivity.
Defined.

Lemma spaced_parsed_alike :
  @fromAdjacencyList registry.default ethane_text empty_Structure
  = @fromAdjacencyList registry.default spaced_text empty_Structure.
Proof.
  apply (@fromAdjacencyList_skips_blank_lines registry.default ethane_text spaced_text "C1"
           ["1 C 0 {2,S}"; "2 C 0 {1,S}"]
           ["1 C 0 {2,S}"; "   "; ""; "2 C 0 {1,S}"]);
    vm_compute; reflexivity.
Defined.

Lemma allyl_one_atom_per_line :
  exists label lines,
    pystr.splitlines allyl_text = label :: lines
    /\ length (atomObjs (parsed allyl_text))
       = length (List.filter (fun l => negb (blank l)) lines)
    /\ atoms (parsed allyl_text) ≡ₚ seq 0 (length (atomObjs (parsed allyl_text)))
    /\ (forall atom adj, getBonds (parsed allyl_text) atom = Ok adj ->
          Forall (fun e : nat * nat =>
                    e.1 ∈ atoms (parsed allyl_text)
                    /\ is_Some (bondObjs (parsed allyl_text) !! e.2)) adj)
    /\ bonded (parsed allyl_text).
Proof.
  apply (@fromAdjacencyList_one_atom_per_line registry.default allyl_text empty_Structure).
  vm_compute. reflexivity.
Defined.

(** The Structure with an ambiguity set of electron states is written
    back, although the text cannot be read again. *)
Lemma ambiguous_printed :
  (exists out, toAdjacencyList (parsed amb_text) "X" = Ok out)
  /\ toAdjacencyList (parsed amb_text) "X"
     = Ok (lines ["X"; "1 C {0,1}{2,S} "; "2 C 0 {1,S} "]).
Proof.
  split; [|vm_compute; reflexivity].
  apply (@parsed_Structure_is_printable registry.default amb_text "X" empty_Structure).
  vm_compute. reflexivity.
Defined.

(** The copy of the allyl radical has its three atoms and its two bonds. *)
Lemma allyl_copied :
  let s := parsed allyl_text in
  let s' := the_copy s in
  (toAdjacencyList s' "allyl" = toAdjacencyList s "allyl"
   /\ edge_between s' 0 1 = Some 0%nat /\ edge_between s' 2 1 = Some 1%nat
   /\ edge_between s' 0 2 = None)
  /\ Forall2 (fun atom a' => atomObjs s !! atom = Some a') (atoms s) (atomObjs s')
  /\ atoms s' ≡ₚ seq 0 (length (atoms s))
  /\ Forall2 (copied_bond s) (bonds s) (bondObjs s')
  /\ (forall atom adj, getBonds s' atom = Ok adj ->
        Forall (fun e : nat * nat => e.1 ∈ atoms s' /\ is_Some (bondObjs s' !! e.2)) adj)
  /\ bonded s'.
Proof.
  split; [repeat split; vm_compute; reflexivity|].
  apply (copy_keeps_atoms_and_bonds (parsed allyl_text)). vm_compute. reflexivity.
Defined.

Lemma labeled_copy_alike :
  getRadicalCount (the_copy (parsed labeled_text)) = getRadicalCount (parsed labeled_text)
  /\ containsLabeledAtom (the_copy (parsed labeled_text)) "*2"
     = containsLabeledAtom (parsed labeled_text) "*2".
Proof.
  apply (copy_answers_alike (parsed labeled_text)). vm_compute. reflexivity.
Defined.

Lemma ambiguous_no_count :
  getRadicalCount (parsed amb_text) = Raise AttributeError
  /\ @getAdjacentResonanceIsomers registry.default (parsed amb_text)
     = (Raise AttributeError, parsed amb_text).
Proof.
  eapply (@ambiguous_electrons_no_count registry.default (parsed amb_text)
            [] [1%nat] 0%nat _ _ []);
    [vm_compute; reflexivity | constructor | vm_compute; reflexivity
    | vm_compute; reflexivity].
Defined.

(** The allyl radical has one delocalization path, from its third atom,
    and one isomer, the copy with the shift along it. *)
Lemma allyl_isomer_follows_path :
  exists isomer,
    @getAdjacentResonanceIsomers registry.default (parsed allyl_text)
    = (Ok [isomer], parsed allyl_text)
    /\ mapM (findAllDelocalizationPaths (parsed allyl_text)) (atoms (parsed allyl_text))
       = Ok [[]; []; [(2, 1, 0, 1, 0)%nat]]
    /\ isomer_of (parsed allyl_text) (2, 1, 0, 1, 0)%nat isomer.
Proof.
  eassert (E : @getAdjacentResonanceIsomers registry.default (parsed allyl_text)
               = (Ok [_], _)) by (vm_compute; reflexivity).
  destruct (@isomers_follow_paths registry.default _ _ _ registry_lawful E)
    as (radical & Hr & H).
  vm_compute in Hr. injection Hr as <-.
  change (0 <? 1) with true in H. cbv iota in H. destruct H as (pss & Hp & Hf).
  eexists. split; [vm_compute; reflexivity|]. split; [vm_compute; reflexivity|].
  vm_compute in Hp. injection Hp as <-.
  change (concat [[]; []; [(2, 1, 0, 1, 0)%nat]]) with [(2, 1, 0, 1, 0)%nat] in Hf.
  apply Forall2_cons_1 in Hf as [Hf _]. exact Hf.
Defined.

Lemma singlet_isomers_keep_radicals :
  getRadicalCount (parsed singlet_text) = Ok 2
  /\ Forall (fun isomer => getRadicalCount isomer = getRadicalCount (parsed singlet_text)
                           /\ atoms isomer = seq 0 (length (atoms (parsed singlet_text))))
            (match (@getAdjacentResonanceIsomers registry.default (parsed singlet_text)).1 with
             | Ok isomers => isomers
             | Raise _ => []
             end).
Proof.
  split; [vm_compute; reflexivity|].
  eassert (E : @getAdjacentResonanceIsomers registry.default (parsed singlet_text)
               = (Ok _, _)) by (vm_compute; reflexivity).
  rewrite E. simpl.
  apply (@isomers_keep_radical_count registry.default _ _ _ registry_lawful) in E;
    [exact E | change (NoDup (seq 0 3)); apply NoDup_seq
    | apply linkedb_linked; vm_compute; reflexivity].
Defined.

(** At 1000 K, where the two ranges meet, the first polynomial is chosen;
    above both ranges there is none. *)
Lemma two_ranges_meet :
  thermo.selectPolynomialForTemperature Z.leb two_ranges 1000 = Some low_poly
  /\ thermo.selectPolynomialForTemperature Z.leb two_ranges 1001 = Some high_poly
  /\ thermo.selectPolynomialForTemperature Z.leb two_ranges 4000 = None.
Proof.
  split; [|split].
  - apply (proj1 (selectPolynomial_first_valid Z.leb two_ranges 1000)).
    exists [], [high_poly]. repeat split; try reflexivity. constructor.
  - apply (proj1 (selectPolynomial_first_valid Z.leb two_ranges 1001)).
    exists [low_poly], []. repeat split; try reflexivity.
    constructor; [reflexivity | constructor].
  - apply (proj2 (selectPolynomial_first_valid Z.leb two_ranges 4000)).
    repeat (constructor; [reflexivity|]). constructor.
Defined.


(** The label '*7' has no color. *)
Lemma seventh_label_not_drawn :
  toDOT (parsed seventh_text) "L" = Raise KeyError.
Proof.
  eapply (toDOT_unknown_label (parsed seventh_text) "L" [0%nat] [] 1%nat);
    [vm_compute; reflexivity | apply drawableb_all; vm_compute; reflexivity
    | vm_compute; reflexivity | discriminate | discriminate |].
  vm_compute. intros H. repeat (apply elem_of_cons in H as [H|H]; [discriminate|]).
  by apply elem_of_nil in H.
Defined.

(** The drawing of the allyl radical. *)
Example allyl_drawn :
  toDOT (parsed allyl_text) "allyl"
  = Ok (lines ["graph allyl {";
               tab +:+ "// List of atoms";
               tab +:+ "1 [label=" +:+ dq +:+ "C" +:+ dq +:+ "]";
               tab +:+ "2 [label=" +:+ dq +:+ "C" +:+ dq +:+ "]";
               tab +:+ "3 [label=" +:+ dq +:+ "C" +:+ dq +:+ "]";
               tab +:+ "// List of bonds";
               tab +:+ "2 -- 1 [len=2,style=solid]";
               tab +:+ "2 -- 1 [len=2,style=solid]";
               tab +:+ "3 -- 2 [len=2,style=solid]";
               "}"]).
Proof. vm_compute. reflexivity. Qed.

(** The second atom line has no electron state. *)
Lemma short_line_refused :
  @fromAdjacencyList registry.default short_text (parsed ethane_text)
  = (Raise (InvalidAdjacencyListException "L"), parsed ethane_text).
Proof.
  apply (@fromAdjacencyList_short_line registry.default short_text "L" "2 C"
           ["1 C 0"; "2 C"]);
    [vm_compute; reflexivity | right; by left | vm_compute; reflexivity].
Defined.

Lemma labeled_drawn :
  exists out, toDOT (parsed labeled_text) "L" = Ok out.
Proof.
  apply (@parsed_Structure_is_drawn registry.default labeled_text "L" empty_Structure);
    [vm_compute; reflexivity|].
  apply List.Forall_forall. intros a Ha.
  vm_compute in Ha.
  repeat (destruct Ha as [<-|Ha];
          [right; unfold color_labels; simpl; set_solver|]).
  contradiction.
Defined.
